(** * rosa: the [create service] and [list services] commands

    A shallow embedding of [cmd/create/service/cmd.go] (the command that
    creates a managed service) and of the [list services] command that
    follows it in the same source file, together with the properties of
    the role resolution, the operator role planner, the parameter copy and
    the listing that the design document states.

    Go strings are byte strings: they are modelled by [string], whose
    characters are bytes.  A Go map is a [gmap]; the nil map is [None].
    The commands talk to AWS, to the OCM API and to the terminal: these
    calls are answered by a [World], and every call and every message is
    recorded in a trace. *)

From Stdlib Require Import Ascii.
From stdpp Require Import base option list strings gmap.

Set Default Proof Using "Type".

(* stdpp freezes string concatenation under [simpl]; the proofs below
   compute with it. *)
#[local] Arguments String.append !_ _ / : simpl nomatch.

(** ** Go's [strings] package, as far as the commands use it *)

Module strings.

(** [s[:n]] and [s[n:]], for [n] within bounds. *)
Definition slice_to (n : nat) (s : string) : string :=
  String.substring 0 n s.

Definition slice_from (n : nat) (s : string) : string :=
  String.substring n (String.length s - n) s.

Definition HasPrefix (s prefix : string) : bool := String.prefix prefix s.

Definition HasSuffix (s suffix : string) : bool :=
  (String.length suffix <=? String.length s) &&
  String.eqb (slice_from (String.length s - String.length suffix) s) suffix.

(** [strings.Index]: the byte offset of the first occurrence of [substr]
    in [s]; Go's [-1] is [None]. *)
Fixpoint Index (s substr : string) : option nat :=
  if String.prefix substr s then Some 0
  else match s with
       | EmptyString => None
       | String _ s' => S <$> Index s' substr
       end.

Definition Contains (s substr : string) : bool :=
  bool_decide (is_Some (Index s substr)).

Definition TrimSuffix (s suffix : string) : string :=
  if HasSuffix s suffix
  then slice_to (String.length s - String.length suffix) s
  else s.

(** [strings.SplitN s sep n] for the calls of the commands: a separator
    that is not empty and a positive [n].  At most [n] pieces, the last
    one being the unsplit rest. *)
Fixpoint SplitN (s sep : string) (n : nat) : list string :=
  match n with
  | 0 => []
  | 1 => [s]
  | S n' =>
      match Index s sep with
      | None => [s]
      | Some m =>
          slice_to m s :: SplitN (slice_from (m + String.length sep) s) sep n'
      end
  end.

End strings.

(** ** Data model *)

(** A Go call that returns [(value, error)] and whose value is only looked
    at when the error is nil. *)
Inductive result (A : Type) : Type :=
  | Ok (a : A)
  | Err (e : string).
Arguments Ok {A} a.
Arguments Err {A} e.

Definition TAB : string := String "009"%char EmptyString.
Definition NL : string := String "010"%char EmptyString.

(** [github.com/aws/aws-sdk-go/aws/arn] *)
Module arn.
Record ARN : Type := {
  Partition : string;
  Service : string;
  Region : string;
  AccountID : string;
  Resource : string;
}.
End arn.

(** [pkg/aws]: the declarations the command uses. *)
Module aws.

(** The keys of the table [aws.AccountRoles].  The [switch] of the command
    names the four of them as distinct constants. *)
Inductive RoleType : Type :=
  | InstallerAccountRole
  | SupportAccountRole
  | ControlPlaneAccountRole
  | WorkerAccountRole.

#[global] Instance RoleType_eq_dec : EqDecision RoleType.
Proof. solve_decision. Defined.

Record AccountRole : Type := { AccountRole_Name : string }.

Record Operator : Type := {
  Operator_Name : string;
  Operator_Namespace : string;
  Operator_MinVersion : string;
}.

Record Creator : Type := { Creator_AccountID : string }.

End aws.

(** [clustersmgmt/v1] of the OCM SDK: an add-on and its parameter schema.
    [AddOn_parameters] is [None] for the nil list. *)
Module cmv1.
Record AddOnParameter : Type := { ID : string }.
Record AddOn : Type := { AddOn_parameters : option (list AddOnParameter) }.

(** Modelled from the spec: the accessor [Parameters] of an add-on belongs to
    the generated SDK, which is not among the sources.  After a failed
    lookup the command goes on as if there were no parameters, so the
    accessor answers nil on the nil add-on. *)
Definition Parameters (o : option AddOn) : option (list AddOnParameter) :=
  o ≫= AddOn_parameters.
End cmv1.

(** [servicemgmt/v1] of the OCM SDK. *)
Module msv1.
Record ManagedService : Type := {
  ID : string;
  Service : string;
  ServiceState : string;
}.
End msv1.

(** [pkg/ocm] *)
Module ocm.

Record OperatorIAMRole : Type := {
  Name : string;
  Namespace : string;
  RoleARN : string;
}.

(** The request aggregate.  [Parameters] is a Go map: [None] is the nil
    map, which can be read but not written. *)
Record CreateManagedServiceArgs : Type := {
  ServiceName : string;
  ClusterName : string;
  AwsRoleARN : string;
  AwsSupportRoleARN : string;
  AwsControlPlaneRoleARN : string;
  AwsWorkerRoleARN : string;
  AwsAccountID : string;
  AwsRegion : string;
  AwsOperatorIamRoleList : list OperatorIAMRole;
  Parameters : option (gmap string string);
}.

End ocm.

(** ** Effects: a trace of calls and messages, and the ways a command ends *)

Inductive event : Type :=
  | Errorf (msg : string)
  | Warnf (msg : string)
  | Infof (msg : string)
  | Debugf (msg : string)
  | Infof_v (service : msv1.ManagedService)
  | Build
  | Close
  | FindRoleARNs (roleType : aws.RoleType) (minor : string)
  | interactive_Enable
  | GetCreator
  | ValidateRoleNameAvailable (name : string)
  | GetRegion (region : string)
  | GetAddOn (id : string)
  | CreateManagedService (args : ocm.CreateManagedServiceArgs)
  | ListManagedServices (limit : nat)
  | Fprintf (text : string)
  | Flush.

(** How a piece of code ends: with a value, in [os.Exit], or in a run-time
    panic (an index out of range, a write to a nil map). *)
Inductive res (A : Type) : Type :=
  | Val (a : A)
  | Exit (code : nat)
  | Panic.
Arguments Val {A} a.
Arguments Exit {A} code.
Arguments Panic {A}.

Definition M (A : Type) : Type := list event * res A.

#[global] Instance M_ret : MRet M := λ A a, ([], Val a).

#[global] Instance M_bind : MBind M := λ A B f m,
  match m.2 with
  | Val a => (m.1 ++ (f a).1, (f a).2)
  | Exit c => (m.1, Exit c)
  | Panic => (m.1, Panic)
  end.

Definition emit (e : event) : M unit := ([e], Val tt).
Definition os_Exit {A : Type} (code : nat) : M A := ([], Exit code).
Definition panic {A : Type} : M A := ([], Panic).

(** [l[i]], which panics out of range. *)
Definition at_index {A : Type} (l : list A) (i : nat) : M A :=
  match l !! i with
  | Some x => mret x
  | None => panic
  end.

(** [m[k] = v], which panics on the nil map. *)
Definition map_store (m : option (gmap string string)) (k v : string)
  : M (option (gmap string string)) :=
  match m with
  | Some m => mret (Some (<[k:=v]> m))
  | None => panic
  end.

(** [for _, x := range l { body }] with the variables the body updates
    threaded through; an exit or a panic in the body ends the loop. *)
Fixpoint for_range {A S : Type} (l : list A) (body : A → S → M S) (s : S)
  : M S :=
  match l with
  | [] => mret s
  | x :: l' => s' ← body x s; for_range l' body s'
  end.

(** [defer]: the deferred code runs when the body returns and when it
    panics, and does not run when the body leaves through [os.Exit]. *)
Definition with_defer {A : Type} (body : M A) (deferred : M unit) : M A :=
  match body.2 with
  | Val a => (body.1 ++ deferred.1, Val a)
  | Exit c => (body.1, Exit c)
  | Panic => (body.1 ++ deferred.1, Panic)
  end.

Definition trace {A : Type} (m : M A) : list event := m.1.
Definition outcome {A : Type} (m : M A) : res A := m.2.

(** [m] after the events [t]. *)
Definition after {A : Type} (t : list event) (m : M A) : M A :=
  (t ++ trace m, outcome m).

(** The pattern [x, err := call(...); if err != nil { reporter.Errorf(...);
    os.Exit(1) }]. *)
Definition or_exit {A : Type} (call : event) (r : result A)
    (msg : string → string) : M A :=
  emit call;;
  match r with
  | Ok a => mret a
  | Err e => emit (Errorf (msg e));; os_Exit 1
  end.

Definition when (b : bool) (m : M unit) : M unit :=
  if b then m else mret tt.

(** The deferred close of the OCM connection. *)
Definition close_connection {W : Type} (close : W → result unit) (w : W)
  : M unit :=
  emit Close;;
  match close w with
  | Ok _ => mret tt
  | Err e => emit (Errorf ("Failed to close OCM connection: " +:+ e))
  end.

(** ** [rosa create service] *)

Module create_service.

(** What the outside answers during one invocation.  The reporter, the
    logger and the AWS client are built by functions that end the process
    themselves when they fail; the command is modelled from the point
    where they have returned. *)
Record World : Type := {
  (** [--service] and [--clusterName] as parsed (default: empty), and the
      string values of the flags that were registered elsewhere. *)
  flag_service : string;
  flag_clusterName : string;
  other_flags : gmap string string;
  ocm_Build : result unit;
  ocm_Close : result unit;
  aws_FindRoleARNs : aws.RoleType → string → result (list string);
  (** the order in which [range aws.AccountRoles] yields the keys *)
  range_AccountRoles : list aws.RoleType;
  output_HasFlag : bool;
  reporter_IsTerminal : bool;
  aws_GetCreator : result aws.Creator;
  ocm_RandomLabel : nat → string;
  aws_ValidateRoleNameAvailable : string → result unit;
  aws_GetRegion : string → result string;
  (** the add-on pointer (nil: [None]) and the error (nil: [None]) *)
  ocm_GetAddOn : string → option cmv1.AddOn * option string;
  ocm_CreateManagedService :
    ocm.CreateManagedServiceArgs → result msv1.ManagedService;
}.

(** [init]: the two flags of the command are bound to fields of [args];
    [cmd.Flags().Lookup] finds them next to the other registered flags. *)
Definition Flags (w : World) : gmap string string :=
  <["service" := flag_service w]>
    (<["clusterName" := flag_clusterName w]> (other_flags w)).

(** The package variable [args] when [run] is entered: its zero value,
    but for the two bound fields. *)
Definition args_at_entry (w : World) : ocm.CreateManagedServiceArgs :=
  {| ocm.ServiceName := flag_service w;
     ocm.ClusterName := flag_clusterName w;
     ocm.AwsRoleARN := EmptyString;
     ocm.AwsSupportRoleARN := EmptyString;
     ocm.AwsControlPlaneRoleARN := EmptyString;
     ocm.AwsWorkerRoleARN := EmptyString;
     ocm.AwsAccountID := EmptyString;
     ocm.AwsRegion := EmptyString;
     ocm.AwsOperatorIamRoleList := [];
     ocm.Parameters := None |}.

(** The four role variables of [run] and [hasRoles]. *)
Record RoleVars : Type := {
  roleARN : string;
  supportRoleARN : string;
  controlPlaneRoleARN : string;
  workerRoleARN : string;
  hasRoles : bool;
}.

Definition set_hasRoles (b : bool) (v : RoleVars) : RoleVars :=
  {| roleARN := roleARN v; supportRoleARN := supportRoleARN v;
     controlPlaneRoleARN := controlPlaneRoleARN v;
     workerRoleARN := workerRoleARN v; hasRoles := b |}.

(** The [switch roleType] of the loop over the account roles. *)
Definition assign (roleType : aws.RoleType) (selectedARN : string)
    (v : RoleVars) : RoleVars :=
  match roleType with
  | aws.InstallerAccountRole =>
      {| roleARN := selectedARN; supportRoleARN := supportRoleARN v;
         controlPlaneRoleARN := controlPlaneRoleARN v;
         workerRoleARN := workerRoleARN v; hasRoles := hasRoles v |}
  | aws.SupportAccountRole =>
      {| roleARN := roleARN v; supportRoleARN := selectedARN;
         controlPlaneRoleARN := controlPlaneRoleARN v;
         workerRoleARN := workerRoleARN v; hasRoles := hasRoles v |}
  | aws.ControlPlaneAccountRole =>
      {| roleARN := roleARN v; supportRoleARN := supportRoleARN v;
         controlPlaneRoleARN := selectedARN;
         workerRoleARN := workerRoleARN v; hasRoles := hasRoles v |}
  | aws.WorkerAccountRole =>
      {| roleARN := roleARN v; supportRoleARN := supportRoleARN v;
         controlPlaneRoleARN := controlPlaneRoleARN v;
         workerRoleARN := selectedARN; hasRoles := hasRoles v |}
  end.

(** [fmt.Sprintf("%s-%s-Role", prefix, name)] *)
Definition role_pattern (prefix name : string) : string :=
  prefix +:+ "-" +:+ name +:+ "-Role".

(** [for _, rARN := range roleARNs { if strings.Contains(rARN, pattern)
    { selected = rARN } }] *)
Definition select_matching (pattern : string) (roleARNs : list string)
    (initial : string) : string :=
  foldl (λ selected rARN,
           if strings.Contains rARN pattern then rARN else selected)
        initial roleARNs.

Definition no_roles_msg : string :=
  "No account roles found. You will need to run 'rosa create account-roles' to create them first.".

Definition no_role_msg (name : string) : string :=
  "No " +:+ name +:+
  " account roles found. You will need to run 'rosa create account-roles' to create them first.".

Definition using_msg (ARN name : string) : string :=
  "Using " +:+ ARN +:+ " for the " +:+ name +:+ " role".

Definition more_than_one_msg (name ARN : string) : string :=
  "More than one " +:+ name +:+ " role found, going with " +:+ ARN.

Definition find_failed_msg (name e : string) : string :=
  "Failed to find " +:+ name +:+ " role: " +:+ e.

Definition version : string := "4.9".

(** [getOperatorRoleArn] *)
Definition getOperatorRoleArn (prefix : string) (operator : aws.Operator)
    (creator : aws.Creator) : string :=
  let role :=
    prefix +:+ "-" +:+ aws.Operator_Namespace operator +:+ "-" +:+
    aws.Operator_Name operator in
  let role :=
    if 64 <? String.length role then strings.slice_to 64 role else role in
  "arn:aws:iam::" +:+ aws.Creator_AccountID creator +:+ ":role/" +:+ role.

(** [getRolePrefix]; the random label is the world's. *)
Definition getRolePrefix (w : World) (clusterName : string) : string :=
  clusterName +:+ "-" +:+ ocm_RandomLabel w 4.

(** The [Each] over the parameter schema: every parameter whose ID is a
    registered flag is stored in [args.Parameters]. *)
Definition copyParameters (flags : gmap string string)
    (params : list cmv1.AddOnParameter) (m : option (gmap string string))
    : M (option (gmap string string)) :=
  for_range params
    (λ param m,
       match flags !! cmv1.ID param with
       | Some value => map_store m (cmv1.ID param) value
       | None => mret m
       end) m.

Definition set_role_args (v : RoleVars) (a : ocm.CreateManagedServiceArgs)
    : ocm.CreateManagedServiceArgs :=
  {| ocm.ServiceName := ocm.ServiceName a;
     ocm.ClusterName := ocm.ClusterName a;
     ocm.AwsRoleARN := roleARN v;
     ocm.AwsSupportRoleARN := supportRoleARN v;
     ocm.AwsControlPlaneRoleARN := controlPlaneRoleARN v;
     ocm.AwsWorkerRoleARN := workerRoleARN v;
     ocm.AwsAccountID := ocm.AwsAccountID a;
     ocm.AwsRegion := ocm.AwsRegion a;
     ocm.AwsOperatorIamRoleList := ocm.AwsOperatorIamRoleList a;
     ocm.Parameters := ocm.Parameters a |}.

Definition set_operator_args (l : list ocm.OperatorIAMRole)
    (accountID region : string) (a : ocm.CreateManagedServiceArgs)
    : ocm.CreateManagedServiceArgs :=
  {| ocm.ServiceName := ocm.ServiceName a;
     ocm.ClusterName := ocm.ClusterName a;
     ocm.AwsRoleARN := ocm.AwsRoleARN a;
     ocm.AwsSupportRoleARN := ocm.AwsSupportRoleARN a;
     ocm.AwsControlPlaneRoleARN := ocm.AwsControlPlaneRoleARN a;
     ocm.AwsWorkerRoleARN := ocm.AwsWorkerRoleARN a;
     ocm.AwsAccountID := accountID;
     ocm.AwsRegion := region;
     ocm.AwsOperatorIamRoleList := l;
     ocm.Parameters := ocm.Parameters a |}.

Definition set_Parameters (m : option (gmap string string))
    (a : ocm.CreateManagedServiceArgs) : ocm.CreateManagedServiceArgs :=
  {| ocm.ServiceName := ocm.ServiceName a;
     ocm.ClusterName := ocm.ClusterName a;
     ocm.AwsRoleARN := ocm.AwsRoleARN a;
     ocm.AwsSupportRoleARN := ocm.AwsSupportRoleARN a;
     ocm.AwsControlPlaneRoleARN := ocm.AwsControlPlaneRoleARN a;
     ocm.AwsWorkerRoleARN := ocm.AwsWorkerRoleARN a;
     ocm.AwsAccountID := ocm.AwsAccountID a;
     ocm.AwsRegion := ocm.AwsRegion a;
     ocm.AwsOperatorIamRoleList := ocm.AwsOperatorIamRoleList a;
     ocm.Parameters := m |}.

Section cmd.

(** Declarations of [pkg/aws], [pkg/ocm] and the AWS SDK that the
    command uses and that are not among the sources: the theorems hold
    whatever they are. *)
Variable DefaultPrefix : string.
Variable AccountRoles : aws.RoleType → aws.AccountRole.
(** [aws.CredentialRequests], in the order the loop visits it *)
Variable CredentialRequests : list aws.Operator.
Variable GetVersionMinor : string → string.
Variable CheckSupportedVersion : string → string → result bool.
Variable arn_Parse : string → result arn.ARN.

Definition role_Name (roleType : aws.RoleType) : string :=
  aws.AccountRole_Name (AccountRoles roleType).

(** [getAccountRolePrefix] *)
Definition getAccountRolePrefix (roleARN : string)
    (role : aws.AccountRole) : M (result string) :=
  match arn_Parse roleARN with
  | Err e => mret (Err e)
  | Ok parsedARN =>
      roleName ← at_index (strings.SplitN (arn.Resource parsedARN) "/" 2) 1;
      mret (Ok (strings.TrimSuffix roleName
                  ("-" +:+ aws.AccountRole_Name role +:+ "-Role")))
  end.

(** Lines 102-126: the installer role. *)
Definition findInstallerRole (w : World) : M string :=
  let minor := GetVersionMinor version in
  let name := role_Name aws.InstallerAccountRole in
  roleARNs ← or_exit (FindRoleARNs aws.InstallerAccountRole minor)
               (aws_FindRoleARNs w aws.InstallerAccountRole minor)
               (find_failed_msg name);
  match roleARNs with
  | first :: _ :: _ =>
      let defaultRoleARN :=
        select_matching (role_pattern DefaultPrefix name) roleARNs first in
      emit (Warnf (more_than_one_msg name defaultRoleARN));;
      mret defaultRoleARN
  | [only] =>
      when (negb (output_HasFlag w) || reporter_IsTerminal w)
        (emit (Infof (using_msg only name)));;
      mret only
  | [] =>
      emit (Errorf no_roles_msg);;
      mret EmptyString
  end.

(** The body of the loop of lines 138-174. *)
Definition findDependentRole (w : World) (rolePrefix : string)
    (roleType : aws.RoleType) (v : RoleVars) : M RoleVars :=
  let minor := GetVersionMinor version in
  if decide (roleType = aws.InstallerAccountRole) then mret v
  else
    let name := role_Name roleType in
    roleARNs ← or_exit (FindRoleARNs roleType minor)
                 (aws_FindRoleARNs w roleType minor)
                 (find_failed_msg name);
    let selectedARN :=
      select_matching (role_pattern rolePrefix name) roleARNs EmptyString in
    v ← (if String.eqb selectedARN EmptyString
         then emit (Errorf (no_role_msg name));;
              emit interactive_Enable;;
              mret (set_hasRoles false v)
         else mret v);
    when (negb (output_HasFlag w) || reporter_IsTerminal w)
      (emit (Infof (using_msg selectedARN name)));;
    mret (assign roleType selectedARN v).

(** Lines 96-175: the role variables when the check of [hasRoles] is
    reached. *)
Definition resolveAccountRoles (w : World) : M RoleVars :=
  roleARN ← findInstallerRole w;
  let v := {| roleARN := roleARN; supportRoleARN := EmptyString;
              controlPlaneRoleARN := EmptyString;
              workerRoleARN := EmptyString; hasRoles := false |} in
  if String.eqb roleARN EmptyString then mret v
  else
    let role := AccountRoles aws.InstallerAccountRole in
    rolePrefix ← getAccountRolePrefix roleARN role;
    match rolePrefix with
    | Err _ =>
        emit (Errorf ("Failed to find prefix from " +:+
                      aws.AccountRole_Name role +:+ " account role"));;
        os_Exit 1
    | Ok rolePrefix =>
        emit (Debugf ("Using '" +:+ rolePrefix +:+ "' as the role prefix"));;
        for_range (range_AccountRoles w) (findDependentRole w rolePrefix)
          (set_hasRoles true v)
    end.

Definition operatorIAMRole (operatorRolesPrefix : string)
    (awsCreator : aws.Creator) (operator : aws.Operator)
    : ocm.OperatorIAMRole :=
  {| ocm.Name := aws.Operator_Name operator;
     ocm.Namespace := aws.Operator_Namespace operator;
     ocm.RoleARN :=
       getOperatorRoleArn operatorRolesPrefix operator awsCreator |}.

(** The body of the loop of lines 196-213. *)
Definition appendOperatorRole (operatorRolesPrefix : string)
    (awsCreator : aws.Creator) (operator : aws.Operator)
    (operatorIAMRoleList : list ocm.OperatorIAMRole)
    : M (list ocm.OperatorIAMRole) :=
  let entry := operatorIAMRole operatorRolesPrefix awsCreator operator in
  if String.eqb (aws.Operator_MinVersion operator) EmptyString
  then mret (operatorIAMRoleList ++ [entry])
  else
    match CheckSupportedVersion (GetVersionMinor version)
            (aws.Operator_MinVersion operator) with
    | Err e =>
        emit (Errorf ("Error validating operator role '" +:+
                      aws.Operator_Name operator +:+ "' version " +:+ e));;
        os_Exit 1
    | Ok isSupported =>
        if negb isSupported then mret operatorIAMRoleList
        else mret (operatorIAMRoleList ++ [entry])
    end.

(** Lines 194-213: the operator role list. *)
Definition operatorRoles (operatorRolesPrefix : string)
    (awsCreator : aws.Creator) : M (list ocm.OperatorIAMRole) :=
  for_range CredentialRequests
    (appendOperatorRole operatorRolesPrefix awsCreator) [].

(** The body of the loop of lines 216-223. *)
Definition validateRoleName (w : World) (role : ocm.OperatorIAMRole)
    (_ : unit) : M unit :=
  name ← at_index (strings.SplitN (ocm.RoleARN role) "/" 2) 1;
  or_exit (ValidateRoleNameAvailable name)
    (aws_ValidateRoleNameAvailable w name)
    (λ e, "Error validating role: " +:+ e).

(** Lines 216-223: every role name must be available. *)
Definition validateRoleNames (w : World)
    (operatorIAMRoleList : list ocm.OperatorIAMRole) : M unit :=
  for_range operatorIAMRoleList (validateRoleName w) tt.

(** Lines 255-269: the add-on is looked up by service name and the values
    of the flags named by its parameters are copied to [args.Parameters].
    A failed lookup is reported, and nothing more. *)
Definition fetchParameters (w : World) (args : ocm.CreateManagedServiceArgs)
    : M (option (gmap string string)) :=
  emit (GetAddOn (ocm.ServiceName args));;
  let '(addOn, err) := ocm_GetAddOn w (ocm.ServiceName args) in
  match err with
  | Some e => emit (Errorf ("Failed to process service parameters: " +:+ e))
  | None => mret tt
  end;;
  match cmv1.Parameters addOn with
  | Some addOnParameters =>
      copyParameters (Flags w) addOnParameters (ocm.Parameters args)
  | None => mret (ocm.Parameters args)
  end.

(** Lines 87-269: [args] is filled in. *)
Definition buildRequest (w : World) (args : ocm.CreateManagedServiceArgs)
    : M ocm.CreateManagedServiceArgs :=
  v ← resolveAccountRoles w;
  (if hasRoles v then mret tt
   else emit (Errorf "Please create the above roles to continue");;
        os_Exit 1);;
  let args := set_role_args v args in
  awsCreator ← or_exit GetCreator (aws_GetCreator w)
                 (λ e, "Unable to get IAM credentials: " +:+ e);
  let operatorRolesPrefix := getRolePrefix w (ocm.ClusterName args) in
  operatorIAMRoleList ← operatorRoles operatorRolesPrefix awsCreator;
  validateRoleNames w operatorIAMRoleList;;
  region ← or_exit (GetRegion EmptyString) (aws_GetRegion w EmptyString)
             (λ e, "Error getting region: " +:+ e);
  let args :=
    set_operator_args operatorIAMRoleList
      (aws.Creator_AccountID awsCreator) region args in
  emit (Infof ("Using AWS region: " +:+ region));;
  parameters ← fetchParameters w args;
  mret (set_Parameters parameters args).

(** Lines 271-287: the request is submitted. *)
Definition submitRequest (w : World) (args : ocm.CreateManagedServiceArgs)
    : M ocm.CreateManagedServiceArgs :=
  service ← or_exit (CreateManagedService args)
              (ocm_CreateManagedService w args)
              (λ e, "Failed to create managed service: " +:+ e);
  emit (Infof_v service);;
  emit (Infof ("Run the following commands to continue the cluster creation:"
               +:+ NL +:+ NL +:+
               TAB +:+ "rosa create operator-roles --cluster " +:+
               ocm.ClusterName args +:+ NL +:+
               TAB +:+ "rosa create oidc-provider --cluster " +:+
               ocm.ClusterName args +:+ NL));;
  mret args.

(** Lines 87-287: [run] between the registration of the deferred close
    and its return. *)
Definition run_body (w : World) (args : ocm.CreateManagedServiceArgs)
    : M ocm.CreateManagedServiceArgs :=
  args ← buildRequest w args;
  submitRequest w args.

(** [run], from the package variable [args] as the command finds it to
    [args] as the command leaves it. *)
Definition run (w : World) (args : ocm.CreateManagedServiceArgs)
    : M ocm.CreateManagedServiceArgs :=
  or_exit Build (ocm_Build w)
    (λ e, "Failed to create OCM connection: " +:+ e);;
  with_defer (run_body w args) (close_connection ocm_Close w).

(** One invocation of the command. *)
Definition Cmd_Run (w : World) : M ocm.CreateManagedServiceArgs :=
  run w (args_at_entry w).

End cmd.

End create_service.

(** ** [rosa list services] *)

Module list_service.

Record World : Type := {
  ocm_Build : result unit;
  ocm_Close : result unit;
  ocm_ListManagedServices : nat → result (list msv1.ManagedService);
}.

(** The two format strings, filled in. *)
Definition header : string :=
  "ID" +:+ TAB +:+ "SERVICE" +:+ TAB +:+ "STATE" +:+ NL.

Definition row (srv : msv1.ManagedService) : string :=
  msv1.ID srv +:+ TAB +:+ msv1.Service srv +:+ TAB +:+
  msv1.ServiceState srv +:+ NL.

(** [run] after the deferred close is registered.  [Fprintf] records the
    text handed to the tab writer, which aligns the cells that the tabs
    end when it is flushed to the standard output. *)
Definition run_body (w : World) : M unit :=
  servicesList ← or_exit (ListManagedServices 1000)
                   (ocm_ListManagedServices w 1000)
                   (λ e, "Failed to retrieve list of managed services: "
                         +:+ e);
  emit (Fprintf header);;
  for_range servicesList (λ srv _, emit (Fprintf (row srv))) tt;;
  emit Flush.

Definition run (w : World) : M unit :=
  or_exit Build (ocm_Build w)
    (λ e, "Failed to create OCM connection: " +:+ e);;
  with_defer (run_body w) (close_connection ocm_Close w).

End list_service.

(** ** Reading a trace *)

(** The text handed to the tab writer, in order. *)
Definition written (t : list event) : list string :=
  omap (λ e, match e with Fprintf text => Some text | _ => None end) t.

(** The messages of the reporter, in order. *)
Definition is_report (e : event) : bool :=
  match e with
  | Errorf _ | Warnf _ | Infof _ | Debugf _ | Infof_v _ => true
  | _ => false
  end.

Definition errors (t : list event) : list string :=
  omap (λ e, match e with Errorf msg => Some msg | _ => None end) t.

Definition warnings (t : list event) : list string :=
  omap (λ e, match e with Warnf msg => Some msg | _ => None end) t.

(** The role categories looked up at AWS, in order. *)
Definition lookups (t : list event) : list aws.RoleType :=
  omap (λ e, match e with
             | FindRoleARNs roleType _ => Some roleType
             | _ => None
             end) t.

(** The requests submitted to [CreateManagedService], in order. *)
Definition created (t : list event) : list ocm.CreateManagedServiceArgs :=
  omap (λ e, match e with
             | CreateManagedService args => Some args
             | _ => None
             end) t.

(** Modelled from the spec: the keys of the table [aws.AccountRoles], which
    is declared in [pkg/aws] and is not among the sources.  The design
    document fixes its four role categories (installer, support,
    control-plane, worker); a [range] over the table yields each key once,
    in an order that Go leaves open. *)
Definition all_roles : list aws.RoleType :=
  [aws.InstallerAccountRole; aws.SupportAccountRole;
   aws.ControlPlaneAccountRole; aws.WorkerAccountRole].

(** ** An instance of the missing declarations

    The theorems below hold for every value of the declarations that the
    command takes from other packages.  To run the model, this instance
    gives them the values that the command line tool ships with, as far as
    the runs below need them. *)

Module sample.

Definition DefaultPrefix : string := "ManagedOpenShift".

Definition AccountRoles (roleType : aws.RoleType) : aws.AccountRole :=
  match roleType with
  | aws.InstallerAccountRole => {| aws.AccountRole_Name := "Installer" |}
  | aws.SupportAccountRole => {| aws.AccountRole_Name := "Support" |}
  | aws.ControlPlaneAccountRole => {| aws.AccountRole_Name := "ControlPlane" |}
  | aws.WorkerAccountRole => {| aws.AccountRole_Name := "Worker" |}
  end.

Definition CredentialRequests : list aws.Operator :=
  [ {| aws.Operator_Name := "cloud-credentials";
       aws.Operator_Namespace := "openshift-machine-api";
       aws.Operator_MinVersion := EmptyString |};
    {| aws.Operator_Name := "ebs-cloud-credentials";
       aws.Operator_Namespace := "openshift-cluster-csi-drivers";
       aws.Operator_MinVersion := "4.10" |} ].

Definition GetVersionMinor (ver : string) : string := ver.

(** Enough of a version comparison for the runs below: ["4.10"] is newer
    than the hard-coded ["4.9"], every other minimum is met. *)
Definition CheckSupportedVersion (minor minVersion : string) : result bool :=
  Ok (negb (String.eqb minVersion "4.10")).

(** The parser of the AWS SDK: the prefix ["arn:"] and six sections. *)
Definition arn_Parse (s : string) : result arn.ARN :=
  if negb (strings.HasPrefix s "arn:") then Err "arn: invalid prefix"
  else
    match strings.SplitN s ":" 6 with
    | [_; partition; service; region; accountID; resource] =>
        Ok {| arn.Partition := partition; arn.Service := service;
              arn.Region := region; arn.AccountID := accountID;
              arn.Resource := resource |}
    | _ => Err "arn: not enough sections"
    end.

Definition role_arn (name : string) : string :=
  "arn:aws:iam::123456789012:role/" +:+ name.

(** An account with one role of each category under the default prefix,
    an add-on without parameters, and nothing that fails. *)
Definition world : create_service.World :=
  {| create_service.flag_service := "s1";
     create_service.flag_clusterName := "c1";
     create_service.other_flags := {[ "region" := "us-east-1" ]};
     create_service.ocm_Build := Ok tt;
     create_service.ocm_Close := Ok tt;
     create_service.aws_FindRoleARNs := λ roleType _,
       Ok [role_arn ("ManagedOpenShift-" +:+
                     aws.AccountRole_Name (AccountRoles roleType) +:+ "-Role")];
     create_service.range_AccountRoles := all_roles;
     create_service.output_HasFlag := false;
     create_service.reporter_IsTerminal := true;
     create_service.aws_GetCreator :=
       Ok {| aws.Creator_AccountID := "123456789012" |};
     create_service.ocm_RandomLabel := λ _, "x7k2";
     create_service.aws_ValidateRoleNameAvailable := λ _, Ok tt;
     create_service.aws_GetRegion := λ _, Ok "us-east-1";
     create_service.ocm_GetAddOn := λ _,
       (Some {| cmv1.AddOn_parameters := None |}, None);
     create_service.ocm_CreateManagedService := λ args,
       Ok {| msv1.ID := "1"; msv1.Service := ocm.ServiceName args;
             msv1.ServiceState := "pending" |} |}.

(** [world] with other answers to the role lookups, in another order. *)
Definition with_roles (find : aws.RoleType → result (list string))
    (order : list aws.RoleType) (w : create_service.World)
  : create_service.World :=
  {| create_service.flag_service := create_service.flag_service w;
     create_service.flag_clusterName := create_service.flag_clusterName w;
     create_service.other_flags := create_service.other_flags w;
     create_service.ocm_Build := create_service.ocm_Build w;
     create_service.ocm_Close := create_service.ocm_Close w;
     create_service.aws_FindRoleARNs := λ roleType _, find roleType;
     create_service.range_AccountRoles := order;
     create_service.output_HasFlag := create_service.output_HasFlag w;
     create_service.reporter_IsTerminal := create_service.reporter_IsTerminal w;
     create_service.aws_GetCreator := create_service.aws_GetCreator w;
     create_service.ocm_RandomLabel := create_service.ocm_RandomLabel w;
     create_service.aws_ValidateRoleNameAvailable :=
       create_service.aws_ValidateRoleNameAvailable w;
     create_service.aws_GetRegion := create_service.aws_GetRegion w;
     create_service.ocm_GetAddOn := create_service.ocm_GetAddOn w;
     create_service.ocm_CreateManagedService :=
       create_service.ocm_CreateManagedService w |}.

(** [world] with another answer to the add-on lookup. *)
Definition with_addon (addon : option cmv1.AddOn * option string)
    (w : create_service.World) : create_service.World :=
  {| create_service.flag_service := create_service.flag_service w;
     create_service.flag_clusterName := create_service.flag_clusterName w;
     create_service.other_flags := create_service.other_flags w;
     create_service.ocm_Build := create_service.ocm_Build w;
     create_service.ocm_Close := create_service.ocm_Close w;
     create_service.aws_FindRoleARNs := create_service.aws_FindRoleARNs w;
     create_service.range_AccountRoles := create_service.range_AccountRoles w;
     create_service.output_HasFlag := create_service.output_HasFlag w;
     create_service.reporter_IsTerminal := create_service.reporter_IsTerminal w;
     create_service.aws_GetCreator := create_service.aws_GetCreator w;
     create_service.ocm_RandomLabel := create_service.ocm_RandomLabel w;
     create_service.aws_ValidateRoleNameAvailable :=
       create_service.aws_ValidateRoleNameAvailable w;
     create_service.aws_GetRegion := create_service.aws_GetRegion w;
     create_service.ocm_GetAddOn := λ _, addon;
     create_service.ocm_CreateManagedService :=
       create_service.ocm_CreateManagedService w |}.

(** [world] with another output flag and another kind of reporter. *)
Definition with_output (hasFlag isTerminal : bool)
    (w : create_service.World) : create_service.World :=
  {| create_service.flag_service := create_service.flag_service w;
     create_service.flag_clusterName := create_service.flag_clusterName w;
     create_service.other_flags := create_service.other_flags w;
     create_service.ocm_Build := create_service.ocm_Build w;
     create_service.ocm_Close := create_service.ocm_Close w;
     create_service.aws_FindRoleARNs := create_service.aws_FindRoleARNs w;
     create_service.range_AccountRoles := create_service.range_AccountRoles w;
     create_service.output_HasFlag := hasFlag;
     create_service.reporter_IsTerminal := isTerminal;
     create_service.aws_GetCreator := create_service.aws_GetCreator w;
     create_service.ocm_RandomLabel := create_service.ocm_RandomLabel w;
     create_service.aws_ValidateRoleNameAvailable :=
       create_service.aws_ValidateRoleNameAvailable w;
     create_service.aws_GetRegion := create_service.aws_GetRegion w;
     create_service.ocm_GetAddOn := create_service.ocm_GetAddOn w;
     create_service.ocm_CreateManagedService :=
       create_service.ocm_CreateManagedService w |}.

(** [world] with other answers on the availability of role names and to
    the create request. *)
Definition with_answers (available : string → result unit)
    (create : ocm.CreateManagedServiceArgs → result msv1.ManagedService)
    (w : create_service.World) : create_service.World :=
  {| create_service.flag_service := create_service.flag_service w;
     create_service.flag_clusterName := create_service.flag_clusterName w;
     create_service.other_flags := create_service.other_flags w;
     create_service.ocm_Build := create_service.ocm_Build w;
     create_service.ocm_Close := create_service.ocm_Close w;
     create_service.aws_FindRoleARNs := create_service.aws_FindRoleARNs w;
     create_service.range_AccountRoles := create_service.range_AccountRoles w;
     create_service.output_HasFlag := create_service.output_HasFlag w;
     create_service.reporter_IsTerminal := create_service.reporter_IsTerminal w;
     create_service.aws_GetCreator := create_service.aws_GetCreator w;
     create_service.ocm_RandomLabel := create_service.ocm_RandomLabel w;
     create_service.aws_ValidateRoleNameAvailable := available;
     create_service.aws_GetRegion := create_service.aws_GetRegion w;
     create_service.ocm_GetAddOn := create_service.ocm_GetAddOn w;
     create_service.ocm_CreateManagedService := create |}.

(** The command on a world, with the sample declarations. *)
Definition invoke (w : create_service.World)
  : M ocm.CreateManagedServiceArgs :=
  create_service.Cmd_Run DefaultPrefix AccountRoles CredentialRequests
    GetVersionMinor CheckSupportedVersion arn_Parse w.

Definition services : list msv1.ManagedService :=
  [ {| msv1.ID := "1"; msv1.Service := "s1"; msv1.ServiceState := "ready" |};
    {| msv1.ID := "2"; msv1.Service := "s2";
       msv1.ServiceState := "pending" |} ].

Definition list_world (l : list msv1.ManagedService) : list_service.World :=
  {| list_service.ocm_Build := Ok tt;
     list_service.ocm_Close := Ok tt;
     list_service.ocm_ListManagedServices := λ _, Ok l |}.

End sample.

(** ** The vocabulary of the design document *)

(** [<prefix>-<namespace>-<name>], the role name of an operator before it
    is cut. *)
Definition operator_full_name (prefix : string) (operator : aws.Operator)
  : string :=
  prefix +:+ "-" +:+ aws.Operator_Namespace operator +:+ "-" +:+
  aws.Operator_Name operator.

(** The role name of an operator: at most its first 64 bytes. *)
Definition operator_role_name (prefix : string) (operator : aws.Operator)
  : string :=
  let full := operator_full_name prefix operator in
  if decide (64 < String.length full) then strings.slice_to 64 full else full.

(** What an operator adds to the operator role list when its version
    check does not fail: nothing when its minimum version is not met, one
    entry otherwise. *)
Definition planned_roles (GetVersionMinor : string → string)
    (CheckSupportedVersion : string → string → result bool)
    (prefix : string) (creator : aws.Creator) (operator : aws.Operator)
  : list ocm.OperatorIAMRole :=
  if decide (aws.Operator_MinVersion operator = EmptyString)
  then [create_service.operatorIAMRole prefix creator operator]
  else match CheckSupportedVersion (GetVersionMinor create_service.version)
               (aws.Operator_MinVersion operator) with
       | Ok true => [create_service.operatorIAMRole prefix creator operator]
       | _ => []
       end.

(** Every event of [m] satisfies [P]. *)
Definition only {A : Type} (P : event → Prop) (m : M A) : Prop :=
  Forall P (trace m).

Definition not_create (e : event) : Prop :=
  match e with CreateManagedService _ => False | _ => True end.

(** The variable that the loop over the account roles assigns for a
    role category. *)
Definition role_var (roleType : aws.RoleType) (v : create_service.RoleVars)
  : string :=
  match roleType with
  | aws.InstallerAccountRole => create_service.roleARN v
  | aws.SupportAccountRole => create_service.supportRoleARN v
  | aws.ControlPlaneAccountRole => create_service.controlPlaneRoleARN v
  | aws.WorkerAccountRole => create_service.workerRoleARN v
  end.

(** The ARNs that the lookup of a role category answers with; none when
    the lookup fails. *)
Definition found_roles (GetVersionMinor : string → string)
    (w : create_service.World) (roleType : aws.RoleType) : list string :=
  match create_service.aws_FindRoleARNs w roleType
          (GetVersionMinor create_service.version) with
  | Ok roleARNs => roleARNs
  | Err _ => []
  end.

(** The ARN that the loop over the account roles selects for a dependent
    role category: the last one found that embeds
    [<prefix>-<RoleName>-Role], the empty string when there is none. *)
Definition resolved_role (AccountRoles : aws.RoleType → aws.AccountRole)
    (GetVersionMinor : string → string) (w : create_service.World)
    (rolePrefix : string) (roleType : aws.RoleType) : string :=
  create_service.select_matching
    (create_service.role_pattern rolePrefix
       (create_service.role_Name AccountRoles roleType))
    (found_roles GetVersionMinor w roleType) EmptyString.

(** What the copy stores in a map that is allocated. *)
Definition copied (flags : gmap string string)
    (params : list cmv1.AddOnParameter) (m : gmap string string)
  : gmap string string :=
  foldl (λ m param,
           match flags !! cmv1.ID param with
           | Some value => <[cmv1.ID param := value]> m
           | None => m
           end) m params.

(** A piece of code that only leaves through [os.Exit] with status 1, and
    right after an error message. *)
Definition reported_exit {A : Type} (m : M A) : Prop :=
  ∀ c, outcome m = Exit c →
       c = 1 ∧ ∃ t msg, trace m = t ++ [Errorf msg].

(** The last message of a successful [create service]. *)
Definition followup_msg (clusterName : string) : string :=
  "Run the following commands to continue the cluster creation:"
  +:+ NL +:+ NL +:+
  TAB +:+ "rosa create operator-roles --cluster " +:+ clusterName +:+ NL +:+
  TAB +:+ "rosa create oidc-provider --cluster " +:+ clusterName +:+ NL.

(** What the deferred close adds to a trace. *)
Definition close_events (close : result unit) : list event :=
  Close :: match close with
           | Ok _ => []
           | Err e => [Errorf ("Failed to close OCM connection: " +:+ e)]
           end.

(** The role name that the validation loop takes out of a role ARN. *)
Definition validated_name (role : ocm.OperatorIAMRole) : option string :=
  strings.SplitN (ocm.RoleARN role) "/" 2 !! 1.

(** The names handed to [ValidateRoleNameAvailable], in order. *)
Definition validations (t : list event) : list string :=
  omap (λ e, match e with
             | ValidateRoleNameAvailable name => Some name
             | _ => None
             end) t.

(** The events of [create service] between the registration of the
    deferred close and the return. *)
Definition body_event (e : event) : Prop :=
  match e with
  | Build | Close | ListManagedServices _ | Fprintf _ | Flush => False
  | _ => True
  end.

Definition not_info (e : event) : Prop :=
  match e with Infof _ => False | _ => True end.

Definition not_lookup (e : event) : Prop :=
  match e with FindRoleARNs _ _ => False | _ => True end.

Definition not_validation (e : event) : Prop :=
  match e with ValidateRoleNameAvailable _ => False | _ => True end.

(** The calls to the outside, in order: what is left of a trace without
    the messages of the reporter. *)
Definition calls (t : list event) : list event :=
  filter (λ e, is_report e = false) t.

(** The same world, with the range over [aws.AccountRoles] yielding its
    keys in another order. *)
Definition with_range (order : list aws.RoleType) (w : create_service.World)
  : create_service.World :=
  {| create_service.flag_service := create_service.flag_service w;
     create_service.flag_clusterName := create_service.flag_clusterName w;
     create_service.other_flags := create_service.other_flags w;
     create_service.ocm_Build := create_service.ocm_Build w;
     create_service.ocm_Close := create_service.ocm_Close w;
     create_service.aws_FindRoleARNs := create_service.aws_FindRoleARNs w;
     create_service.range_AccountRoles := order;
     create_service.output_HasFlag := create_service.output_HasFlag w;
     create_service.reporter_IsTerminal := create_service.reporter_IsTerminal w;
     create_service.aws_GetCreator := create_service.aws_GetCreator w;
     create_service.ocm_RandomLabel := create_service.ocm_RandomLabel w;
     create_service.aws_ValidateRoleNameAvailable :=
       create_service.aws_ValidateRoleNameAvailable w;
     create_service.aws_GetRegion := create_service.aws_GetRegion w;
     create_service.ocm_GetAddOn := create_service.ocm_GetAddOn w;
     create_service.ocm_CreateManagedService :=
       create_service.ocm_CreateManagedService w |}.

(** ** Runs of the model *)

Section runs.

Example SplitN_first_slash :
  strings.SplitN "role/path/name" "/" 2 = ["role"; "path/name"].
Proof. reflexivity. Qed.

Example SplitN_no_slash : strings.SplitN "root" "/" 2 = ["root"].
Proof. reflexivity. Qed.

Example TrimSuffix_installer :
  strings.TrimSuffix "ManagedOpenShift-Installer-Role" "-Installer-Role"
  = "ManagedOpenShift".
Proof. reflexivity. Qed.

Example arn_Parse_role :
  sample.arn_Parse
    "arn:aws:iam::123456789012:role/ManagedOpenShift-Installer-Role"
  = Ok {| arn.Partition := "aws"; arn.Service := "iam";
          arn.Region := EmptyString; arn.AccountID := "123456789012";
          arn.Resource := "role/ManagedOpenShift-Installer-Role" |}.
Proof. reflexivity. Qed.

Example prefix_of_installer_role :
  create_service.getAccountRolePrefix sample.arn_Parse
    "arn:aws:iam::123456789012:role/ManagedOpenShift-Installer-Role"
    (sample.AccountRoles aws.InstallerAccountRole)
  = ([], Val (Ok "ManagedOpenShift")).
Proof. reflexivity. Qed.

(** An ARN whose resource holds no slash: the index 1 is out of range. *)
Example prefix_of_root :
  create_service.getAccountRolePrefix sample.arn_Parse
    "arn:aws:iam::123456789012:root"
    (sample.AccountRoles aws.InstallerAccountRole)
  = ([], Panic).
Proof. reflexivity. Qed.

(** 88 bytes of role name, cut to 64. *)
Example operator_role_arn_cut :
  create_service.getOperatorRoleArn "managed-service-cluster-x7k2"
    {| aws.Operator_Name := "cloud-credentials";
       aws.Operator_Namespace := "openshift-cloud-network-config-controller";
       aws.Operator_MinVersion := "4.10" |}
    {| aws.Creator_AccountID := "123456789012" |}
  = "arn:aws:iam::123456789012:role/managed-service-cluster-x7k2-openshift-cloud-network-config-cont".
Proof. reflexivity. Qed.

Example list_no_service :
  list_service.run (sample.list_world [])
  = ([Build; ListManagedServices 1000; Fprintf list_service.header; Flush;
      Close], Val tt).
Proof. reflexivity. Qed.

(** The sample world: four lookups, one operator role, one request. *)
Example sample_lookups :
  lookups (trace (sample.invoke sample.world)) = all_roles.
Proof. by vm_compute. Qed.

Example sample_request :
  ocm.AwsOperatorIamRoleList <$> created (trace (sample.invoke sample.world))
  = [ [ {| ocm.Name := "cloud-credentials";
           ocm.Namespace := "openshift-machine-api";
           ocm.RoleARN :=
             "arn:aws:iam::123456789012:role/c1-x7k2-openshift-machine-api-cloud-credentials" |} ] ].
Proof. by vm_compute. Qed.

End runs.

(** ** Facts about the string functions *)

Section string_facts.

Lemma append_empty_r (s : string) : s +:+ EmptyString = s.
Proof. induction s as [|c s IH]; simpl; [done | by rewrite IH]. Qed.

Lemma append_assoc (a b c : string) : (a +:+ b) +:+ c = a +:+ (b +:+ c).
Proof. induction a as [|x a IH]; simpl; [done | by rewrite IH]. Qed.

Lemma length_append (a b : string) :
  String.length (a +:+ b) = String.length a + String.length b.
Proof. induction a as [|x a IH]; simpl; [done | by rewrite IH]. Qed.

Lemma prefix_append (p r : string) : String.prefix p (p +:+ r) = true.
Proof.
  induction p as [|c p IH]; simpl; [by destruct r |].
  destruct (ascii_dec c c); [done | congruence].
Qed.

Lemma prefix_inv (p s : string) :
  String.prefix p s = true → ∃ r, s = p +:+ r.
Proof.
  revert s. induction p as [|c p IH]; intros s H.
  - by exists s.
  - destruct s as [|d s]; simpl in H; [done |].
    destruct (ascii_dec c d) as [->|]; [| done].
    destruct (IH _ H) as [r ->]. by exists r.
Qed.

Lemma prefix_spec (p s : string) :
  String.prefix p s = true ↔ ∃ r, s = p +:+ r.
Proof.
  split; [apply prefix_inv |]. intros [r ->]. apply prefix_append.
Qed.

Lemma slice_to_append (a b : string) :
  strings.slice_to (String.length a) (a +:+ b) = a.
Proof.
  unfold strings.slice_to.
  induction a as [|x a IH]; simpl; [by destruct b | by rewrite IH].
Qed.

Lemma substring_drop (a b : string) (m : nat) :
  String.substring (String.length a) m (a +:+ b) = String.substring 0 m b.
Proof. induction a as [|x a IH]; simpl; done. Qed.

Lemma substring_all (s : string) :
  String.substring 0 (String.length s) s = s.
Proof. induction s as [|c s IH]; simpl; [done | by rewrite IH]. Qed.

Lemma slice_from_append (a b : string) :
  strings.slice_from (String.length a) (a +:+ b) = b.
Proof.
  unfold strings.slice_from. rewrite length_append, substring_drop.
  replace (String.length a + String.length b - String.length a)
    with (String.length b) by lia.
  apply substring_all.
Qed.

Lemma slice_to_from (n : nat) (s : string) :
  n ≤ String.length s →
  strings.slice_to n s +:+ strings.slice_from n s = s.
Proof.
  unfold strings.slice_to, strings.slice_from.
  revert n. induction s as [|c s IH]; intros [|n] Hn; simpl in *;
    try done; try lia.
  - by rewrite substring_all.
  - rewrite IH; [done | lia].
Qed.

Lemma length_slice_to (n : nat) (s : string) :
  n ≤ String.length s → String.length (strings.slice_to n s) = n.
Proof.
  unfold strings.slice_to.
  revert n. induction s as [|c s IH]; intros [|n] Hn; simpl in *;
    try done; try lia.
  rewrite IH; [done | lia].
Qed.

(** [HasSuffix] holds exactly of the strings that end in the suffix. *)
Lemma HasSuffix_spec (s suffix : string) :
  strings.HasSuffix s suffix = true ↔ ∃ a, s = a +:+ suffix.
Proof.
  unfold strings.HasSuffix. rewrite andb_true_iff, Nat.leb_le, String.eqb_eq.
  split.
  - intros [Hle Heq].
    exists (strings.slice_to (String.length s - String.length suffix) s).
    rewrite <- (slice_to_from (String.length s - String.length suffix) s)
      at 1 by lia.
    by f_equal.
  - intros [a ->]. rewrite length_append. split; [lia |].
    replace (String.length a + String.length suffix - String.length suffix)
      with (String.length a) by lia.
    apply slice_from_append.
Qed.

Lemma TrimSuffix_append (a suffix : string) :
  strings.TrimSuffix (a +:+ suffix) suffix = a.
Proof.
  unfold strings.TrimSuffix.
  assert (strings.HasSuffix (a +:+ suffix) suffix = true) as ->
    by (apply HasSuffix_spec; eauto).
  rewrite length_append.
  replace (String.length a + String.length suffix - String.length suffix)
    with (String.length a) by lia.
  apply slice_to_append.
Qed.

Lemma TrimSuffix_other (s suffix : string) :
  strings.HasSuffix s suffix = false → strings.TrimSuffix s suffix = s.
Proof. unfold strings.TrimSuffix. by intros ->. Qed.

Lemma Index_unfold (s substr : string) :
  strings.Index s substr =
    if String.prefix substr s then Some 0
    else match s with
         | EmptyString => None
         | String _ s' => S <$> strings.Index s' substr
         end.
Proof. by destruct s. Qed.

(** [Index] returns the offset of an occurrence. *)
Lemma Index_Some (s substr : string) (m : nat) :
  strings.Index s substr = Some m →
  ∃ a b, s = a +:+ substr +:+ b ∧ String.length a = m.
Proof.
  revert m. induction s as [|c s IH]; intros m; rewrite Index_unfold;
    destruct (String.prefix substr _) eqn:Hp.
  - intros [= <-]. apply prefix_inv in Hp as [r Hr].
    by exists EmptyString, r.
  - done.
  - intros [= <-]. apply prefix_inv in Hp as [r Hr].
    by exists EmptyString, r.
  - destruct (strings.Index s substr) as [k|] eqn:Hk; [| done].
    intros [= <-]. destruct (IH k eq_refl) as (a & b & -> & <-).
    by exists (String c a), b.
Qed.

Lemma Index_append (a substr b : string) :
  is_Some (strings.Index (a +:+ substr +:+ b) substr).
Proof.
  induction a as [|c a IH]; rewrite Index_unfold.
  - simpl. by rewrite prefix_append.
  - destruct (String.prefix substr _); [done |].
    simpl. destruct IH as [k ->]. by eexists.
Qed.

(** [Contains s substr] says that [substr] is embedded in [s]. *)
Lemma Contains_spec (s substr : string) :
  strings.Contains s substr = true ↔ ∃ a b, s = a +:+ substr +:+ b.
Proof.
  unfold strings.Contains. rewrite bool_decide_eq_true. split.
  - intros [m Hm]. apply Index_Some in Hm as (a & b & ? & _). eauto.
  - intros (a & b & ->). apply Index_append.
Qed.

End string_facts.

Section split_facts.

Lemma prefix_byte_cons (c d : ascii) (s : string) :
  String.prefix (String c EmptyString) (String d s) = bool_decide (c = d).
Proof.
  simpl. destruct (ascii_dec c d).
  - rewrite bool_decide_eq_true_2 by done. by destruct s.
  - by rewrite bool_decide_eq_false_2.
Qed.

(** A one-byte separator that does not occur in [a] is first found right
    after [a]. *)
Lemma Index_byte_append (a b : string) (c : ascii) :
  strings.Index a (String c EmptyString) = None →
  strings.Index (a +:+ String c b) (String c EmptyString)
  = Some (String.length a).
Proof.
  induction a as [|d a IH];
    rewrite (Index_unfold (_ +:+ _)), (Index_unfold (_ : string)).
  - intros _. simpl String.append. rewrite prefix_byte_cons.
    by rewrite bool_decide_eq_true_2.
  - simpl String.append. rewrite !prefix_byte_cons.
    case_bool_decide; [done |].
    destruct (strings.Index a _) eqn:E; simpl; [done |]. intros _.
    by rewrite IH.
Qed.

Lemma SplitN_2_found (a b : string) (c : ascii) :
  strings.Index a (String c EmptyString) = None →
  strings.SplitN (a +:+ String c b) (String c EmptyString) 2 = [a; b].
Proof.
  intros H. simpl. rewrite (Index_byte_append _ _ _ H).
  rewrite slice_to_append. simpl String.length.
  replace (String.length a + 1)
    with (String.length (a +:+ String c EmptyString))
    by (rewrite length_append; simpl; lia).
  replace (a +:+ String c b) with ((a +:+ String c EmptyString) +:+ b)
    by (by rewrite append_assoc).
  by rewrite slice_from_append.
Qed.

Lemma SplitN_2_absent (s sep : string) :
  strings.Index s sep = None → strings.SplitN s sep 2 = [s].
Proof. intros H. simpl. by rewrite H. Qed.

Lemma SplitN_2_length (s sep : string) :
  length (strings.SplitN s sep 2) = if strings.Contains s sep then 2 else 1.
Proof.
  unfold strings.Contains. simpl.
  destruct (strings.Index s sep) as [m|] eqn:E.
  - by rewrite bool_decide_eq_true_2.
  - rewrite bool_decide_eq_false_2; [done |]. by intros [? ?].
Qed.

End split_facts.

(** ** Reasoning about traces and outcomes *)

Section monad_facts.

Context {A B : Type}.

Lemma bind_trace (m : M A) (f : A → M B) :
  trace (m ≫= f) =
    trace m ++ match outcome m with Val a => trace (f a) | _ => [] end.
Proof.
  destruct m as [t [a|c|]]; unfold trace, outcome, mbind, M_bind; simpl;
    by rewrite ?app_nil_r.
Qed.

Lemma bind_outcome (m : M A) (f : A → M B) :
  outcome (m ≫= f) =
    match outcome m with
    | Val a => outcome (f a)
    | Exit c => Exit c
    | Panic => Panic
    end.
Proof. by destruct m as [t [a|c|]]. Qed.

Lemma bind_val (t : list event) (a : A) (f : A → M B) :
  (t, Val a) ≫= f = after t (f a).
Proof. done. Qed.

Lemma bind_exit (t : list event) (c : nat) (f : A → M B) :
  (t, Exit c) ≫= f = (t, Exit c).
Proof. done. Qed.

Lemma bind_panic (t : list event) (f : A → M B) :
  (t, Panic) ≫= f = (t, Panic).
Proof. done. Qed.

Lemma ret_bind (a : A) (f : A → M B) : mret a ≫= f = f a.
Proof.
  by destruct (f a) eqn:E; unfold mret, M_ret, mbind, M_bind; simpl;
    rewrite E.
Qed.

Lemma emit_bind (e : event) (f : unit → M B) :
  emit e ≫= f = after [e] (f tt).
Proof. done. Qed.

Lemma after_bind (t : list event) (m : M A) (f : A → M B) :
  after t m ≫= f = after t (m ≫= f).
Proof.
  destruct m as [t' [a|c|]]; unfold after, trace, outcome, mbind, M_bind;
    simpl; by rewrite ?(assoc_L (++)).
Qed.

Lemma after_after (t t' : list event) (m : M A) :
  after t (after t' m) = after (t ++ t') m.
Proof. unfold after, trace, outcome. simpl. by rewrite (assoc_L (++)). Qed.

Lemma after_pair (t t' : list event) (r : res A) :
  after t (t', r) = (t ++ t', r).
Proof. done. Qed.

Lemma after_ret (t : list event) (a : A) : after t (mret a) = (t, Val a).
Proof. unfold after, trace, outcome. simpl. by rewrite app_nil_r. Qed.

Lemma exit_bind (c : nat) (f : A → M B) : os_Exit c ≫= f = os_Exit c.
Proof. done. Qed.

Lemma panic_bind (f : A → M B) : panic ≫= f = panic.
Proof. done. Qed.

Lemma after_exit (t : list event) (c : nat) :
  after t (os_Exit (A := A) c) = (t, Exit c).
Proof. unfold after, trace, outcome. simpl. by rewrite app_nil_r. Qed.

Lemma after_panic (t : list event) : after t (panic (A := A)) = (t, Panic).
Proof. unfold after, trace, outcome. simpl. by rewrite app_nil_r. Qed.

Lemma after_nil (m : M A) : after [] m = m.
Proof. by destruct m. Qed.

Lemma trace_after (t : list event) (m : M A) :
  trace (after t m) = t ++ trace m.
Proof. done. Qed.

Lemma outcome_after (t : list event) (m : M A) :
  outcome (after t m) = outcome m.
Proof. done. Qed.

Lemma M_eta (m : M A) : m = (trace m, outcome m).
Proof. by destruct m. Qed.

End monad_facts.

(** One step of a run: the first statement of a sequence is executed. *)
Ltac step :=
  match goal with
  | |- context [ (?t, Val ?a) ≫= ?f ] => rewrite (bind_val t a f)
  | |- context [ (?t, Exit ?c) ≫= ?f ] => rewrite (bind_exit t c f)
  | |- context [ (?t, Panic) ≫= ?f ] => rewrite (bind_panic t f)
  | |- context [ emit ?e ≫= ?f ] => rewrite (emit_bind e f)
  | |- context [ mret ?a ≫= ?f ] => rewrite (ret_bind a f)
  | |- context [ after ?t ?m ≫= ?f ] => rewrite (after_bind t m f)
  | |- context [ after ?t (after ?t' ?m) ] => rewrite (after_after t t' m)
  | |- context [ after ?t (?t', ?r) ] => rewrite (after_pair t t' r)
  | |- context [ after ?t (mret ?a) ] => rewrite (after_ret t a)
  | |- context [ os_Exit ?c ≫= ?f ] => rewrite (exit_bind c f)
  | |- context [ panic ≫= ?f ] => rewrite (panic_bind f)
  | |- context [ after ?t (os_Exit ?c) ] => rewrite (after_exit t c)
  | |- context [ after ?t panic ] => rewrite (after_panic t)
  end; cbv beta.

Ltac steps := repeat step.

Lemma or_exit_Ok {A : Type} (call : event) (a : A) (msg : string → string) :
  or_exit call (Ok a) msg = ([call], Val a).
Proof. done. Qed.

Lemma or_exit_Err {A : Type} (call : event) (e : string)
    (msg : string → string) :
  or_exit (A := A) call (Err e) msg = ([call; Errorf (msg e)], Exit 1).
Proof. done. Qed.

Lemma for_range_nil {A S : Type} (body : A → S → M S) (s : S) :
  for_range [] body s = ([], Val s).
Proof. done. Qed.

Lemma for_range_cons {A S : Type} (x : A) (l : list A) (body : A → S → M S)
    (s : S) :
  for_range (x :: l) body s = body x s ≫= for_range l body.
Proof. done. Qed.

Lemma with_defer_val {A : Type} (t : list event) (a : A) (d : M unit) :
  with_defer (t, Val a) d = (t ++ trace d, Val a).
Proof. done. Qed.

Lemma with_defer_exit {A : Type} (t : list event) (c : nat) (d : M unit) :
  with_defer (A := A) (t, Exit c) d = (t, Exit c).
Proof. done. Qed.

Lemma with_defer_panic {A : Type} (t : list event) (d : M unit) :
  with_defer (A := A) (t, Panic) d = (t ++ trace d, Panic).
Proof. done. Qed.

Lemma close_connection_trace {W : Type} (close : W → result unit) (w : W) :
  trace (close_connection close w)
  = Close :: match close w with
             | Ok _ => []
             | Err e => [Errorf ("Failed to close OCM connection: " +:+ e)]
             end.
Proof. unfold close_connection. by destruct (close w). Qed.

(** ** The list command *)

Section list_facts.

Lemma print_rows (l : list msv1.ManagedService) :
  for_range l (λ srv _, emit (Fprintf (list_service.row srv))) tt
  = ((λ srv, Fprintf (list_service.row srv)) <$> l, Val tt).
Proof.
  induction l as [|srv l IH]; [done |].
  rewrite for_range_cons, emit_bind, IH. done.
Qed.

Lemma no_report_rows (l : list msv1.ManagedService) :
  filter is_report ((λ srv, Fprintf (list_service.row srv)) <$> l) = [].
Proof.
  induction l as [|srv l IH]; [done |].
  rewrite fmap_cons, filter_cons_False by (simpl; tauto). exact IH.
Qed.

(** C9. The list command asks once, for at most 1000 records.  When the
    connection and the call succeed it hands to the tab writer the header
    [ID<tab>SERVICE<tab>STATE<newline>] and then, in the order returned, one
    row [id<tab>service<tab>state<newline>] per record, flushes, and leaves
    with status zero; it reports nothing unless closing the connection
    fails.  With no record, the header is all that is written. *)
Theorem C9_list_services (w : list_service.World)
    (l : list msv1.ManagedService) :
  list_service.ocm_Build w = Ok tt →
  list_service.ocm_ListManagedServices w 1000 = Ok l →
  list_service.run w
  = ([Build; ListManagedServices 1000]
       ++ Fprintf ("ID" +:+ TAB +:+ "SERVICE" +:+ TAB +:+ "STATE" +:+ NL)
       :: ((λ srv, Fprintf (msv1.ID srv +:+ TAB +:+ msv1.Service srv +:+ TAB
                            +:+ msv1.ServiceState srv +:+ NL)) <$> l)
       ++ [Flush; Close]
       ++ match list_service.ocm_Close w with
          | Ok _ => []
          | Err e => [Errorf ("Failed to close OCM connection: " +:+ e)]
          end,
     Val tt)
  ∧ (l = [] → written (trace (list_service.run w)) = [list_service.header])
  ∧ (list_service.ocm_Close w = Ok tt →
     filter is_report (trace (list_service.run w)) = []).
Proof.
  intros HB HL.
  assert (list_service.run w
          = ([Build; ListManagedServices 1000]
               ++ Fprintf list_service.header
               :: ((λ srv, Fprintf (list_service.row srv)) <$> l)
               ++ [Flush; Close]
               ++ match list_service.ocm_Close w with
                  | Ok _ => []
                  | Err e => [Errorf ("Failed to close OCM connection: " +:+ e)]
                  end,
              Val tt)) as Hrun.
  { unfold list_service.run, list_service.run_body.
    rewrite HB, HL, !or_exit_Ok. steps. rewrite print_rows. steps.
    unfold emit. steps.
    rewrite with_defer_val, close_connection_trace. steps.
    by rewrite <- !(assoc_L (++)). }
  split; [exact Hrun |]. rewrite Hrun. unfold trace. split.
  - intros ->. simpl. by destruct (list_service.ocm_Close w).
  - intros ->. cbn [app fst].
    rewrite !filter_cons_False by (simpl; tauto).
    rewrite filter_app, no_report_rows. done.
Qed.

(** The hypotheses of C9 hold of a world with two records. *)
Lemma C9_list_services_witness :
  written (trace (list_service.run (sample.list_world sample.services)))
  = [ "ID" +:+ TAB +:+ "SERVICE" +:+ TAB +:+ "STATE" +:+ NL;
      "1" +:+ TAB +:+ "s1" +:+ TAB +:+ "ready" +:+ NL;
      "2" +:+ TAB +:+ "s2" +:+ TAB +:+ "pending" +:+ NL ].
Proof.
  destruct (C9_list_services (sample.list_world sample.services)
              sample.services) as [H _]; [reflexivity | reflexivity |].
  rewrite H. reflexivity.
Defined.

End list_facts.

(** ** The operator role planner *)

Section split_bounds.

Lemma Index_le (a sep b : string) (m : nat) :
  strings.Index (a +:+ sep +:+ b) sep = Some m → m ≤ String.length a.
Proof.
  revert m. induction a as [|c a IH]; intros m; rewrite Index_unfold.
  - simpl String.append. rewrite prefix_append. intros [= <-]. done.
  - destruct (String.prefix sep _); [intros [= <-]; simpl; lia |].
    simpl String.append. cbv iota.
    destruct (strings.Index (a +:+ sep +:+ b) sep) as [k|] eqn:E;
      cbn [fmap option_fmap option_map]; [| done].
    intros [= <-]. specialize (IH k eq_refl). simpl. lia.
Qed.

Lemma Index_byte_None_append (a b : string) (c : ascii) :
  strings.Index a (String c EmptyString) = None →
  strings.Index b (String c EmptyString) = None →
  strings.Index (a +:+ b) (String c EmptyString) = None.
Proof.
  intros Ha Hb. induction a as [|d a IH]; [done |].
  rewrite Index_unfold in Ha. simpl String.append. rewrite Index_unfold.
  rewrite prefix_byte_cons in *. case_bool_decide; [done |].
  destruct (strings.Index a _) eqn:E; [done |]. by rewrite IH.
Qed.

Lemma length_slice_from (n : nat) (s : string) :
  n ≤ String.length s →
  String.length (strings.slice_from n s) = String.length s - n.
Proof.
  intros Hn. pose proof (slice_to_from n s Hn) as H.
  apply (f_equal String.length) in H.
  rewrite length_append, length_slice_to in H by done. lia.
Qed.

Lemma SplitN_2 (s sep : string) :
  strings.SplitN s sep 2 =
    match strings.Index s sep with
    | None => [s]
    | Some m =>
        [strings.slice_to m s; strings.slice_from (m + String.length sep) s]
    end.
Proof. done. Qed.

(** Splitting [x/name] at the first slash: two pieces, and the second one
    holds at least the bytes of [name]. *)
Lemma SplitN_slash (x name : string) :
  ∃ before rest,
    strings.SplitN (x +:+ "/" +:+ name) "/" 2 = [before; rest] ∧
    String.length name ≤ String.length rest.
Proof.
  destruct (Index_append x "/" name) as [m Hm].
  pose proof (Index_le _ _ _ _ Hm) as Hle.
  eexists _, _. rewrite SplitN_2, Hm. split; [done |].
  rewrite length_slice_from; rewrite !length_append; simpl; lia.
Qed.

End split_bounds.

Section operator_facts.

Variable CredentialRequests : list aws.Operator.
Variable GetVersionMinor : string → string.
Variable CheckSupportedVersion : string → string → result bool.

#[local] Abbreviation operatorRoles :=
  (create_service.operatorRoles CredentialRequests GetVersionMinor
     CheckSupportedVersion).
#[local] Abbreviation appendOperatorRole :=
  (create_service.appendOperatorRole GetVersionMinor CheckSupportedVersion).
#[local] Abbreviation planned :=
  (planned_roles GetVersionMinor CheckSupportedVersion).
#[local] Abbreviation meets := (λ operator : aws.Operator,
  CheckSupportedVersion (GetVersionMinor create_service.version)
    (aws.Operator_MinVersion operator)).

Lemma getOperatorRoleArn_eq (prefix : string) (operator : aws.Operator)
    (creator : aws.Creator) :
  create_service.getOperatorRoleArn prefix operator creator
  = "arn:aws:iam::" +:+ aws.Creator_AccountID creator +:+ ":role/" +:+
    operator_role_name prefix operator.
Proof.
  unfold create_service.getOperatorRoleArn, operator_role_name,
    operator_full_name.
  destruct (Nat.ltb_spec 64
              (String.length (prefix +:+ "-" +:+ aws.Operator_Namespace operator
                              +:+ "-" +:+ aws.Operator_Name operator)));
    case_decide; done || lia.
Qed.

Lemma role_name_length (prefix : string) (operator : aws.Operator) :
  String.length (operator_role_name prefix operator)
  = String.length (operator_full_name prefix operator) `min` 64.
Proof.
  unfold operator_role_name. case_decide.
  - rewrite length_slice_to; lia.
  - lia.
Qed.

Lemma full_role_name_length (prefix : string) (operator : aws.Operator) :
  2 ≤ String.length (operator_full_name prefix operator).
Proof. unfold operator_full_name. rewrite !length_append. simpl. lia. Qed.

Lemma appendOperatorRole_cases (prefix : string) (creator : aws.Creator)
    (operator : aws.Operator) (acc : list ocm.OperatorIAMRole) :
  appendOperatorRole prefix creator operator acc
  = ([], Val (acc ++ planned prefix creator operator))
  ∨ aws.Operator_MinVersion operator ≠ EmptyString ∧
    (∃ e, meets operator = Err e) ∧
    ∃ t, appendOperatorRole prefix creator operator acc = (t, Exit 1).
Proof.
  unfold create_service.appendOperatorRole, planned_roles.
  destruct (String.eqb_spec (aws.Operator_MinVersion operator) EmptyString)
    as [Hv|Hv].
  - left. by rewrite decide_True.
  - rewrite decide_False by done.
    destruct (CheckSupportedVersion _ _) as [[|]|e] eqn:E; simpl.
    + by left.
    + left. by rewrite app_nil_r.
    + right. eauto.
Qed.

Lemma operator_loop_val (prefix : string) (creator : aws.Creator)
    (ops : list aws.Operator) (acc l : list ocm.OperatorIAMRole) :
  outcome (for_range ops (appendOperatorRole prefix creator) acc) = Val l →
  l = acc ++ concat (planned prefix creator <$> ops).
Proof.
  revert acc. induction ops as [|op ops IH]; intros acc.
  - simpl. intros [= <-]. by rewrite app_nil_r.
  - rewrite for_range_cons.
    destruct (appendOperatorRole_cases prefix creator op acc)
      as [->|(_ & _ & t & ->)]; [| done].
    step. rewrite outcome_after. intros H%IH.
    by rewrite H, fmap_cons, concat_cons, (assoc_L (++)).
Qed.

Lemma operator_loop_total (prefix : string) (creator : aws.Creator)
    (ops : list aws.Operator) (acc : list ocm.OperatorIAMRole) :
  (∀ op, op ∈ ops → aws.Operator_MinVersion op ≠ EmptyString →
         ∃ b, meets op = Ok b) →
  for_range ops (appendOperatorRole prefix creator) acc
  = ([], Val (acc ++ concat (planned prefix creator <$> ops))).
Proof.
  revert acc. induction ops as [|op ops IH]; intros acc Hok.
  - simpl. by rewrite app_nil_r.
  - rewrite for_range_cons.
    destruct (appendOperatorRole_cases prefix creator op acc)
      as [->|(Hv & [e He] & _)].
    + step. rewrite IH, after_nil.
      * by rewrite fmap_cons, concat_cons, (assoc_L (++)).
      * intros op' Hin. apply Hok. by right.
    + destruct (Hok op) as [b Hb]; [by left | done |]. congruence.
Qed.

(** C7. An operator whose minimum version is not empty and is not met by
    the minor version of the cluster adds nothing to the operator role
    list; an operator that declares no minimum version, or whose minimum
    version is met, adds one entry with its name and its namespace.  When
    no version check fails, the list is made of what each required
    operator adds, in order. *)
Theorem C7_version_gating (prefix : string) (creator : aws.Creator) :
  (∀ op operatorIAMRoleList,
     (aws.Operator_MinVersion op ≠ EmptyString →
      CheckSupportedVersion (GetVersionMinor create_service.version)
        (aws.Operator_MinVersion op) = Ok false →
      appendOperatorRole prefix creator op operatorIAMRoleList
      = ([], Val operatorIAMRoleList))
     ∧ (aws.Operator_MinVersion op = EmptyString ∨
        CheckSupportedVersion (GetVersionMinor create_service.version)
          (aws.Operator_MinVersion op) = Ok true →
        appendOperatorRole prefix creator op operatorIAMRoleList
        = ([], Val (operatorIAMRoleList ++
                    [ {| ocm.Name := aws.Operator_Name op;
                         ocm.Namespace := aws.Operator_Namespace op;
                         ocm.RoleARN :=
                           create_service.getOperatorRoleArn prefix op
                             creator |} ]))))
  ∧ ((∀ op, op ∈ CredentialRequests →
            aws.Operator_MinVersion op ≠ EmptyString →
            ∃ b, CheckSupportedVersion
                   (GetVersionMinor create_service.version)
                   (aws.Operator_MinVersion op) = Ok b) →
     ∃ adds : aws.Operator → list ocm.OperatorIAMRole,
       operatorRoles prefix creator
       = ([], Val (concat (adds <$> CredentialRequests)))
       ∧ ∀ op,
           (aws.Operator_MinVersion op ≠ EmptyString →
            CheckSupportedVersion (GetVersionMinor create_service.version)
              (aws.Operator_MinVersion op) = Ok false →
            adds op = [])
           ∧ (aws.Operator_MinVersion op = EmptyString ∨
              CheckSupportedVersion (GetVersionMinor create_service.version)
                (aws.Operator_MinVersion op) = Ok true →
              adds op =
                [ {| ocm.Name := aws.Operator_Name op;
                     ocm.Namespace := aws.Operator_Namespace op;
                     ocm.RoleARN :=
                       create_service.getOperatorRoleArn prefix op
                         creator |} ])).
Proof.
  split.
  - intros op acc. unfold create_service.appendOperatorRole. split.
    + intros Hv%String.eqb_neq Hm. by rewrite Hv, Hm.
    + intros [Hv|Hm].
      * by rewrite Hv.
      * destruct (String.eqb _ _); [done |]. by rewrite Hm.
  - intros Hok. exists (planned prefix creator). split.
    + unfold create_service.operatorRoles.
      by rewrite operator_loop_total.
    + intros op. unfold planned_roles. split.
      * intros Hv Hm. by rewrite decide_False, Hm.
      * intros [Hv|Hm].
        -- by rewrite decide_True.
        -- case_decide; [done |]. by rewrite Hm.
Qed.

(** C6. The operator role ARN is [arn:aws:iam::<account-id>:role/] followed
    by the role name; the role name is [<prefix>-<namespace>-<name>] when
    that has at most 64 bytes and its first 64 bytes when it is longer. *)
Theorem C6_operator_role_arn (prefix : string) (operator : aws.Operator)
    (creator : aws.Creator) :
  let full :=
    prefix +:+ "-" +:+ aws.Operator_Namespace operator +:+ "-" +:+
    aws.Operator_Name operator in
  ∃ role,
    create_service.getOperatorRoleArn prefix operator creator
    = "arn:aws:iam::" +:+ aws.Creator_AccountID creator +:+ ":role/" +:+ role
    ∧ role = (if decide (64 < String.length full)
              then String.substring 0 64 full else full)
    ∧ (∃ rest, full = role +:+ rest)
    ∧ String.length role = String.length full `min` 64.
Proof.
  intros full. exists (operator_role_name prefix operator).
  split; [apply getOperatorRoleArn_eq |].
  split; [done |]. split; [| apply role_name_length].
  unfold operator_role_name.
  change (operator_full_name prefix operator) with full.
  case_decide.
  - exists (strings.slice_from 64 full). symmetry. apply slice_to_from. lia.
  - exists EmptyString. by rewrite append_empty_r.
Qed.

Lemma elem_of_concat {A : Type} (x : A) (ls : list (list A)) :
  x ∈ concat ls → ∃ l, x ∈ l ∧ l ∈ ls.
Proof.
  induction ls as [|l ls IH]; simpl; [by intros ?%elem_of_nil |].
  rewrite elem_of_app. intros [H|H].
  - exists l. split; [done | by left].
  - destruct (IH H) as (l' & ? & ?). exists l'. split; [done | by right].
Qed.

Lemma planned_inv (prefix : string) (creator : aws.Creator)
    (operator : aws.Operator) (role : ocm.OperatorIAMRole) :
  role ∈ planned prefix creator operator →
  role = create_service.operatorIAMRole prefix creator operator.
Proof.
  unfold planned_roles. case_decide.
  - by intros ->%list_elem_of_singleton.
  - destruct (CheckSupportedVersion _ _) as [[|]|];
      [by intros ->%list_elem_of_singleton | by intros ?%elem_of_nil ..].
Qed.

Lemma operatorRoles_inv (prefix : string) (creator : aws.Creator)
    (l : list ocm.OperatorIAMRole) (role : ocm.OperatorIAMRole) :
  outcome (operatorRoles prefix creator) = Val l → role ∈ l →
  ∃ operator, operator ∈ CredentialRequests ∧
              role = create_service.operatorIAMRole prefix creator operator.
Proof.
  intros H%operator_loop_val Hin. rewrite H, app_nil_l in Hin.
  apply elem_of_concat in Hin as (ls & Hin & Hls).
  apply list_elem_of_fmap in Hls as (operator & -> & Hop).
  exists operator. split; [done |]. by apply planned_inv.
Qed.

Lemma no_slash_prefix (accountID : string) :
  strings.Contains accountID "/" = false →
  strings.Index ("arn:aws:iam::" +:+ accountID +:+ ":role") "/" = None.
Proof.
  intros H. unfold strings.Contains in H. apply bool_decide_eq_false in H.
  apply Index_byte_None_append; [done |].
  apply Index_byte_None_append; [| done].
  destruct (strings.Index accountID "/") eqn:E; [| done].
  destruct H. by eexists.
Qed.

Lemma validateRoleName_outcome (w : create_service.World)
    (role : ocm.OperatorIAMRole) :
  length (strings.SplitN (ocm.RoleARN role) "/" 2) = 2 →
  outcome (create_service.validateRoleName w role tt) ≠ Panic.
Proof.
  unfold create_service.validateRoleName. intros Hlen.
  destruct (strings.SplitN (ocm.RoleARN role) "/" 2) as [|a [|name [|]]];
    try done. unfold at_index. simpl lookup. cbv iota. rewrite ret_bind.
  by destruct (create_service.aws_ValidateRoleNameAvailable w name).
Qed.

Lemma validateRoleNames_no_panic (w : create_service.World)
    (l : list ocm.OperatorIAMRole) :
  (∀ role, role ∈ l →
           length (strings.SplitN (ocm.RoleARN role) "/" 2) = 2) →
  outcome (create_service.validateRoleNames w l) ≠ Panic.
Proof.
  unfold create_service.validateRoleNames.
  induction l as [|role l IH]; intros Hl; [done |].
  rewrite for_range_cons, bind_outcome.
  pose proof (validateRoleName_outcome w role (Hl role ltac:(by left))) as H.
  destruct (outcome (create_service.validateRoleName w role ()))
    as [[]|c|]; [| done..].
  apply IH. intros role' Hin. apply Hl. by right.
Qed.

(** C10. Every role ARN of the operator role list is that of a required
    operator; cut at its first slash it gives two pieces, and the second
    one is not empty, so that the element of index 1 that the validation
    takes exists and the validation never panics.  When the account
    identifier holds no slash, as an AWS account identifier does, the
    second piece is the role name of the operator, cut to 64 bytes. *)
Theorem C10_role_name_in_bounds (prefix : string) (creator : aws.Creator)
    (l : list ocm.OperatorIAMRole) :
  outcome (operatorRoles prefix creator) = Val l →
  (∀ role, role ∈ l →
     ∃ operator before name,
       operator ∈ CredentialRequests ∧
       ocm.RoleARN role
       = create_service.getOperatorRoleArn prefix operator creator ∧
       strings.Contains (ocm.RoleARN role) "/" = true ∧
       strings.SplitN (ocm.RoleARN role) "/" 2 = [before; name] ∧
       name ≠ EmptyString ∧
       (strings.Contains (aws.Creator_AccountID creator) "/" = false →
        name = operator_role_name prefix operator ∧
        before = "arn:aws:iam::" +:+ aws.Creator_AccountID creator +:+ ":role"))
  ∧ ∀ w, outcome (create_service.validateRoleNames w l) ≠ Panic.
Proof.
  intros Hl.
  assert (∀ role, role ∈ l →
     ∃ operator before name,
       operator ∈ CredentialRequests ∧
       ocm.RoleARN role
       = create_service.getOperatorRoleArn prefix operator creator ∧
       strings.Contains (ocm.RoleARN role) "/" = true ∧
       strings.SplitN (ocm.RoleARN role) "/" 2 = [before; name] ∧
       name ≠ EmptyString ∧
       (strings.Contains (aws.Creator_AccountID creator) "/" = false →
        name = operator_role_name prefix operator ∧
        before = "arn:aws:iam::" +:+ aws.Creator_AccountID creator +:+ ":role"))
    as Hroles.
  { intros role Hin.
    destruct (operatorRoles_inv _ _ _ _ Hl Hin) as (operator & Hop & ->).
    simpl ocm.RoleARN.
    set (x := "arn:aws:iam::" +:+ aws.Creator_AccountID creator +:+ ":role").
    assert (create_service.getOperatorRoleArn prefix operator creator
            = x +:+ "/" +:+ operator_role_name prefix operator) as Harn.
    { rewrite getOperatorRoleArn_eq. unfold x. by rewrite !append_assoc. }
    destruct (SplitN_slash x (operator_role_name prefix operator))
      as (before & name & Hsplit & Hlen).
    pose proof (role_name_length prefix operator) as Hrl.
    pose proof (full_role_name_length prefix operator) as Hfl.
    exists operator, before, name. rewrite Harn.
    split; [done |]. split; [done |].
    split.
    { apply Contains_spec. by exists x, (operator_role_name prefix operator). }
    split; [done |].
    split; [intros ->; simpl in Hlen; lia |].
    intros Hno%no_slash_prefix. fold x in Hno.
    pose proof (SplitN_2_found x (operator_role_name prefix operator) "/" Hno)
      as H.
    change (x +:+ String "/" (operator_role_name prefix operator))
      with (x +:+ "/" +:+ operator_role_name prefix operator) in H.
    split; congruence. }
  split; [exact Hroles |].
  intros w. apply validateRoleNames_no_panic. intros role Hin.
  destruct (Hroles role Hin) as (_ & before & name & _ & _ & _ & -> & _).
  done.
Qed.

End operator_facts.

(** The hypothesis of C7 holds of the sample declarations; at version 4.9
    the operator that asks for 4.10 is left out. *)
Lemma C7_version_gating_witness :
  create_service.operatorRoles sample.CredentialRequests
    sample.GetVersionMinor sample.CheckSupportedVersion "c1-x7k2"
    {| aws.Creator_AccountID := "123456789012" |}
  = ([], Val [ {| ocm.Name := "cloud-credentials";
                  ocm.Namespace := "openshift-machine-api";
                  ocm.RoleARN :=
                    "arn:aws:iam::123456789012:role/c1-x7k2-openshift-machine-api-cloud-credentials" |} ]).
Proof.
  destruct (C7_version_gating sample.CredentialRequests
              sample.GetVersionMinor sample.CheckSupportedVersion "c1-x7k2"
              {| aws.Creator_AccountID := "123456789012" |})
    as [_ Hlist].
  destruct Hlist as (adds & -> & Hadds).
  - intros op _ _. eexists. reflexivity.
  - unfold sample.CredentialRequests. rewrite !fmap_cons, fmap_nil.
    match goal with
    | |- context [ adds ?op1 :: adds ?op2 :: [] ] =>
        rewrite (proj2 (Hadds op1) (or_introl eq_refl)),
                (proj1 (Hadds op2) ltac:(done) eq_refl)
    end.
    reflexivity.
Defined.

(** The hypotheses of C10 hold of the sample declarations and account. *)
Lemma C10_role_name_in_bounds_witness :
  outcome (create_service.validateRoleNames sample.world
             [ {| ocm.Name := "cloud-credentials";
                  ocm.Namespace := "openshift-machine-api";
                  ocm.RoleARN :=
                    "arn:aws:iam::123456789012:role/c1-x7k2-openshift-machine-api-cloud-credentials" |} ])
  ≠ Panic.
Proof.
  apply (C10_role_name_in_bounds sample.CredentialRequests
           sample.GetVersionMinor sample.CheckSupportedVersion "c1-x7k2"
           {| aws.Creator_AccountID := "123456789012" |}).
  reflexivity.
Defined.

(** ** Events that a piece of code can emit *)

Section only_facts.

Context (P : event → Prop).

Lemma only_ret {A : Type} (a : A) : only P (mret a).
Proof. constructor. Qed.

Lemma only_exit {A : Type} (c : nat) : only P (os_Exit (A := A) c).
Proof. constructor. Qed.

Lemma only_panic {A : Type} : only P (panic (A := A)).
Proof. constructor. Qed.

Lemma only_emit (e : event) : P e → only P (emit e).
Proof. by repeat constructor. Qed.

Lemma only_bind {A B : Type} (m : M A) (f : A → M B) :
  only P m → (∀ a, only P (f a)) → only P (m ≫= f).
Proof.
  unfold only. intros Hm Hf. rewrite bind_trace. apply Forall_app.
  split; [done |]. destruct (outcome m); [apply Hf | constructor..].
Qed.

Lemma only_or_exit {A : Type} (call : event) (r : result A)
    (msg : string → string) :
  P call → (∀ e, P (Errorf e)) → only P (or_exit call r msg).
Proof.
  intros Hc He. unfold or_exit. apply only_bind.
  - by apply only_emit.
  - intros _. destruct r; [constructor |]. by repeat constructor.
Qed.

Lemma only_at_index {A : Type} (l : list A) (i : nat) : only P (at_index l i).
Proof. unfold at_index. destruct (l !! i); constructor. Qed.

Lemma only_for_range {A S : Type} (l : list A) (body : A → S → M S)
    (s : S) :
  (∀ x s, only P (body x s)) → only P (for_range l body s).
Proof.
  intros Hb. revert s. induction l as [|x l IH]; intros s; [constructor |].
  rewrite for_range_cons. by apply only_bind.
Qed.

Lemma only_with_defer {A : Type} (m : M A) (d : M unit) :
  only P m → only P d → only P (with_defer m d).
Proof.
  unfold only, with_defer, trace. intros Hm Hd.
  destruct m as [t [a|c|]]; simpl in *; try done; by apply Forall_app.
Qed.

End only_facts.

Lemma only_when (P : event → Prop) (b : bool) (m : M unit) :
  only P m → only P (when b m).
Proof. destruct b; [done | constructor]. Qed.

(** ** The choice among the role ARNs found *)

Section select_facts.

Implicit Types pattern initial : string.
Implicit Types roleARNs : list string.

Lemma select_matching_cons pattern rARN roleARNs initial :
  create_service.select_matching pattern (rARN :: roleARNs) initial
  = create_service.select_matching pattern roleARNs
      (if strings.Contains rARN pattern then rARN else initial).
Proof. done. Qed.

(** The loop keeps the last ARN that embeds the pattern. *)
Lemma select_matching_last pattern roleARNs initial :
  create_service.select_matching pattern roleARNs initial
  = default initial
      (last (filter (λ rARN, strings.Contains rARN pattern) roleARNs)).
Proof.
  revert initial. induction roleARNs as [|rARN roleARNs IH]; intros initial;
    [done |].
  rewrite select_matching_cons, IH.
  destruct (strings.Contains rARN pattern) eqn:E.
  - rewrite filter_cons_True by (by apply Is_true_true_2). rewrite last_cons.
    by destruct (last _).
  - by rewrite filter_cons_False by (by apply Is_true_false_2).
Qed.

Lemma select_matching_none pattern roleARNs initial :
  (∀ rARN, rARN ∈ roleARNs → strings.Contains rARN pattern = false) →
  create_service.select_matching pattern roleARNs initial = initial.
Proof.
  revert initial. induction roleARNs as [|rARN roleARNs IH]; intros initial H;
    [done |].
  rewrite select_matching_cons, (H rARN) by (by left).
  apply IH. intros r Hr. apply H. by right.
Qed.

Lemma select_matching_app pattern l1 l2 initial :
  create_service.select_matching pattern (l1 ++ l2) initial
  = create_service.select_matching pattern l2
      (create_service.select_matching pattern l1 initial).
Proof. unfold create_service.select_matching. by rewrite foldl_app. Qed.

(** An ARN that embeds the pattern and is followed by none that does is
    the one selected, wherever it stands. *)
Lemma select_matching_found pattern l1 rARN l2 initial :
  strings.Contains rARN pattern = true →
  (∀ r, r ∈ l2 → strings.Contains r pattern = false) →
  create_service.select_matching pattern (l1 ++ rARN :: l2) initial = rARN.
Proof.
  intros Hr Hl2.
  by rewrite select_matching_app, select_matching_cons, Hr,
    select_matching_none.
Qed.

Lemma select_matching_cases pattern roleARNs initial :
  create_service.select_matching pattern roleARNs initial = initial ∧
    (∀ rARN, rARN ∈ roleARNs → strings.Contains rARN pattern = false)
  ∨ create_service.select_matching pattern roleARNs initial ∈ roleARNs ∧
    strings.Contains (create_service.select_matching pattern roleARNs initial)
      pattern = true.
Proof.
  revert initial. induction roleARNs as [|rARN roleARNs IH]; intros initial.
  - left. split; [done |]. by intros r ?%elem_of_nil.
  - rewrite select_matching_cons.
    destruct (IH (if strings.Contains rARN pattern then rARN else initial))
      as [[H1 H2]|[H1 H2]].
    + rewrite H1. destruct (strings.Contains rARN pattern) eqn:E.
      * right. split; [by left | done].
      * left. split; [done |]. intros r [->|Hr]%elem_of_cons; auto.
    + right. split; [by right | done].
Qed.

(** A pattern is never empty, so the empty string does not embed one. *)
Lemma Contains_empty (s : string) :
  s ≠ EmptyString → strings.Contains EmptyString s = false.
Proof.
  intros Hs. destruct (strings.Contains EmptyString s) eqn:E; [| done].
  apply Contains_spec in E as (a & b & E). destruct a; [| done].
  destruct s; done.
Qed.

Lemma role_pattern_not_empty (prefix name : string) :
  create_service.role_pattern prefix name ≠ EmptyString.
Proof.
  unfold create_service.role_pattern. intros H%(f_equal String.length).
  rewrite !length_append in H. simpl in H. lia.
Qed.

End select_facts.

(** ** The resolution of the account roles *)

Section role_facts.

Variable DefaultPrefix : string.
Variable AccountRoles : aws.RoleType → aws.AccountRole.
Variable CredentialRequests : list aws.Operator.
Variable GetVersionMinor : string → string.
Variable CheckSupportedVersion : string → string → result bool.
Variable arn_Parse : string → result arn.ARN.

#[local] Abbreviation role_Name := (create_service.role_Name AccountRoles).
#[local] Abbreviation minor := (GetVersionMinor create_service.version).
#[local] Abbreviation findInstallerRole :=
  (create_service.findInstallerRole DefaultPrefix AccountRoles GetVersionMinor).
#[local] Abbreviation findDependentRole :=
  (create_service.findDependentRole AccountRoles GetVersionMinor).
#[local] Abbreviation getAccountRolePrefix :=
  (create_service.getAccountRolePrefix arn_Parse).
#[local] Abbreviation resolveAccountRoles :=
  (create_service.resolveAccountRoles DefaultPrefix AccountRoles
     GetVersionMinor arn_Parse).
#[local] Abbreviation buildRequest :=
  (create_service.buildRequest DefaultPrefix AccountRoles CredentialRequests
     GetVersionMinor CheckSupportedVersion arn_Parse).
#[local] Abbreviation run_body :=
  (create_service.run_body DefaultPrefix AccountRoles CredentialRequests
     GetVersionMinor CheckSupportedVersion arn_Parse).
#[local] Abbreviation run :=
  (create_service.run DefaultPrefix AccountRoles CredentialRequests
     GetVersionMinor CheckSupportedVersion arn_Parse).

Implicit Types w : create_service.World.
Implicit Types v : create_service.RoleVars.

Lemma findInstallerRole_none w :
  create_service.aws_FindRoleARNs w aws.InstallerAccountRole minor = Ok [] →
  findInstallerRole w
  = ([FindRoleARNs aws.InstallerAccountRole minor;
      Errorf create_service.no_roles_msg], Val EmptyString).
Proof.
  intros H. unfold create_service.findInstallerRole.
  rewrite H, or_exit_Ok. by steps.
Qed.

Lemma findInstallerRole_one w (only : string) :
  create_service.aws_FindRoleARNs w aws.InstallerAccountRole minor
  = Ok [only] →
  findInstallerRole w
  = (FindRoleARNs aws.InstallerAccountRole minor
       :: (if negb (create_service.output_HasFlag w)
              || create_service.reporter_IsTerminal w
           then [Infof (create_service.using_msg only
                          (role_Name aws.InstallerAccountRole))]
           else []),
     Val only).
Proof.
  intros H. unfold create_service.findInstallerRole.
  rewrite H, or_exit_Ok. step.
  by destruct (negb _ || _); simpl; steps.
Qed.

Lemma findInstallerRole_many w (first second : string) (rest : list string) :
  create_service.aws_FindRoleARNs w aws.InstallerAccountRole minor
  = Ok (first :: second :: rest) →
  findInstallerRole w
  = ([FindRoleARNs aws.InstallerAccountRole minor;
      Warnf (create_service.more_than_one_msg
               (role_Name aws.InstallerAccountRole)
               (create_service.select_matching
                  (create_service.role_pattern DefaultPrefix
                     (role_Name aws.InstallerAccountRole))
                  (first :: second :: rest) first))],
     Val (create_service.select_matching
            (create_service.role_pattern DefaultPrefix
               (role_Name aws.InstallerAccountRole))
            (first :: second :: rest) first)).
Proof.
  intros H. unfold create_service.findInstallerRole.
  rewrite H, or_exit_Ok. by steps.
Qed.

Lemma findInstallerRole_failed w (e : string) :
  create_service.aws_FindRoleARNs w aws.InstallerAccountRole minor = Err e →
  findInstallerRole w
  = ([FindRoleARNs aws.InstallerAccountRole minor;
      Errorf (create_service.find_failed_msg
                (role_Name aws.InstallerAccountRole) e)], Exit 1).
Proof.
  intros H. unfold create_service.findInstallerRole.
  rewrite H, or_exit_Err. by steps.
Qed.

(** C5. When the lookup of the installer roles answers with no ARN, the
    command tells the user to run [rosa create account-roles] first, asks
    to create the roles, and exits with status 1; the installer lookup is
    the only role lookup that it makes. *)
Theorem C5_no_installer_role w (args : ocm.CreateManagedServiceArgs) :
  create_service.ocm_Build w = Ok tt →
  create_service.aws_FindRoleARNs w aws.InstallerAccountRole
    (GetVersionMinor create_service.version) = Ok [] →
  run w args
  = ([Build;
      FindRoleARNs aws.InstallerAccountRole
        (GetVersionMinor create_service.version);
      Errorf "No account roles found. You will need to run 'rosa create account-roles' to create them first.";
      Errorf "Please create the above roles to continue"],
     Exit 1)
  ∧ lookups (trace (run w args)) = [aws.InstallerAccountRole].
Proof.
  intros HB HF.
  assert (run w args
          = ([Build; FindRoleARNs aws.InstallerAccountRole minor;
              Errorf create_service.no_roles_msg;
              Errorf "Please create the above roles to continue"], Exit 1))
    as Hrun.
  { unfold create_service.run, create_service.run_body,
      create_service.buildRequest, create_service.resolveAccountRoles.
    rewrite HB, or_exit_Ok, (findInstallerRole_none w HF). steps.
    simpl String.eqb. cbv iota. steps. simpl create_service.hasRoles.
    cbv iota. steps. rewrite with_defer_exit. by steps. }
  split; [exact Hrun |]. by rewrite Hrun.
Qed.

(** C3, as the code has it.  When the lookup of the installer roles
    answers with more than one ARN, the one selected is the last ARN that
    embeds [<default-prefix>-<RoleName>-Role], wherever it stands in the
    list, and the first ARN of the list when none embeds it; in both cases
    the warning that more than one role was found names the ARN selected,
    and it is the only message. *)
Theorem C3_installer_role_choice w (first second : string)
    (rest : list string) :
  create_service.aws_FindRoleARNs w aws.InstallerAccountRole
    (GetVersionMinor create_service.version)
  = Ok (first :: second :: rest) →
  ∃ chosen,
    findInstallerRole w
    = ([FindRoleARNs aws.InstallerAccountRole
          (GetVersionMinor create_service.version);
        Warnf ("More than one " +:+ role_Name aws.InstallerAccountRole +:+
               " role found, going with " +:+ chosen)],
       Val chosen)
    ∧ (∀ l1 rARN l2,
         first :: second :: rest = l1 ++ rARN :: l2 →
         strings.Contains rARN
           (DefaultPrefix +:+ "-" +:+ role_Name aws.InstallerAccountRole +:+
            "-Role") = true →
         (∀ r, r ∈ l2 →
               strings.Contains r
                 (DefaultPrefix +:+ "-" +:+
                  role_Name aws.InstallerAccountRole +:+ "-Role") = false) →
         chosen = rARN)
    ∧ ((∀ r, r ∈ first :: second :: rest →
             strings.Contains r
               (DefaultPrefix +:+ "-" +:+
                role_Name aws.InstallerAccountRole +:+ "-Role") = false) →
       chosen = first).
Proof.
  intros H. eexists. split; [apply (findInstallerRole_many w _ _ _ H) |].
  split.
  - intros l1 rARN l2 -> Hr Hl2. by apply select_matching_found.
  - intros Hnone. by apply select_matching_none.
Qed.

Lemma findDependentRole_installer w (rolePrefix : string) v :
  findDependentRole w rolePrefix aws.InstallerAccountRole v = ([], Val v).
Proof. done. Qed.

Lemma findDependentRole_failed w (rolePrefix : string)
    (roleType : aws.RoleType) v (e : string) :
  roleType ≠ aws.InstallerAccountRole →
  create_service.aws_FindRoleARNs w roleType minor = Err e →
  findDependentRole w rolePrefix roleType v
  = ([FindRoleARNs roleType minor;
      Errorf (create_service.find_failed_msg (role_Name roleType) e)],
     Exit 1).
Proof.
  intros Hrt H. unfold create_service.findDependentRole.
  rewrite decide_False by done. rewrite H, or_exit_Err. by steps.
Qed.

Lemma findDependentRole_answered w (rolePrefix : string)
    (roleType : aws.RoleType) v (roleARNs : list string) :
  roleType ≠ aws.InstallerAccountRole →
  create_service.aws_FindRoleARNs w roleType minor = Ok roleARNs →
  let selectedARN := resolved_role AccountRoles GetVersionMinor w rolePrefix
                       roleType in
  findDependentRole w rolePrefix roleType v
  = (FindRoleARNs roleType minor
       :: (if String.eqb selectedARN EmptyString
           then [Errorf (create_service.no_role_msg (role_Name roleType));
                 interactive_Enable]
           else [])
       ++ (if negb (create_service.output_HasFlag w)
              || create_service.reporter_IsTerminal w
           then [Infof (create_service.using_msg selectedARN
                          (role_Name roleType))]
           else []),
     Val (create_service.assign roleType selectedARN
            (if String.eqb selectedARN EmptyString
             then create_service.set_hasRoles false v else v))).
Proof.
  intros Hrt H. unfold resolved_role, found_roles. rewrite H. cbv zeta.
  unfold create_service.findDependentRole.
  rewrite decide_False by done. rewrite H, or_exit_Ok. step.
  destruct (String.eqb _ EmptyString); destruct (negb _ || _); simpl when;
    by steps.
Qed.

End role_facts.

(** C3, as stated, fails: a role under the default prefix is
    found and selected, and the warning is emitted all the same. *)
Lemma C3_counterexample :
  let roleARNs :=
    [ "arn:aws:iam::123456789012:role/Mine-Installer-Role";
      "arn:aws:iam::123456789012:role/ManagedOpenShift-Installer-Role" ] in
  let w :=
    sample.with_roles (λ _, Ok roleARNs) all_roles sample.world in
  let r :=
    create_service.findInstallerRole sample.DefaultPrefix sample.AccountRoles
      sample.GetVersionMinor w in
  strings.Contains
    "arn:aws:iam::123456789012:role/ManagedOpenShift-Installer-Role"
    "ManagedOpenShift-Installer-Role" = true
  ∧ outcome r
    = Val "arn:aws:iam::123456789012:role/ManagedOpenShift-Installer-Role"
  ∧ warnings (trace r)
    = [ "More than one Installer role found, going with arn:aws:iam::123456789012:role/ManagedOpenShift-Installer-Role" ].
Proof. vm_compute. done. Qed.

(** The hypothesis of C3 holds of an account with two installer roles, the
    first of which is under the default prefix. *)
Lemma C3_installer_role_choice_witness :
  outcome
    (create_service.findInstallerRole sample.DefaultPrefix sample.AccountRoles
       sample.GetVersionMinor
       (sample.with_roles
          (λ _, Ok [ sample.role_arn "ManagedOpenShift-Installer-Role";
                     sample.role_arn "Mine-Installer-Role" ])
          all_roles sample.world))
  = Val (sample.role_arn "ManagedOpenShift-Installer-Role").
Proof.
  set (w := sample.with_roles _ _ _).
  destruct (C3_installer_role_choice sample.DefaultPrefix sample.AccountRoles
              sample.GetVersionMinor w
              (sample.role_arn "ManagedOpenShift-Installer-Role")
              (sample.role_arn "Mine-Installer-Role") [] eq_refl)
    as (chosen & -> & Hfound & _).
  unfold outcome. simpl. f_equal.
  apply (Hfound [] _ [sample.role_arn "Mine-Installer-Role"] eq_refl).
  - reflexivity.
  - intros r ->%list_elem_of_singleton. reflexivity.
Defined.


(** The hypotheses of C5 hold of an account without installer role. *)
Lemma C5_no_installer_role_witness :
  outcome (sample.invoke
             (sample.with_roles (λ _, Ok []) all_roles sample.world))
  = Exit 1.
Proof.
  unfold sample.invoke, create_service.Cmd_Run.
  set (w := sample.with_roles _ _ _).
  by rewrite (proj1 (C5_no_installer_role sample.DefaultPrefix
                       sample.AccountRoles sample.CredentialRequests
                       sample.GetVersionMinor sample.CheckSupportedVersion
                       sample.arn_Parse w (create_service.args_at_entry w)
                       eq_refl eq_refl)).
Defined.

(** ** The loop over the dependent account roles *)

Section trace_readers.

Lemma lookups_app (t1 t2 : list event) :
  lookups (t1 ++ t2) = lookups t1 ++ lookups t2.
Proof. apply omap_app. Qed.

Lemma errors_app (t1 t2 : list event) :
  errors (t1 ++ t2) = errors t1 ++ errors t2.
Proof. apply omap_app. Qed.

Lemma created_app (t1 t2 : list event) :
  created (t1 ++ t2) = created t1 ++ created t2.
Proof. apply omap_app. Qed.

Lemma created_not_create (t : list event) :
  Forall not_create t → created t = [].
Proof.
  induction 1 as [|e t He _ IH]; [done |].
  destruct e; try exact IH. destruct He.
Qed.

Lemma elem_of_created (t : list event)
    (request : ocm.CreateManagedServiceArgs) :
  CreateManagedService request ∈ t ↔ request ∈ created t.
Proof.
  unfold created. rewrite list_elem_of_omap. split.
  - intros H. by exists (CreateManagedService request).
  - intros (e & He & Heq). destruct e; try done. by injection Heq as ->.
Qed.

End trace_readers.

Section role_vars.

Implicit Types v : create_service.RoleVars.

Lemma role_var_assign (roleType x : aws.RoleType) (selectedARN : string) v :
  role_var roleType (create_service.assign x selectedARN v)
  = if decide (roleType = x) then selectedARN else role_var roleType v.
Proof. by destruct roleType, x. Qed.

Lemma hasRoles_assign (x : aws.RoleType) (selectedARN : string) v :
  create_service.hasRoles (create_service.assign x selectedARN v)
  = create_service.hasRoles v.
Proof. by destruct x. Qed.

Lemma role_var_set_hasRoles (roleType : aws.RoleType) (b : bool) v :
  role_var roleType (create_service.set_hasRoles b v) = role_var roleType v.
Proof. by destruct roleType. Qed.

End role_vars.

Section loop_facts.

Variable AccountRoles : aws.RoleType → aws.AccountRole.
Variable GetVersionMinor : string → string.

#[local] Abbreviation role_Name := (create_service.role_Name AccountRoles).
#[local] Abbreviation minor := (GetVersionMinor create_service.version).
#[local] Abbreviation findDependentRole :=
  (create_service.findDependentRole AccountRoles GetVersionMinor).
#[local] Abbreviation resolved :=
  (resolved_role AccountRoles GetVersionMinor).

Implicit Types w : create_service.World.
Implicit Types v : create_service.RoleVars.
Implicit Types roleType : aws.RoleType.

(** A dependent role that is resolved is one of the ARNs found, and embeds
    [<prefix>-<RoleName>-Role]. *)
Lemma resolved_role_embeds w (rolePrefix : string) roleType :
  resolved w rolePrefix roleType ≠ EmptyString →
  resolved w rolePrefix roleType
    ∈ found_roles GetVersionMinor w roleType
  ∧ strings.Contains (resolved w rolePrefix roleType)
      (rolePrefix +:+ "-" +:+ role_Name roleType +:+ "-Role") = true.
Proof.
  intros Hne. unfold resolved_role in *.
  by destruct (select_matching_cases
                 (create_service.role_pattern rolePrefix (role_Name roleType))
                 (found_roles GetVersionMinor w roleType) EmptyString)
    as [[? _]|?].
Qed.

(** What the loop has done when it ends without leaving the command. *)
Lemma dependent_loop_inv w (rolePrefix : string)
    (l : list aws.RoleType) v0 v :
  outcome (for_range l (findDependentRole w rolePrefix) v0) = Val v →
  create_service.roleARN v = create_service.roleARN v0
  ∧ (create_service.hasRoles v = true → create_service.hasRoles v0 = true)
  ∧ (∀ roleType,
       roleType ≠ aws.InstallerAccountRole → roleType ∈ l →
       role_var roleType v = resolved w rolePrefix roleType ∧
       (create_service.hasRoles v = true →
        resolved w rolePrefix roleType ≠ EmptyString))
  ∧ (∀ roleType,
       roleType ∉ l → role_var roleType v = role_var roleType v0).
Proof.
  revert v0. induction l as [|x l IH]; intros v0.
  - intros [= <-]. split; [done |]. split; [done |].
    split; [by intros rt _ ?%elem_of_nil | done].
  - rewrite for_range_cons, bind_outcome.
    destruct (decide (x = aws.InstallerAccountRole)) as [->|Hx].
    { rewrite findDependentRole_installer. intros H.
      destruct (IH v0 H) as (H1 & H2 & H3 & H4).
      split; [done |]. split; [done |]. split.
      - intros rt Hrt [->|Hin]%elem_of_cons; [done |]. by apply H3.
      - intros rt Hrt%not_elem_of_cons. apply H4, Hrt. }
    destruct (create_service.aws_FindRoleARNs w x minor) as [roleARNs|e]
      eqn:Hfind.
    2: { by rewrite (findDependentRole_failed _ _ _ _ _ _ _ Hx Hfind). }
    rewrite (findDependentRole_answered _ _ _ _ _ _ _ Hx Hfind).
    cbv zeta. unfold outcome at 1. cbn [snd].
    set (sel := resolved w rolePrefix x).
    set (v1 := create_service.assign x sel _). intros H.
    destruct (IH v1 H) as (H1 & H2 & H3 & H4).
    assert (create_service.hasRoles v1 = true →
            create_service.hasRoles v0 = true ∧ sel ≠ EmptyString) as Hv1.
    { unfold v1. rewrite hasRoles_assign.
      destruct (String.eqb_spec sel EmptyString); [done |]. done. }
    assert (∀ rt, role_var rt v1
                  = if decide (rt = x) then sel else role_var rt v0) as Hrv.
    { intros rt. unfold v1. rewrite role_var_assign.
      destruct (String.eqb sel EmptyString);
        by rewrite ?role_var_set_hasRoles. }
    split; [| split; [| split]].
    + rewrite H1. pose proof (Hrv aws.InstallerAccountRole) as Hi.
      by rewrite decide_False in Hi by done.
    + intros Hh. by apply Hv1, H2.
    + intros rt Hrt Hin. destruct (decide (rt ∈ l)) as [Hl|Hl].
      * by apply H3.
      * apply elem_of_cons in Hin as [->|?]; [| done].
        rewrite (H4 _ Hl), Hrv, decide_True by done.
        split; [done |]. intros Hh. by apply Hv1, H2.
    + intros rt [Hne Hl]%not_elem_of_cons.
      by rewrite (H4 _ Hl), Hrv, decide_False.
Qed.

End loop_facts.

Section loop_total.

Variable AccountRoles : aws.RoleType → aws.AccountRole.
Variable GetVersionMinor : string → string.

#[local] Abbreviation role_Name := (create_service.role_Name AccountRoles).
#[local] Abbreviation minor := (GetVersionMinor create_service.version).
#[local] Abbreviation findDependentRole :=
  (create_service.findDependentRole AccountRoles GetVersionMinor).
#[local] Abbreviation resolved :=
  (resolved_role AccountRoles GetVersionMinor).

Implicit Types w : create_service.World.
Implicit Types v : create_service.RoleVars.

(** When every lookup answers, the loop looks up every dependent category
    that the range yields, reports each one for which no ARN embeds the
    pattern, and goes on to the end. *)
Lemma dependent_loop_answered w (rolePrefix : string)
    (l : list aws.RoleType) v0 :
  (∀ roleType, roleType ∈ l → roleType ≠ aws.InstallerAccountRole →
     ∃ roleARNs,
       create_service.aws_FindRoleARNs w roleType minor = Ok roleARNs) →
  let loop := for_range l (findDependentRole w rolePrefix) v0 in
  (∃ v, outcome loop = Val v)
  ∧ lookups (trace loop) = filter (λ rt, rt ≠ aws.InstallerAccountRole) l
  ∧ errors (trace loop)
    = (λ rt, create_service.no_role_msg (role_Name rt))
        <$> filter (λ rt, rt ≠ aws.InstallerAccountRole ∧
                          resolved w rolePrefix rt = EmptyString) l.
Proof.
  cbv zeta. revert v0. induction l as [|x l IH]; intros v0 Hl.
  - split; [by eexists | done].
  - assert (∀ roleType, roleType ∈ l →
              roleType ≠ aws.InstallerAccountRole →
              ∃ roleARNs,
                create_service.aws_FindRoleARNs w roleType minor
                = Ok roleARNs) as Hl'.
    { intros rt Hin. apply Hl. by right. }
    rewrite for_range_cons.
    destruct (decide (x = aws.InstallerAccountRole)) as [->|Hx].
    { rewrite findDependentRole_installer, bind_val, after_nil.
      rewrite !filter_cons_False by (intros ?; intuition congruence).
      by apply IH. }
    destruct (Hl x ltac:(by left) Hx) as [roleARNs Hfind].
    rewrite (findDependentRole_answered _ _ _ _ _ _ _ Hx Hfind).
    cbv zeta. rewrite bind_val, outcome_after, trace_after.
    set (v1 := create_service.assign _ _ _).
    destruct (IH v1 Hl') as (Hv & Hlk & Herr).
    split; [done |].
    rewrite filter_cons_True by done.
    rewrite lookups_app, errors_app, Hlk, Herr.
    destruct (String.eqb_spec (resolved w rolePrefix x) EmptyString)
      as [He|He].
    + rewrite (filter_cons_True (λ rt, _ ∧ _)) by done.
      by destruct (negb _ || _).
    + rewrite (filter_cons_False (λ rt, _ ∧ _)) by (by intros [_ ?]).
      by destruct (negb _ || _).
Qed.

End loop_total.

(** ** The role prefix and the role stage *)

Section prefix_facts.

Variable arn_Parse : string → result arn.ARN.

#[local] Abbreviation getAccountRolePrefix :=
  (create_service.getAccountRolePrefix arn_Parse).

Lemma getAccountRolePrefix_trace (roleARN : string) (role : aws.AccountRole) :
  trace (getAccountRolePrefix roleARN role) = [].
Proof.
  unfold create_service.getAccountRolePrefix.
  destruct (arn_Parse roleARN) as [parsedARN|]; [| done].
  unfold at_index. by destruct (_ !! 1).
Qed.

Lemma getAccountRolePrefix_parsed (roleARN : string) (role : aws.AccountRole)
    (parsedARN : arn.ARN) (before roleName : string) :
  arn_Parse roleARN = Ok parsedARN →
  strings.SplitN (arn.Resource parsedARN) "/" 2 = [before; roleName] →
  getAccountRolePrefix roleARN role
  = ([], Val (Ok (strings.TrimSuffix roleName
                    ("-" +:+ aws.AccountRole_Name role +:+ "-Role")))).
Proof.
  intros Hp Hs. unfold create_service.getAccountRolePrefix.
  by rewrite Hp, Hs.
Qed.

Lemma getAccountRolePrefix_no_slash (roleARN : string)
    (role : aws.AccountRole) (parsedARN : arn.ARN) :
  arn_Parse roleARN = Ok parsedARN →
  strings.Contains (arn.Resource parsedARN) "/" = false →
  getAccountRolePrefix roleARN role = ([], Panic).
Proof.
  intros Hp Hs. unfold create_service.getAccountRolePrefix.
  rewrite Hp, SplitN_2. unfold strings.Contains in Hs.
  apply bool_decide_eq_false in Hs.
  destruct (strings.Index _ _) as [m|]; [| done]. destruct Hs. by eexists.
Qed.

Lemma getAccountRolePrefix_unparsed (roleARN : string)
    (role : aws.AccountRole) (e : string) :
  arn_Parse roleARN = Err e →
  getAccountRolePrefix roleARN role = ([], Val (Err e)).
Proof.
  intros Hp. unfold create_service.getAccountRolePrefix. by rewrite Hp.
Qed.

End prefix_facts.

(** ** The workflow *)

Ltac only_tac :=
  repeat first
    [ progress intros
    | apply only_ret | apply only_exit | apply only_panic
    | apply only_emit; exact I
    | apply only_or_exit; [exact I | intros; exact I]
    | apply only_at_index
    | apply only_when
    | apply only_for_range
    | apply only_bind
    | match goal with
      | |- only _ (match ?x with _ => _ end) => destruct x
      end ].

Section workflow_facts.

Variable DefaultPrefix : string.
Variable AccountRoles : aws.RoleType → aws.AccountRole.
Variable CredentialRequests : list aws.Operator.
Variable GetVersionMinor : string → string.
Variable CheckSupportedVersion : string → string → result bool.
Variable arn_Parse : string → result arn.ARN.

#[local] Abbreviation role_Name := (create_service.role_Name AccountRoles).
#[local] Abbreviation minor := (GetVersionMinor create_service.version).
#[local] Abbreviation findInstallerRole :=
  (create_service.findInstallerRole DefaultPrefix AccountRoles GetVersionMinor).
#[local] Abbreviation findDependentRole :=
  (create_service.findDependentRole AccountRoles GetVersionMinor).
#[local] Abbreviation getAccountRolePrefix :=
  (create_service.getAccountRolePrefix arn_Parse).
#[local] Abbreviation resolveAccountRoles :=
  (create_service.resolveAccountRoles DefaultPrefix AccountRoles
     GetVersionMinor arn_Parse).
#[local] Abbreviation operatorRoles :=
  (create_service.operatorRoles CredentialRequests GetVersionMinor
     CheckSupportedVersion).
#[local] Abbreviation buildRequest :=
  (create_service.buildRequest DefaultPrefix AccountRoles CredentialRequests
     GetVersionMinor CheckSupportedVersion arn_Parse).
#[local] Abbreviation run_body :=
  (create_service.run_body DefaultPrefix AccountRoles CredentialRequests
     GetVersionMinor CheckSupportedVersion arn_Parse).
#[local] Abbreviation run :=
  (create_service.run DefaultPrefix AccountRoles CredentialRequests
     GetVersionMinor CheckSupportedVersion arn_Parse).
#[local] Abbreviation resolved :=
  (resolved_role AccountRoles GetVersionMinor).

Implicit Types w : create_service.World.
Implicit Types v : create_service.RoleVars.
Implicit Types args request : ocm.CreateManagedServiceArgs.

Lemma resolveAccountRoles_not_create w :
  only not_create (resolveAccountRoles w).
Proof.
  unfold create_service.resolveAccountRoles, create_service.findInstallerRole,
    create_service.getAccountRolePrefix, create_service.findDependentRole.
  only_tac.
Qed.

Lemma buildRequest_not_create w args : only not_create (buildRequest w args).
Proof.
  unfold create_service.buildRequest. apply only_bind.
  { apply resolveAccountRoles_not_create. }
  unfold create_service.operatorRoles, create_service.appendOperatorRole,
    create_service.validateRoleNames, create_service.validateRoleName,
    create_service.fetchParameters, create_service.copyParameters, map_store.
  only_tac.
Qed.

Lemma created_submitRequest w args :
  created (trace (create_service.submitRequest w args)) = [args].
Proof.
  unfold create_service.submitRequest.
  by destruct (create_service.ocm_CreateManagedService w args).
Qed.

(** The requests that one invocation submits: the one that was built, if
    the command got that far. *)
Lemma created_run w args :
  created (trace (run w args))
  = match create_service.ocm_Build w, outcome (buildRequest w args) with
    | Ok _, Val request => [request]
    | _, _ => []
    end.
Proof.
  unfold create_service.run, create_service.run_body.
  destruct (create_service.ocm_Build w) as [[]|e]; [| done].
  rewrite or_exit_Ok, bind_val, trace_after, created_app, app_nil_l.
  pose proof (buildRequest_not_create w args) as Hb.
  apply created_not_create in Hb.
  destruct (buildRequest w args) as [t [a|c|]] eqn:E; unfold trace in Hb;
    simpl in Hb.
  - rewrite bind_val. unfold with_defer, after, trace, outcome. simpl.
    pose proof (created_submitRequest w a) as Hs. unfold trace in Hs.
    destruct (create_service.submitRequest w a) as [t' [a'|c'|]]; simpl in *;
      rewrite ?created_app, Hb, ?Hs; simpl;
      by destruct (create_service.ocm_Close w).
  - by rewrite bind_exit, with_defer_exit.
  - rewrite bind_panic, with_defer_panic. unfold trace. simpl.
    rewrite created_app, Hb. by destruct (create_service.ocm_Close w).
Qed.

(** The role stage, when it hands over: either no installer role was
    selected and nothing else was looked up, or the loop has assigned to
    each dependent category that the range yields what it resolves to. *)
Lemma resolveAccountRoles_val w v :
  outcome (resolveAccountRoles w) = Val v →
  (create_service.roleARN v = EmptyString
   ∧ create_service.hasRoles v = false
   ∧ ∀ roleType, roleType ≠ aws.InstallerAccountRole →
                 role_var roleType v = EmptyString)
  ∨ ∃ rolePrefix,
      create_service.roleARN v ≠ EmptyString
      ∧ outcome (findInstallerRole w) = Val (create_service.roleARN v)
      ∧ getAccountRolePrefix (create_service.roleARN v)
          (AccountRoles aws.InstallerAccountRole)
        = ([], Val (Ok rolePrefix))
      ∧ ∀ roleType,
          roleType ≠ aws.InstallerAccountRole →
          roleType ∈ create_service.range_AccountRoles w →
          role_var roleType v = resolved w rolePrefix roleType ∧
          (create_service.hasRoles v = true →
           resolved w rolePrefix roleType ≠ EmptyString).
Proof.
  unfold create_service.resolveAccountRoles. rewrite bind_outcome.
  destruct (outcome (findInstallerRole w)) as [roleARN|c|] eqn:Hi;
    [| done..].
  destruct (String.eqb_spec roleARN EmptyString) as [->|Hne].
  { intros [= <-]. left. split; [done |]. split; [done |].
    by intros []. }
  rewrite bind_outcome.
  pose proof (getAccountRolePrefix_trace arn_Parse roleARN
                (AccountRoles aws.InstallerAccountRole)) as Ht.
  destruct (getAccountRolePrefix roleARN _) as [t [[rolePrefix|e]|c|]] eqn:Hp;
    unfold trace, outcome in *; simpl in Ht |- *; subst t; [| done..].
  intros Hloop. right.
  destruct (dependent_loop_inv AccountRoles GetVersionMinor _ _ _ _ _ Hloop)
    as (H1 & _ & H3 & _).
  simpl in H1. rewrite H1. exists rolePrefix.
  split; [done |]. split; [done |]. split; [done |].
  intros rt Hrt Hin. by apply H3.
Qed.

(** The role stage, when it hands over with [hasRoles] set. *)
Lemma resolveAccountRoles_complete w v :
  outcome (resolveAccountRoles w) = Val v →
  create_service.hasRoles v = true →
  ∃ rolePrefix,
    create_service.roleARN v ≠ EmptyString
    ∧ outcome (findInstallerRole w) = Val (create_service.roleARN v)
    ∧ getAccountRolePrefix (create_service.roleARN v)
        (AccountRoles aws.InstallerAccountRole)
      = ([], Val (Ok rolePrefix))
    ∧ ∀ roleType,
        roleType ≠ aws.InstallerAccountRole →
        roleType ∈ create_service.range_AccountRoles w →
        role_var roleType v = resolved w rolePrefix roleType ∧
        resolved w rolePrefix roleType ≠ EmptyString.
Proof.
  intros Hv Hh.
  destruct (resolveAccountRoles_val w v Hv)
    as [(_ & Hf & _)|(rolePrefix & H1 & H2 & H3 & H4)]; [congruence |].
  exists rolePrefix. split; [done |]. split; [done |]. split; [done |].
  intros rt Hrt Hin. destruct (H4 rt Hrt Hin) as [? ?]. auto.
Qed.

(** A command that gets to the end of the role stage without [hasRoles]
    stops there. *)
Lemma buildRequest_incomplete w args v :
  outcome (resolveAccountRoles w) = Val v →
  create_service.hasRoles v = false →
  buildRequest w args
  = (trace (resolveAccountRoles w)
       ++ [Errorf "Please create the above roles to continue"], Exit 1).
Proof.
  intros Hv Hh. unfold create_service.buildRequest.
  rewrite (M_eta (resolveAccountRoles w)), Hv, bind_val, Hh.
  by steps.
Qed.

Lemma run_incomplete w args v :
  create_service.ocm_Build w = Ok tt →
  outcome (resolveAccountRoles w) = Val v →
  create_service.hasRoles v = false →
  run w args
  = (Build :: trace (resolveAccountRoles w)
       ++ [Errorf "Please create the above roles to continue"], Exit 1).
Proof.
  intros HB Hv Hh. unfold create_service.run, create_service.run_body.
  rewrite HB, or_exit_Ok, (buildRequest_incomplete w args v Hv Hh).
  rewrite bind_exit, with_defer_exit. by steps.
Qed.

(** The request that was built carries the role variables of a complete
    role stage. *)
Lemma buildRequest_roles w args request :
  outcome (buildRequest w args) = Val request →
  ∃ v, outcome (resolveAccountRoles w) = Val v
       ∧ create_service.hasRoles v = true
       ∧ ocm.AwsRoleARN request = create_service.roleARN v
       ∧ ocm.AwsSupportRoleARN request = create_service.supportRoleARN v
       ∧ ocm.AwsControlPlaneRoleARN request
         = create_service.controlPlaneRoleARN v
       ∧ ocm.AwsWorkerRoleARN request = create_service.workerRoleARN v.
Proof.
  unfold create_service.buildRequest. rewrite bind_outcome.
  destruct (outcome (resolveAccountRoles w)) as [v|c|]; [| done..].
  destruct (create_service.hasRoles v) eqn:Hh.
  2: { rewrite bind_outcome. by steps. }
  rewrite ret_bind. repeat (rewrite bind_outcome; case_match; try done).
  intros [= <-]. by exists v.
Qed.

(** C1. Wherever the order in which the loop visits the four role
    categories: a create request is only issued with the four role ARNs
    that the role stage has resolved, none of which is empty; and if the
    role stage ends with an empty one among the four, the command exits
    with status 1 without issuing a request. *)
Theorem C1_roles_resolved_before_create w args :
  create_service.range_AccountRoles w ≡ₚ all_roles →
  (∀ request,
     CreateManagedService request ∈ trace (run w args) →
     ocm.AwsRoleARN request ≠ EmptyString
     ∧ ocm.AwsSupportRoleARN request ≠ EmptyString
     ∧ ocm.AwsControlPlaneRoleARN request ≠ EmptyString
     ∧ ocm.AwsWorkerRoleARN request ≠ EmptyString)
  ∧ (∀ v,
       create_service.ocm_Build w = Ok tt →
       outcome (resolveAccountRoles w) = Val v →
       create_service.roleARN v = EmptyString
       ∨ create_service.supportRoleARN v = EmptyString
       ∨ create_service.controlPlaneRoleARN v = EmptyString
       ∨ create_service.workerRoleARN v = EmptyString →
       outcome (run w args) = Exit 1
       ∧ ∀ request, CreateManagedService request ∉ trace (run w args)).
Proof.
  intros Hrange.
  assert (∀ v, outcome (resolveAccountRoles w) = Val v →
               create_service.hasRoles v = true →
               create_service.roleARN v ≠ EmptyString
               ∧ create_service.supportRoleARN v ≠ EmptyString
               ∧ create_service.controlPlaneRoleARN v ≠ EmptyString
               ∧ create_service.workerRoleARN v ≠ EmptyString) as Hall.
  { intros v Hv Hh.
    destruct (resolveAccountRoles_complete w v Hv Hh)
      as (rolePrefix & Hr & _ & _ & Hdep).
    assert (∀ rt, rt ≠ aws.InstallerAccountRole →
                  role_var rt v ≠ EmptyString) as Hrt.
    { intros rt Hne. destruct (Hdep rt Hne) as [-> ?]; [| done].
      rewrite Hrange. unfold all_roles. destruct rt; repeat constructor. }
    split; [done |].
    split; [exact (Hrt aws.SupportAccountRole ltac:(done)) |].
    split; [exact (Hrt aws.ControlPlaneAccountRole ltac:(done)) |].
    exact (Hrt aws.WorkerAccountRole ltac:(done)). }
  split.
  - intros request Hin%elem_of_created. rewrite created_run in Hin.
    destruct (create_service.ocm_Build w); [| by apply elem_of_nil in Hin].
    destruct (outcome (buildRequest w args)) as [built|c|] eqn:Hb;
      try by apply elem_of_nil in Hin.
    apply list_elem_of_singleton in Hin as ->.
    destruct (buildRequest_roles w args built Hb)
      as (v & Hv & Hh & -> & -> & -> & ->).
    by apply Hall.
  - intros v HB Hv Hempty.
    assert (create_service.hasRoles v = false) as Hh.
    { destruct (create_service.hasRoles v) eqn:Hh; [| done].
      destruct (Hall v Hv Hh) as (? & ? & ? & ?).
      by destruct Hempty as [?|[?|[?|?]]]. }
    rewrite (run_incomplete w args v HB Hv Hh). split; [done |].
    intros request Hin. unfold trace in Hin. simpl in Hin.
    apply elem_of_cons in Hin as [?|Hin]; [done |].
    apply elem_of_app in Hin as [Hin|Hin].
    + pose proof (resolveAccountRoles_not_create w) as Hn.
      unfold only in Hn. rewrite Forall_forall in Hn.
      exact (Hn _ Hin).
    + by apply list_elem_of_singleton in Hin.
Qed.

Lemma resolveAccountRoles_loop w (roleARN rolePrefix : string) :
  outcome (findInstallerRole w) = Val roleARN →
  roleARN ≠ EmptyString →
  getAccountRolePrefix roleARN (AccountRoles aws.InstallerAccountRole)
  = ([], Val (Ok rolePrefix)) →
  resolveAccountRoles w
  = after (trace (findInstallerRole w)
             ++ [Debugf ("Using '" +:+ rolePrefix +:+ "' as the role prefix")])
      (for_range (create_service.range_AccountRoles w)
         (findDependentRole w rolePrefix)
         {| create_service.roleARN := roleARN;
            create_service.supportRoleARN := EmptyString;
            create_service.controlPlaneRoleARN := EmptyString;
            create_service.workerRoleARN := EmptyString;
            create_service.hasRoles := true |}).
Proof.
  intros Hi Hne Hp. unfold create_service.resolveAccountRoles.
  rewrite (M_eta (findInstallerRole w)), Hi, bind_val.
  destruct (String.eqb_spec roleARN EmptyString) as [|_]; [done |].
  rewrite Hp, bind_val, after_nil, emit_bind, after_after. done.
Qed.

(** C4, as the code has it.  The role prefix of an installer-role ARN that
    parses, and whose resource holds a slash, is what follows the first
    slash of the resource, with the suffix [-<RoleName>-Role] stripped
    when it ends in it.
    Each of the three other role variables, when the role stage hands
    over and the variable is not empty, and so each of the three other role
    ARNs of a request that is issued, is an ARN that its lookup found and
    that embeds [<prefix>-<RoleName>-Role].
    When the three lookups answer and one of the categories has no such
    ARN, the three categories are all looked up, each one without such an
    ARN is reported, and the command then asks to create the roles and
    exits with status 1, issuing no request. *)
Theorem C4_dependent_roles w args :
  create_service.range_AccountRoles w ≡ₚ all_roles →
  (∀ roleARN parsedARN before roleName,
     arn_Parse roleARN = Ok parsedARN →
     arn.Resource parsedARN = before +:+ "/" +:+ roleName →
     strings.Contains before "/" = false →
     ∃ rolePrefix,
       getAccountRolePrefix roleARN (AccountRoles aws.InstallerAccountRole)
       = ([], Val (Ok rolePrefix))
       ∧ (∀ p, roleName
               = p +:+ "-" +:+ role_Name aws.InstallerAccountRole +:+ "-Role" →
               rolePrefix = p)
       ∧ (strings.HasSuffix roleName
            ("-" +:+ role_Name aws.InstallerAccountRole +:+ "-Role") = false →
          rolePrefix = roleName))
  ∧ (∀ v roleType,
       outcome (resolveAccountRoles w) = Val v →
       roleType ≠ aws.InstallerAccountRole →
       role_var roleType v ≠ EmptyString →
       ∃ rolePrefix,
         getAccountRolePrefix (create_service.roleARN v)
           (AccountRoles aws.InstallerAccountRole)
         = ([], Val (Ok rolePrefix))
         ∧ role_var roleType v ∈ found_roles GetVersionMinor w roleType
         ∧ strings.Contains (role_var roleType v)
             (rolePrefix +:+ "-" +:+ role_Name roleType +:+ "-Role") = true)
  ∧ (∀ request,
       CreateManagedService request ∈ trace (run w args) →
       ∃ rolePrefix,
         getAccountRolePrefix (ocm.AwsRoleARN request)
           (AccountRoles aws.InstallerAccountRole)
         = ([], Val (Ok rolePrefix))
         ∧ ocm.AwsSupportRoleARN request
             ∈ found_roles GetVersionMinor w aws.SupportAccountRole
         ∧ strings.Contains (ocm.AwsSupportRoleARN request)
             (rolePrefix +:+ "-" +:+ role_Name aws.SupportAccountRole +:+
              "-Role") = true
         ∧ ocm.AwsControlPlaneRoleARN request
             ∈ found_roles GetVersionMinor w aws.ControlPlaneAccountRole
         ∧ strings.Contains (ocm.AwsControlPlaneRoleARN request)
             (rolePrefix +:+ "-" +:+ role_Name aws.ControlPlaneAccountRole +:+
              "-Role") = true
         ∧ ocm.AwsWorkerRoleARN request
             ∈ found_roles GetVersionMinor w aws.WorkerAccountRole
         ∧ strings.Contains (ocm.AwsWorkerRoleARN request)
             (rolePrefix +:+ "-" +:+ role_Name aws.WorkerAccountRole +:+
              "-Role") = true)
  ∧ (∀ roleARN rolePrefix,
       create_service.ocm_Build w = Ok tt →
       outcome (findInstallerRole w) = Val roleARN →
       roleARN ≠ EmptyString →
       getAccountRolePrefix roleARN (AccountRoles aws.InstallerAccountRole)
       = ([], Val (Ok rolePrefix)) →
       (∀ roleType, roleType ≠ aws.InstallerAccountRole →
          ∃ roleARNs,
            create_service.aws_FindRoleARNs w roleType
              (GetVersionMinor create_service.version) = Ok roleARNs) →
       (∃ roleType, roleType ≠ aws.InstallerAccountRole ∧
                    resolved w rolePrefix roleType = EmptyString) →
       outcome (run w args) = Exit 1
       ∧ created (trace (run w args)) = []
       ∧ (∀ roleType, roleType ≠ aws.InstallerAccountRole →
                      roleType ∈ lookups (trace (run w args)))
       ∧ (∀ roleType,
            roleType ≠ aws.InstallerAccountRole →
            resolved w rolePrefix roleType = EmptyString →
            "No " +:+ role_Name roleType +:+
            " account roles found. You will need to run 'rosa create account-roles' to create them first."
              ∈ errors (trace (run w args)))
       ∧ ∃ reported,
           errors (trace (run w args))
           = reported ++ ["Please create the above roles to continue"]).
Proof.
  intros Hrange.
  assert (∀ rt, rt ∈ create_service.range_AccountRoles w) as Hin_range.
  { intros rt. rewrite Hrange. unfold all_roles.
    destruct rt; repeat constructor. }
  split; [| split; [| split]].
  - intros roleARN parsedARN before roleName Hp Hres Hno.
    assert (strings.SplitN (arn.Resource parsedARN) "/" 2
            = [before; roleName]) as Hs.
    { rewrite Hres. apply (SplitN_2_found before roleName "/").
      unfold strings.Contains in Hno. apply bool_decide_eq_false in Hno.
      destruct (strings.Index before "/") eqn:E; [| done].
      destruct Hno. by eexists. }
    eexists. split; [apply (getAccountRolePrefix_parsed _ _ _ _ _ _ Hp Hs) |].
    unfold create_service.role_Name. split.
    + intros p ->. apply TrimSuffix_append.
    + apply TrimSuffix_other.
  - intros v rt Hv Hrt Hne.
    destruct (resolveAccountRoles_val w v Hv)
      as [(_ & _ & Hnone)|(rolePrefix & _ & _ & Hp & Hdep)].
    { destruct Hne. by apply Hnone. }
    exists rolePrefix. split; [done |].
    destruct (Hdep rt Hrt (Hin_range rt)) as [Heq _]. rewrite Heq in Hne |- *.
    by apply resolved_role_embeds.
  - intros request Hin%elem_of_created. rewrite created_run in Hin.
    destruct (create_service.ocm_Build w); [| by apply elem_of_nil in Hin].
    destruct (outcome (buildRequest w args)) as [built|c|] eqn:Hb;
      try by apply elem_of_nil in Hin.
    apply list_elem_of_singleton in Hin as ->.
    destruct (buildRequest_roles w args built Hb)
      as (v & Hv & Hh & -> & -> & -> & ->).
    destruct (resolveAccountRoles_complete w v Hv Hh)
      as (rolePrefix & _ & _ & Hp & Hdep).
    exists rolePrefix. split; [done |].
    assert (∀ rt, rt ≠ aws.InstallerAccountRole →
              role_var rt v ∈ found_roles GetVersionMinor w rt ∧
              strings.Contains (role_var rt v)
                (rolePrefix +:+ "-" +:+ role_Name rt +:+ "-Role") = true)
      as Hrt.
    { intros rt Hne. destruct (Hdep rt Hne (Hin_range rt)) as [-> Hr].
      by apply resolved_role_embeds. }
    destruct (Hrt aws.SupportAccountRole ltac:(done)).
    destruct (Hrt aws.ControlPlaneAccountRole ltac:(done)).
    destruct (Hrt aws.WorkerAccountRole ltac:(done)).
    done.
  - intros roleARN rolePrefix HB Hi Hne Hp Hans (bad & Hbad & Hnone).
    pose proof (resolveAccountRoles_loop w roleARN rolePrefix Hi Hne Hp)
      as Hres.
    set (v0 := {| create_service.roleARN := roleARN |}) in Hres.
    destruct (dependent_loop_answered AccountRoles GetVersionMinor w
                rolePrefix (create_service.range_AccountRoles w) v0)
      as ([v Hv] & Hlk & Herr).
    { intros rt _ Hrt. by apply Hans. }
    assert (outcome (resolveAccountRoles w) = Val v) as Hv'.
    { by rewrite Hres, outcome_after. }
    assert (create_service.hasRoles v = false) as Hh.
    { destruct (create_service.hasRoles v) eqn:Hh; [| done].
      destruct (dependent_loop_inv AccountRoles GetVersionMinor _ _ _ _ _ Hv)
        as (_ & _ & H3 & _).
      destruct (H3 bad Hbad (Hin_range bad)) as [_ Hr]. by destruct Hr. }
    split; [by rewrite (run_incomplete w args v HB Hv' Hh) |].
    split.
    { rewrite created_run, HB.
      by rewrite (buildRequest_incomplete w args v Hv' Hh). }
    rewrite (run_incomplete w args v HB Hv' Hh). unfold trace at 1 3 5.
    cbn [fst]. rewrite Hres, trace_after.
    split; [| split].
    + intros rt Hrt. change (lookups (Build :: ?t)) with (lookups t).
      rewrite !lookups_app, Hlk, !elem_of_app. left. right.
      apply list_elem_of_filter. split; [done | apply Hin_range].
    + intros rt Hrt Hr. change (errors (Build :: ?t)) with (errors t).
      rewrite !errors_app, Herr, !elem_of_app. left. right.
      apply list_elem_of_fmap. exists rt. split; [done |].
      apply list_elem_of_filter. split; [done | apply Hin_range].
    + eexists. change (errors (Build :: ?t)) with (errors t).
      by rewrite (errors_app _ [Errorf _]).
Qed.

End workflow_facts.

(** The hypothesis of C1 holds of the sample world, whose request carries
    four role ARNs. *)
Lemma C1_roles_resolved_before_create_witness :
  Forall (λ request,
            ocm.AwsRoleARN request ≠ EmptyString
            ∧ ocm.AwsSupportRoleARN request ≠ EmptyString
            ∧ ocm.AwsControlPlaneRoleARN request ≠ EmptyString
            ∧ ocm.AwsWorkerRoleARN request ≠ EmptyString)
    (created (trace (sample.invoke sample.world)))
  ∧ length (created (trace (sample.invoke sample.world))) = 1.
Proof.
  split; [| by vm_compute].
  apply Forall_forall. intros request Hin%elem_of_created.
  apply (C1_roles_resolved_before_create sample.DefaultPrefix
           sample.AccountRoles sample.CredentialRequests
           sample.GetVersionMinor sample.CheckSupportedVersion
           sample.arn_Parse sample.world
           (create_service.args_at_entry sample.world)).
  - reflexivity.
  - exact Hin.
Defined.

(** An account in which no role of the support category is under the
    prefix of the installer role. *)
Lemma C4_dependent_roles_witness :
  outcome
    (sample.invoke
       (sample.with_roles
          (λ roleType,
             match roleType with
             | aws.SupportAccountRole =>
                 Ok [sample.role_arn "Mine-Support-Role"]
             | _ => create_service.aws_FindRoleARNs sample.world roleType
                      "4.9"
             end)
          all_roles sample.world))
  = Exit 1.
Proof.
  set (w := sample.with_roles _ _ _).
  destruct (C4_dependent_roles sample.DefaultPrefix sample.AccountRoles
              sample.CredentialRequests sample.GetVersionMinor
              sample.CheckSupportedVersion sample.arn_Parse w
              (create_service.args_at_entry w) ltac:(reflexivity))
    as (_ & _ & _ & Habort).
  apply (Habort (sample.role_arn "ManagedOpenShift-Installer-Role")
           "ManagedOpenShift").
  - reflexivity.
  - reflexivity.
  - done.
  - reflexivity.
  - intros roleType _. destruct roleType; eexists; reflexivity.
  - exists aws.SupportAccountRole. split; [done | reflexivity].
Defined.

(** C4, as stated, fails: the support category has no ARN
    under the prefix, the lookup of the control-plane category fails, and
    the command exits before the worker category is looked up. *)
Lemma C4_counterexample :
  let w :=
    sample.with_roles
      (λ roleType,
         match roleType with
         | aws.SupportAccountRole => Ok []
         | aws.ControlPlaneAccountRole => Err "Throttling"
         | _ => create_service.aws_FindRoleARNs sample.world roleType "4.9"
         end)
      all_roles sample.world in
  let r := sample.invoke w in
  (create_service.range_AccountRoles w ≡ₚ all_roles)
  ∧ resolved_role sample.AccountRoles sample.GetVersionMinor w
      "ManagedOpenShift" aws.SupportAccountRole = EmptyString
  ∧ outcome r = Exit 1
  ∧ lookups (trace r)
    = [aws.InstallerAccountRole; aws.SupportAccountRole;
       aws.ControlPlaneAccountRole]
  ∧ (aws.WorkerAccountRole ∉ lookups (trace r))
  ∧ errors (trace r)
    = [ "No Support account roles found. You will need to run 'rosa create account-roles' to create them first.";
        "Failed to find ControlPlane role: Throttling" ].
Proof.
  cbv zeta. split; [reflexivity |]. split; [reflexivity |].
  split; [by vm_compute |].
  assert (lookups (trace (sample.invoke
            (sample.with_roles
               (λ roleType,
                  match roleType with
                  | aws.SupportAccountRole => Ok []
                  | aws.ControlPlaneAccountRole => Err "Throttling"
                  | _ => create_service.aws_FindRoleARNs sample.world
                           roleType "4.9"
                  end)
               all_roles sample.world)))
          = [aws.InstallerAccountRole; aws.SupportAccountRole;
             aws.ControlPlaneAccountRole]) as Hl by (by vm_compute).
  split; [exact Hl |]. split; [| by vm_compute].
  rewrite Hl. intros H. repeat (apply elem_of_cons in H as [H|H]; [done |]).
  by apply elem_of_nil in H.
Qed.

(** ** The add-on parameters *)

Section parameter_facts.

Implicit Types flags m : gmap string string.
Implicit Types params : list cmv1.AddOnParameter.

Lemma copyParameters_allocated flags params m :
  create_service.copyParameters flags params (Some m)
  = ([], Val (Some (copied flags params m))).
Proof.
  unfold create_service.copyParameters. revert m.
  induction params as [|param params IH]; intros m; [done |].
  rewrite for_range_cons. simpl copied.
  destruct (flags !! cmv1.ID param) as [value|]; simpl map_store.
  - by rewrite ret_bind, IH.
  - by rewrite ret_bind, IH.
Qed.

(** With an allocated map, the copy would do what the design document
    says: the value of the flag under each parameter ID that names a flag,
    and nothing else changed. *)
Lemma copied_lookup flags params m (k : string) :
  copied flags params m !! k
  = if decide (k ∈ cmv1.ID <$> params)
    then match flags !! k with Some value => Some value | None => m !! k end
    else m !! k.
Proof.
  revert m. induction params as [|param params IH]; intros m; [done |].
  simpl copied. rewrite IH, fmap_cons.
  destruct (decide (k = cmv1.ID param)) as [->|Hk].
  - rewrite (decide_True (P := _ ∈ _ :: _)) by (by left).
    destruct (flags !! cmv1.ID param) as [value|] eqn:Hf.
    + rewrite lookup_insert_eq. by case_decide.
    + by case_decide.
  - assert ((match flags !! cmv1.ID param with
             | Some value => <[cmv1.ID param := value]> m
             | None => m
             end) !! k = m !! k) as ->.
    { destruct (flags !! cmv1.ID param); [| done].
      by rewrite lookup_insert_ne. }
    destruct (decide (k ∈ cmv1.ID <$> params)) as [Hin|Hin].
    + by rewrite decide_True by (by right).
    + rewrite decide_False; [done |]. by intros [?|?]%elem_of_cons.
Qed.

(** On the nil map, the first parameter that names a registered flag ends
    the command in a panic. *)
Lemma copyParameters_nil flags params :
  create_service.copyParameters flags params None
  = ([], if decide (Exists (λ param, is_Some (flags !! cmv1.ID param)) params)
         then Panic else Val None).
Proof.
  unfold create_service.copyParameters.
  induction params as [|param params IH].
  - rewrite decide_False; [done |]. by intros ?%Exists_nil.
  - rewrite for_range_cons.
    destruct (flags !! cmv1.ID param) as [value|] eqn:Hf; simpl map_store.
    + rewrite panic_bind, decide_True; [done |].
      apply Exists_cons_hd. by rewrite Hf.
    + rewrite ret_bind, IH. f_equal.
      destruct (decide (Exists _ params)) as [He|Hn].
      * rewrite decide_True; [done |]. by apply Exists_cons_tl.
      * rewrite decide_False; [done |].
        intros [Hs|He]%Exists_cons; [| done].
        rewrite Hf in Hs. by destruct Hs.
Qed.

(** A failed add-on lookup is reported, and the command goes on. *)
Lemma fetchParameters_failed (w : create_service.World)
    (args : ocm.CreateManagedServiceArgs) (e : string) :
  create_service.ocm_GetAddOn w (ocm.ServiceName args) = (None, Some e) →
  create_service.fetchParameters w args
  = ([GetAddOn (ocm.ServiceName args);
      Errorf ("Failed to process service parameters: " +:+ e)],
     Val (ocm.Parameters args)).
Proof.
  intros H. unfold create_service.fetchParameters. rewrite H.
  simpl cmv1.Parameters. by steps.
Qed.

(** The command enters the copy with the nil map: a parameter that names
    a registered flag ends it in a panic. *)
Lemma fetchParameters_nil_map (w : create_service.World)
    (args : ocm.CreateManagedServiceArgs) (addOn : cmv1.AddOn)
    (err : option string) params :
  create_service.ocm_GetAddOn w (ocm.ServiceName args) = (Some addOn, err) →
  cmv1.AddOn_parameters addOn = Some params →
  ocm.Parameters args = None →
  Exists (λ param, is_Some (create_service.Flags w !! cmv1.ID param)) params →
  outcome (create_service.fetchParameters w args) = Panic.
Proof.
  intros H Hp Hnil Hex. unfold create_service.fetchParameters.
  rewrite H, Hnil. simpl cmv1.Parameters. rewrite Hp.
  rewrite copyParameters_nil, decide_True by done.
  rewrite emit_bind, outcome_after. destruct err; by steps.
Qed.

End parameter_facts.

(** C2 at work.  The add-on lookup fails and every other step succeeds:
    the failure is reported, and the command goes on to submit the create
    request, prints the follow-up commands and returns. *)
Theorem C2_addon_lookup_failure_goes_on :
  let w := sample.with_addon (None, Some "add-on not found") sample.world in
  let r := sample.invoke w in
  errors (trace r)
  = ["Failed to process service parameters: add-on not found"]
  ∧ (∃ before request after,
       trace r
       = before
           ++ Errorf "Failed to process service parameters: add-on not found"
           :: CreateManagedService request :: after)
  ∧ ∃ args, outcome r = Val args.
Proof.
  cbv zeta. split; [by vm_compute |]. split.
  - eexists (_ :: _ :: _ :: _ :: _ :: _ :: _ :: _ :: _ :: _ :: _ :: _ :: _
               :: _ :: _ :: []), _, _.
    vm_compute. reflexivity.
  - eexists. vm_compute. reflexivity.
Qed.

(** C8 at work.  The add-on has a parameter named like the flag
    [clusterName]: the copy writes to [args.Parameters], which is the nil
    map, and the command ends in a panic; no request is submitted. *)
Theorem C8_parameter_copy_panics :
  let w :=
    sample.with_addon
      (Some {| cmv1.AddOn_parameters :=
                 Some [ {| cmv1.ID := "clusterName" |} ] |},
       None)
      sample.world in
  let r := sample.invoke w in
  create_service.Flags w !! "clusterName" = Some "c1"
  ∧ ocm.Parameters (create_service.args_at_entry w) = None
  ∧ outcome r = Panic
  ∧ created (trace r) = [].
Proof. cbv zeta. repeat split; by vm_compute. Qed.

(** ** How the commands end *)

Section exit_facts.

Lemma reported_exit_ret {A : Type} (a : A) : reported_exit (mret a).
Proof. by intros c. Qed.

Lemma reported_exit_panic {A : Type} : reported_exit (panic (A := A)).
Proof. by intros c. Qed.

Lemma reported_exit_emit (e : event) : reported_exit (emit e).
Proof. by intros c. Qed.

Lemma reported_exit_error {A : Type} (msg : string) :
  reported_exit (emit (Errorf msg) ≫= λ _, os_Exit (A := A) 1).
Proof. intros c [= <-]. split; [done |]. by exists [], msg. Qed.

Lemma reported_exit_bind {A B : Type} (m : M A) (f : A → M B) :
  reported_exit m → (∀ a, reported_exit (f a)) → reported_exit (m ≫= f).
Proof.
  intros Hm Hf c. rewrite bind_outcome, bind_trace.
  destruct (outcome m) as [a|c'|] eqn:Hom; [| | done].
  - intros H. destruct (Hf a c H) as (-> & t & msg & ->).
    split; [done |]. exists (trace m ++ t), msg. by rewrite (assoc_L (++)).
  - intros [= ->]. destruct (Hm c Hom) as (-> & t & msg & ->).
    split; [done |]. exists t, msg. by rewrite app_nil_r.
Qed.

Lemma reported_exit_or_exit {A : Type} (call : event) (r : result A)
    (msg : string → string) :
  reported_exit (or_exit call r msg).
Proof.
  destruct r as [a|e]; [by intros c |].
  rewrite or_exit_Err. intros c [= <-]. split; [done |].
  by exists [call], (msg e).
Qed.

Lemma reported_exit_at_index {A : Type} (l : list A) (i : nat) :
  reported_exit (at_index l i).
Proof. unfold at_index. by destruct (l !! i); intros c. Qed.

Lemma reported_exit_when (b : bool) (m : M unit) :
  reported_exit m → reported_exit (when b m).
Proof. destruct b; [done | by intros _ c]. Qed.

Lemma reported_exit_for_range {A S : Type} (l : list A) (body : A → S → M S)
    (s : S) :
  (∀ x s, reported_exit (body x s)) → reported_exit (for_range l body s).
Proof.
  intros Hb. revert s. induction l as [|x l IH]; intros s; [by intros c |].
  rewrite for_range_cons. by apply reported_exit_bind.
Qed.

Lemma reported_exit_with_defer {A : Type} (m : M A) (d : M unit) :
  reported_exit m → reported_exit (with_defer m d).
Proof.
  intros Hm c. unfold with_defer, outcome, trace.
  destruct m as [t [a|c'|]]; simpl; [done | | done].
  intros [= ->]. exact (Hm c eq_refl).
Qed.

End exit_facts.

Ltac exit_tac :=
  repeat first
    [ progress intros
    | apply reported_exit_ret | apply reported_exit_panic
    | apply reported_exit_error
    | apply reported_exit_emit
    | apply reported_exit_or_exit
    | apply reported_exit_at_index
    | apply reported_exit_when
    | apply reported_exit_for_range
    | apply reported_exit_with_defer
    | apply reported_exit_bind
    | match goal with
      | |- reported_exit (match ?x with _ => _ end) => destruct x
      end ].

Section exit_status.

Variable DefaultPrefix : string.
Variable AccountRoles : aws.RoleType → aws.AccountRole.
Variable CredentialRequests : list aws.Operator.
Variable GetVersionMinor : string → string.
Variable CheckSupportedVersion : string → string → result bool.
Variable arn_Parse : string → result arn.ARN.

#[local] Abbreviation run :=
  (create_service.run DefaultPrefix AccountRoles CredentialRequests
     GetVersionMinor CheckSupportedVersion arn_Parse).

(** X1. Whenever [create service] leaves through [os.Exit], the status is
    1 and the last thing the command did was to report an error; the list
    command does the same. *)
Theorem X1_exit_is_reported_with_status_1 :
  (∀ (w : create_service.World) (args : ocm.CreateManagedServiceArgs) c,
     outcome (run w args) = Exit c →
     c = 1 ∧ ∃ t msg, trace (run w args) = t ++ [Errorf msg])
  ∧ (∀ (w : list_service.World) c,
       outcome (list_service.run w) = Exit c →
       c = 1 ∧ ∃ t msg, trace (list_service.run w) = t ++ [Errorf msg]).
Proof.
  split.
  - intros w args.
    change (reported_exit (run w args)).
    unfold create_service.run, create_service.run_body,
      create_service.buildRequest, create_service.submitRequest,
      create_service.resolveAccountRoles, create_service.findInstallerRole,
      create_service.getAccountRolePrefix, create_service.findDependentRole,
      create_service.operatorRoles, create_service.appendOperatorRole,
      create_service.validateRoleNames, create_service.validateRoleName,
      create_service.fetchParameters, create_service.copyParameters,
      map_store.
    exit_tac.
  - intros w.
    change (reported_exit (list_service.run w)).
    unfold list_service.run, list_service.run_body. exit_tac.
Qed.

#[local] Abbreviation run_body :=
  (create_service.run_body DefaultPrefix AccountRoles CredentialRequests
     GetVersionMinor CheckSupportedVersion arn_Parse).

Lemma run_body_events (w : create_service.World)
    (args : ocm.CreateManagedServiceArgs) :
  only body_event (run_body w args).
Proof.
  unfold create_service.run_body,
    create_service.buildRequest, create_service.submitRequest,
    create_service.resolveAccountRoles, create_service.findInstallerRole,
    create_service.getAccountRolePrefix, create_service.findDependentRole,
    create_service.operatorRoles, create_service.appendOperatorRole,
    create_service.validateRoleNames, create_service.validateRoleName,
    create_service.fetchParameters, create_service.copyParameters,
    map_store.
  only_tac.
Qed.

Lemma run_body_no_close (w : create_service.World)
    (args : ocm.CreateManagedServiceArgs) :
  Close ∉ trace (run_body w args).
Proof.
  intros Hin. pose proof (run_body_events w args) as H.
  unfold only in H. rewrite Forall_forall in H. exact (H _ Hin).
Qed.

(** X2. The connection to OCM is closed when [create service] returns or
    panics, as the last thing it does, and once; it is not closed when the
    command leaves through [os.Exit].  A close that fails is reported and
    changes nothing to the way the command ends. *)
Theorem X2_close_discipline (w : create_service.World)
    (args : ocm.CreateManagedServiceArgs) :
  (∀ c, outcome (run w args) = Exit c → Close ∉ trace (run w args))
  ∧ ((∀ c, outcome (run w args) ≠ Exit c) →
     ∃ t, trace (run w args)
          = t ++ Close
              :: match create_service.ocm_Close w with
                 | Ok _ => []
                 | Err e => [Errorf ("Failed to close OCM connection: " +:+ e)]
                 end
          ∧ Close ∉ t)
  ∧ outcome (run w args)
    = match create_service.ocm_Build w with
      | Ok _ => outcome (run_body w args)
      | Err _ => Exit 1
      end.
Proof.
  pose proof (run_body_no_close w args) as Hnc.
  unfold create_service.run.
  destruct (create_service.ocm_Build w) as [[]|e].
  2: { rewrite or_exit_Err, bind_exit. split; [| split; [| done]].
       - intros c _ Hin. unfold trace in Hin. simpl in Hin.
         by repeat (apply elem_of_cons in Hin as [?|Hin]; [done |]);
           apply elem_of_nil in Hin.
       - intros H. by destruct (H 1). }
  rewrite or_exit_Ok, bind_val.
  fold (create_service.run_body DefaultPrefix AccountRoles CredentialRequests
          GetVersionMinor CheckSupportedVersion arn_Parse w args).
  destruct (run_body w args) as [t [a|c|]] eqn:Hb; unfold trace in Hnc;
    simpl in Hnc.
  - rewrite with_defer_val, close_connection_trace, after_pair.
    split; [done |]. split; [| done]. intros _.
    exists ([Build] ++ t). split; [by rewrite <- (assoc_L (++)) |].
    intros [Hin|Hin]%elem_of_app; [| done].
    by apply list_elem_of_singleton in Hin.
  - rewrite with_defer_exit, after_pair. split; [| split; [| done]].
    + intros c' _ [Hin|Hin]%elem_of_app; [| done].
      by apply list_elem_of_singleton in Hin.
    + intros H. by destruct (H c).
  - rewrite with_defer_panic, close_connection_trace, after_pair.
    split; [done |]. split; [| done]. intros _.
    exists ([Build] ++ t). split; [by rewrite <- (assoc_L (++)) |].
    intros [Hin|Hin]%elem_of_app; [| done].
    by apply list_elem_of_singleton in Hin.
Qed.

End exit_status.

(** The hypothesis of X1 holds of an account without installer role. *)
Lemma X1_exit_is_reported_with_status_1_witness :
  ∃ t msg,
    trace (sample.invoke
             (sample.with_roles (λ _, Ok []) all_roles sample.world))
    = t ++ [Errorf msg].
Proof.
  set (w := sample.with_roles _ _ _).
  apply (proj1 (X1_exit_is_reported_with_status_1 sample.DefaultPrefix
                  sample.AccountRoles sample.CredentialRequests
                  sample.GetVersionMinor sample.CheckSupportedVersion
                  sample.arn_Parse)
           w (create_service.args_at_entry w) 1).
  reflexivity.
Defined.

(** The sample world returns, and a world without roles exits. *)
Lemma X2_close_discipline_witness :
  last (trace (sample.invoke sample.world)) = Some Close
  ∧ Close ∉ trace (sample.invoke
                     (sample.with_roles (λ _, Ok []) all_roles sample.world)).
Proof.
  split.
  - destruct (X2_close_discipline sample.DefaultPrefix sample.AccountRoles
                sample.CredentialRequests sample.GetVersionMinor
                sample.CheckSupportedVersion sample.arn_Parse sample.world
                (create_service.args_at_entry sample.world))
      as (_ & Hret & _).
    destruct Hret as (t & Ht & _); [by vm_compute |].
    unfold sample.invoke, create_service.Cmd_Run. rewrite Ht.
    apply last_snoc.
  - set (w := sample.with_roles _ _ _).
    apply (proj1 (X2_close_discipline sample.DefaultPrefix sample.AccountRoles
                    sample.CredentialRequests sample.GetVersionMinor
                    sample.CheckSupportedVersion sample.arn_Parse w
                    (create_service.args_at_entry w)) 1).
    reflexivity.
Defined.

(** ** More on the resolution of the account roles *)

Section role_extras.

Variable DefaultPrefix : string.
Variable AccountRoles : aws.RoleType → aws.AccountRole.
Variable CredentialRequests : list aws.Operator.
Variable GetVersionMinor : string → string.
Variable CheckSupportedVersion : string → string → result bool.
Variable arn_Parse : string → result arn.ARN.

#[local] Abbreviation role_Name := (create_service.role_Name AccountRoles).
#[local] Abbreviation minor := (GetVersionMinor create_service.version).
#[local] Abbreviation findInstallerRole :=
  (create_service.findInstallerRole DefaultPrefix AccountRoles GetVersionMinor).
#[local] Abbreviation findDependentRole :=
  (create_service.findDependentRole AccountRoles GetVersionMinor).
#[local] Abbreviation getAccountRolePrefix :=
  (create_service.getAccountRolePrefix arn_Parse).
#[local] Abbreviation resolveAccountRoles :=
  (create_service.resolveAccountRoles DefaultPrefix AccountRoles
     GetVersionMinor arn_Parse).
#[local] Abbreviation buildRequest :=
  (create_service.buildRequest DefaultPrefix AccountRoles CredentialRequests
     GetVersionMinor CheckSupportedVersion arn_Parse).
#[local] Abbreviation run :=
  (create_service.run DefaultPrefix AccountRoles CredentialRequests
     GetVersionMinor CheckSupportedVersion arn_Parse).

Implicit Types w : create_service.World.
Implicit Types v : create_service.RoleVars.


(** X4. The role prefix is computed without any message.  It fails
    exactly when the ARN does not parse, with the error of the parser; it
    panics exactly when the ARN parses and its resource holds no slash;
    and a prefix that it returns is the role name, or the role name
    without its ending [-<RoleName>-Role]. *)
Theorem X4_role_prefix_outcomes (roleARN : string) (role : aws.AccountRole) :
  trace (getAccountRolePrefix roleARN role) = []
  ∧ (outcome (getAccountRolePrefix roleARN role) = Panic ↔
     ∃ parsedARN, arn_Parse roleARN = Ok parsedARN ∧
                  strings.Contains (arn.Resource parsedARN) "/" = false)
  ∧ (∀ e, outcome (getAccountRolePrefix roleARN role) = Val (Err e) ↔
          arn_Parse roleARN = Err e)
  ∧ (∀ rolePrefix,
       outcome (getAccountRolePrefix roleARN role) = Val (Ok rolePrefix) →
       ∃ parsedARN before roleName,
         arn_Parse roleARN = Ok parsedARN
         ∧ strings.SplitN (arn.Resource parsedARN) "/" 2
           = [before; roleName]
         ∧ (roleName = rolePrefix
            ∨ roleName
              = rolePrefix +:+ "-" +:+ aws.AccountRole_Name role +:+ "-Role")).
Proof.
  split; [apply getAccountRolePrefix_trace |].
  destruct (arn_Parse roleARN) as [parsedARN|e] eqn:Hp.
  2: { rewrite (getAccountRolePrefix_unparsed _ _ _ _ Hp).
       split; [| split].
       - split; [done |]. by intros (? & ? & _).
       - intros e'. unfold outcome. simpl. split; congruence.
       - by intros p. }
  destruct (strings.Contains (arn.Resource parsedARN) "/") eqn:Hc.
  2: { rewrite (getAccountRolePrefix_no_slash _ _ _ _ Hp Hc).
       split; [| split].
       - split; [| done]. intros _. by exists parsedARN.
       - by intros e.
       - by intros p. }
  pose proof (SplitN_2_length (arn.Resource parsedARN) "/") as Hlen.
  rewrite Hc in Hlen.
  destruct (strings.SplitN (arn.Resource parsedARN) "/" 2)
    as [|before [|roleName [|]]] eqn:Hs; try done.
  rewrite (getAccountRolePrefix_parsed _ _ _ _ _ _ Hp Hs).
  unfold outcome. simpl. split; [| split].
  - split; [done |]. intros (p' & [= <-] & ?). congruence.
  - by intros e.
  - intros p [= <-]. exists parsedARN, before, roleName.
    split; [done |]. split; [done |].
    destruct (strings.HasSuffix roleName
                ("-" +:+ aws.AccountRole_Name role +:+ "-Role")) eqn:Hsuf.
    + right. apply HasSuffix_spec in Hsuf as [a ->].
      by rewrite TrimSuffix_append.
    + left. by rewrite TrimSuffix_other.
Qed.

(** X5. With an output flag set and a reporter that is not a terminal,
    the role stage prints no [Infof] message: the ARNs that it goes on with
    are not announced. *)
Theorem X5_role_stage_is_quiet w :
  create_service.output_HasFlag w = true →
  create_service.reporter_IsTerminal w = false →
  ∀ msg, Infof msg ∉ trace (resolveAccountRoles w).
Proof.
  intros Hf Ht msg Hin.
  assert (only not_info (resolveAccountRoles w)) as H.
  { unfold create_service.resolveAccountRoles,
      create_service.findInstallerRole, create_service.getAccountRolePrefix,
      create_service.findDependentRole.
    rewrite Hf, Ht. cbn [negb orb when]. only_tac. }
  unfold only in H. rewrite Forall_forall in H. exact (H _ Hin).
Qed.

Lemma lookups_findInstallerRole w :
  lookups (trace (findInstallerRole w)) = [aws.InstallerAccountRole].
Proof.
  destruct (create_service.aws_FindRoleARNs w aws.InstallerAccountRole minor)
    as [[|first [|second rest]]|e] eqn:Hf.
  - by rewrite (findInstallerRole_none _ _ _ _ Hf).
  - rewrite (findInstallerRole_one _ _ _ _ _ Hf). unfold trace. simpl.
    by destruct (negb _ || _).
  - by rewrite (findInstallerRole_many _ _ _ _ _ _ _ Hf).
  - by rewrite (findInstallerRole_failed _ _ _ _ _ Hf).
Qed.

Lemma lookups_not_lookup (t : list event) :
  Forall not_lookup t → lookups t = [].
Proof.
  induction 1 as [|e t He _ IH]; [done |].
  destruct e; try exact IH. destruct He.
Qed.

Lemma lookups_dependent_loop w (rolePrefix : string)
    (l : list aws.RoleType) v0 :
  lookups (trace (for_range l (findDependentRole w rolePrefix) v0))
    `prefix_of` filter (λ rt, rt ≠ aws.InstallerAccountRole) l.
Proof.
  revert v0. induction l as [|x l IH]; intros v0; [done |].
  rewrite for_range_cons.
  destruct (decide (x = aws.InstallerAccountRole)) as [->|Hx].
  { rewrite findDependentRole_installer, bind_val, after_nil.
    rewrite filter_cons_False by (intros ?; congruence). apply IH. }
  rewrite filter_cons_True by done.
  destruct (create_service.aws_FindRoleARNs w x minor) as [roleARNs|e]
    eqn:Hfind.
  - rewrite (findDependentRole_answered _ _ _ _ _ _ _ Hx Hfind).
    cbv zeta. rewrite bind_val, trace_after.
    change (lookups ((FindRoleARNs x minor :: ?t1) ++ ?t2))
      with (x :: lookups (t1 ++ t2)).
    apply prefix_cons.
    rewrite !lookups_app.
    assert (∀ t1 t2 : list event,
              Forall not_lookup t1 → Forall not_lookup t2 →
              lookups t1 ++ lookups t2 = []) as Hnil.
    { intros t1 t2 H1 H2.
      by rewrite (lookups_not_lookup t1 H1), (lookups_not_lookup t2 H2). }
    rewrite Hnil; [apply IH | |].
    + destruct (String.eqb _ _); by repeat constructor.
    + destruct (negb _ || _); by repeat constructor.
  - rewrite (findDependentRole_failed _ _ _ _ _ _ _ Hx Hfind), bind_exit.
    apply (prefix_cons x []), prefix_nil.
Qed.

Lemma lookups_resolveAccountRoles w :
  lookups (trace (resolveAccountRoles w))
    `prefix_of` aws.InstallerAccountRole
                :: filter (λ rt, rt ≠ aws.InstallerAccountRole)
                     (create_service.range_AccountRoles w).
Proof.
  unfold create_service.resolveAccountRoles.
  rewrite bind_trace, lookups_app, lookups_findInstallerRole.
  apply prefix_cons.
  destruct (outcome (findInstallerRole w)) as [roleARN|c|];
    [| apply prefix_nil..].
  destruct (String.eqb roleARN EmptyString); [apply prefix_nil |].
  rewrite bind_trace, lookups_app, getAccountRolePrefix_trace.
  destruct (outcome (getAccountRolePrefix roleARN _)) as [[rolePrefix|e]|c|];
    try apply prefix_nil.
  rewrite emit_bind, trace_after. apply lookups_dependent_loop.
Qed.

Lemma lookups_run w (args : ocm.CreateManagedServiceArgs) :
  lookups (trace (run w args))
  = match create_service.ocm_Build w with
    | Ok _ => lookups (trace (resolveAccountRoles w))
    | Err _ => []
    end.
Proof.
  unfold create_service.run.
  destruct (create_service.ocm_Build w) as [[]|e]; [| done].
  rewrite or_exit_Ok, bind_val, trace_after.
  change (lookups ([Build] ++ ?t)) with (lookups t).
  assert (∀ (m : M ocm.CreateManagedServiceArgs),
            lookups (trace (with_defer m
                              (close_connection create_service.ocm_Close w)))
            = lookups (trace m)) as Hd.
  { intros [t [a|c|]]; unfold with_defer, trace; simpl; [| done |];
      rewrite lookups_app; destruct (create_service.ocm_Close w);
      by rewrite app_nil_r. }
  rewrite Hd. unfold create_service.run_body, create_service.buildRequest.
  rewrite bind_trace, lookups_app, bind_trace, lookups_app.
  rewrite <- (app_nil_r (lookups (trace (resolveAccountRoles w)))) at 2.
  rewrite <- (assoc_L (++)). f_equal.
  match goal with
  | |- lookups ?t1 ++ lookups ?t2 = [] =>
      assert (Forall not_lookup t1) as H1; [| assert (Forall not_lookup t2) as H2]
  end.
  - destruct (outcome (resolveAccountRoles w)) as [v|c|]; [| constructor..].
    change (Forall not_lookup (trace ?m)) with (only not_lookup m).
    unfold create_service.operatorRoles, create_service.appendOperatorRole,
      create_service.validateRoleNames, create_service.validateRoleName,
      create_service.fetchParameters, create_service.copyParameters,
      map_store.
    only_tac.
  - match goal with
    | |- Forall _ (match ?o with _ => _ end) => destruct o as [a|c|]
    end; [| constructor..].
    change (only not_lookup (create_service.submitRequest w a)).
    unfold create_service.submitRequest. only_tac.
  - by rewrite (lookups_not_lookup _ H1), (lookups_not_lookup _ H2).
Qed.

(** X6. The role categories are looked up in a fixed order: the installer
    category first, then the other categories in the order of the range,
    up to the first lookup that fails or to the point where the command
    stops; no category is looked up twice when the range yields none
    twice. *)
Theorem X6_lookup_order w (args : ocm.CreateManagedServiceArgs) :
  lookups (trace (run w args))
    `prefix_of` aws.InstallerAccountRole
                :: filter (λ rt, rt ≠ aws.InstallerAccountRole)
                     (create_service.range_AccountRoles w)
  ∧ (NoDup (create_service.range_AccountRoles w) →
     NoDup (lookups (trace (run w args)))).
Proof.
  assert (lookups (trace (run w args))
            `prefix_of` aws.InstallerAccountRole
                        :: filter (λ rt, rt ≠ aws.InstallerAccountRole)
                             (create_service.range_AccountRoles w)) as Hp.
  { rewrite lookups_run. destruct (create_service.ocm_Build w);
      [apply lookups_resolveAccountRoles | apply prefix_nil]. }
  split; [exact Hp |]. intros Hnd. destruct Hp as [k Hk].
  assert (NoDup (aws.InstallerAccountRole
                 :: filter (λ rt, rt ≠ aws.InstallerAccountRole)
                      (create_service.range_AccountRoles w))) as H.
  { apply NoDup_cons. split; [| by apply NoDup_filter].
    by intros [? _]%list_elem_of_filter. }
  rewrite Hk in H. by apply NoDup_app in H as [? _].
Qed.

End role_extras.

(** ** More on the operator roles and on the request *)

Section loops.

Lemma for_range_app {A S : Type} (l1 l2 : list A) (body : A → S → M S)
    (s : S) :
  for_range (l1 ++ l2) body s = for_range l1 body s ≫= for_range l2 body.
Proof.
  revert s. induction l1 as [|x l1 IH]; intros s.
  - by rewrite for_range_nil, bind_val, after_nil.
  - rewrite <- app_comm_cons, !for_range_cons.
    destruct (body x s) as [t [a|c|]]; [| done..].
    by rewrite !bind_val, IH, after_bind.
Qed.

Lemma or_exit_outcome {A : Type} (call : event) (r : result A)
    (msg : string → string) :
  outcome (or_exit call r msg)
  = match r with Ok a => Val a | Err _ => Exit 1 end.
Proof. by destruct r. Qed.

Lemma validations_app (t1 t2 : list event) :
  validations (t1 ++ t2) = validations t1 ++ validations t2.
Proof. apply omap_app. Qed.

Lemma validations_not_validation (t : list event) :
  Forall not_validation t → validations t = [].
Proof.
  induction 1 as [|e t He _ IH]; [done |].
  destruct e; try exact IH. destruct He.
Qed.

End loops.

Section request_extras.

Variable DefaultPrefix : string.
Variable AccountRoles : aws.RoleType → aws.AccountRole.
Variable CredentialRequests : list aws.Operator.
Variable GetVersionMinor : string → string.
Variable CheckSupportedVersion : string → string → result bool.
Variable arn_Parse : string → result arn.ARN.

#[local] Abbreviation operatorRoles :=
  (create_service.operatorRoles CredentialRequests GetVersionMinor
     CheckSupportedVersion).
#[local] Abbreviation appendOperatorRole :=
  (create_service.appendOperatorRole GetVersionMinor CheckSupportedVersion).
#[local] Abbreviation resolveAccountRoles :=
  (create_service.resolveAccountRoles DefaultPrefix AccountRoles
     GetVersionMinor arn_Parse).
#[local] Abbreviation buildRequest :=
  (create_service.buildRequest DefaultPrefix AccountRoles CredentialRequests
     GetVersionMinor CheckSupportedVersion arn_Parse).
#[local] Abbreviation run :=
  (create_service.run DefaultPrefix AccountRoles CredentialRequests
     GetVersionMinor CheckSupportedVersion arn_Parse).

Implicit Types w : create_service.World.
Implicit Types args request : ocm.CreateManagedServiceArgs.

Lemma appendOperatorRole_failed (prefix : string) (creator : aws.Creator)
    (op : aws.Operator) (acc : list ocm.OperatorIAMRole) (e : string) :
  aws.Operator_MinVersion op ≠ EmptyString →
  CheckSupportedVersion (GetVersionMinor create_service.version)
    (aws.Operator_MinVersion op) = Err e →
  appendOperatorRole prefix creator op acc
  = ([Errorf ("Error validating operator role '" +:+ aws.Operator_Name op +:+
              "' version " +:+ e)], Exit 1).
Proof.
  intros Hv%String.eqb_neq He. unfold create_service.appendOperatorRole.
  rewrite Hv, He. by steps.
Qed.

(** X7. When the version check of a required operator fails, and the
    checks of the operators before it did not, the command reports the
    name of that operator with the error and exits with status 1: no
    operator role list is produced. *)
Theorem X7_version_check_failure (prefix : string) (creator : aws.Creator)
    (l1 l2 : list aws.Operator) (op : aws.Operator) (e : string) :
  CredentialRequests = l1 ++ op :: l2 →
  (∀ o, o ∈ l1 → aws.Operator_MinVersion o ≠ EmptyString →
        ∃ b, CheckSupportedVersion (GetVersionMinor create_service.version)
               (aws.Operator_MinVersion o) = Ok b) →
  aws.Operator_MinVersion op ≠ EmptyString →
  CheckSupportedVersion (GetVersionMinor create_service.version)
    (aws.Operator_MinVersion op) = Err e →
  operatorRoles prefix creator
  = ([Errorf ("Error validating operator role '" +:+ aws.Operator_Name op +:+
              "' version " +:+ e)], Exit 1).
Proof.
  intros Hl Hok Hv He. unfold create_service.operatorRoles.
  rewrite Hl, for_range_app.
  rewrite (operator_loop_total GetVersionMinor CheckSupportedVersion _ _ l1)
    by done.
  rewrite bind_val, after_nil, for_range_cons.
  by rewrite (appendOperatorRole_failed _ _ _ _ _ Hv He).
Qed.

Lemma validateRoleName_named w (role : ocm.OperatorIAMRole) (name : string) :
  validated_name role = Some name →
  create_service.validateRoleName w role tt
  = or_exit (ValidateRoleNameAvailable name)
      (create_service.aws_ValidateRoleNameAvailable w name)
      (λ e, "Error validating role: " +:+ e).
Proof.
  unfold validated_name, create_service.validateRoleName, at_index.
  intros ->. by rewrite ret_bind.
Qed.

Lemma validateRoleNames_available w (l : list ocm.OperatorIAMRole) :
  (∀ r, r ∈ l →
        ∃ n, validated_name r = Some n ∧
             create_service.aws_ValidateRoleNameAvailable w n = Ok tt) →
  create_service.validateRoleNames w l
  = (ValidateRoleNameAvailable <$> omap validated_name l, Val tt).
Proof.
  unfold create_service.validateRoleNames.
  induction l as [|r l IH]; intros Hl; [done |].
  destruct (Hl r ltac:(by left)) as (n & Hn & Hok).
  rewrite for_range_cons, (validateRoleName_named w r n Hn), Hok, or_exit_Ok.
  rewrite bind_val, IH by (intros r' Hr'; apply Hl; by right).
  simpl omap. by rewrite Hn.
Qed.

(** X8. The role names are validated in the order of the list, and the
    first one that is not available ends the command with status 1: its
    error is reported and the names after it are not validated. *)
Theorem X8_validation_stops_at_first_failure w
    (l1 l2 : list ocm.OperatorIAMRole) (role : ocm.OperatorIAMRole)
    (name e : string) :
  (∀ r, r ∈ l1 →
        ∃ n, strings.SplitN (ocm.RoleARN r) "/" 2 !! 1 = Some n ∧
             create_service.aws_ValidateRoleNameAvailable w n = Ok tt) →
  strings.SplitN (ocm.RoleARN role) "/" 2 !! 1 = Some name →
  create_service.aws_ValidateRoleNameAvailable w name = Err e →
  create_service.validateRoleNames w (l1 ++ role :: l2)
  = ((ValidateRoleNameAvailable
        <$> omap (λ r, strings.SplitN (ocm.RoleARN r) "/" 2 !! 1) l1)
       ++ [ValidateRoleNameAvailable name;
           Errorf ("Error validating role: " +:+ e)],
     Exit 1).
Proof.
  intros Hl1 Hn He.
  pose proof (validateRoleNames_available w l1 Hl1) as H1.
  unfold create_service.validateRoleNames in *.
  rewrite for_range_app, H1, bind_val, for_range_cons.
  rewrite (validateRoleName_named w role name Hn), He, or_exit_Err.
  by rewrite bind_exit, after_pair.
Qed.

Lemma validateRoleNames_val w (l : list ocm.OperatorIAMRole) :
  outcome (create_service.validateRoleNames w l) = Val tt →
  ∀ r, r ∈ l →
       ∃ n, validated_name r = Some n ∧
            create_service.aws_ValidateRoleNameAvailable w n = Ok tt.
Proof.
  unfold create_service.validateRoleNames.
  induction l as [|r l IH]; [by intros _ r ?%elem_of_nil |].
  rewrite for_range_cons, bind_outcome.
  destruct (validated_name r) as [n|] eqn:Hn.
  2: { unfold create_service.validateRoleName, at_index.
       unfold validated_name in Hn. by rewrite Hn. }
  rewrite (validateRoleName_named w r n Hn), or_exit_outcome.
  destruct (create_service.aws_ValidateRoleNameAvailable w n) as [[]|e] eqn:Hok;
    [| done].
  intros H r' [->|Hin]%elem_of_cons; [by exists n | by apply IH].
Qed.

(** What a request that was built is made of. *)
Lemma buildRequest_val w args request :
  outcome (buildRequest w args) = Val request →
  ∃ v creator l region parameters,
    outcome (resolveAccountRoles w) = Val v
    ∧ create_service.aws_GetCreator w = Ok creator
    ∧ outcome (operatorRoles
                 (create_service.getRolePrefix w (ocm.ClusterName args))
                 creator) = Val l
    ∧ outcome (create_service.validateRoleNames w l) = Val tt
    ∧ create_service.aws_GetRegion w EmptyString = Ok region
    ∧ request
      = create_service.set_Parameters parameters
          (create_service.set_operator_args l
             (aws.Creator_AccountID creator) region
             (create_service.set_role_args v args)).
Proof.
  unfold create_service.buildRequest. rewrite bind_outcome.
  destruct (outcome (resolveAccountRoles w)) as [v|c|]; [| done..].
  rewrite bind_outcome.
  destruct (create_service.hasRoles v); [| by rewrite emit_bind].
  cbn [outcome mret M_ret snd]. rewrite bind_outcome, or_exit_outcome.
  destruct (create_service.aws_GetCreator w) as [creator|e]; [| done].
  rewrite bind_outcome. simpl ocm.ClusterName.
  destruct (outcome (operatorRoles _ creator)) as [l|c|] eqn:Hl; [| done..].
  rewrite bind_outcome.
  destruct (outcome (create_service.validateRoleNames w l)) as [[]|c|] eqn:Hv;
    [| done..].
  rewrite bind_outcome, or_exit_outcome.
  destruct (create_service.aws_GetRegion w EmptyString) as [region|e];
    [| done].
  rewrite emit_bind, outcome_after, bind_outcome.
  destruct (outcome (create_service.fetchParameters w _)) as [parameters|c|];
    [| done..].
  intros [= <-]. by exists v, creator, l, region, parameters.
Qed.

Lemma resolveAccountRoles_not_validation w :
  only not_validation (resolveAccountRoles w).
Proof.
  unfold create_service.resolveAccountRoles, create_service.findInstallerRole,
    create_service.getAccountRolePrefix, create_service.findDependentRole.
  only_tac.
Qed.

Lemma operatorRoles_not_validation (prefix : string) (creator : aws.Creator) :
  only not_validation (operatorRoles prefix creator).
Proof.
  unfold create_service.operatorRoles, create_service.appendOperatorRole.
  only_tac.
Qed.

Lemma fetchParameters_not_validation w args :
  only not_validation (create_service.fetchParameters w args).
Proof.
  unfold create_service.fetchParameters, create_service.copyParameters,
    map_store.
  only_tac.
Qed.

Lemma submitRequest_not_validation w args :
  only not_validation (create_service.submitRequest w args).
Proof. unfold create_service.submitRequest. only_tac. Qed.

Lemma validations_buildRequest w args request :
  outcome (buildRequest w args) = Val request →
  validations (trace (buildRequest w args))
  = omap validated_name (ocm.AwsOperatorIamRoleList request).
Proof.
  unfold create_service.buildRequest.
  rewrite bind_outcome, bind_trace, validations_app.
  rewrite (validations_not_validation _ (resolveAccountRoles_not_validation w)).
  destruct (outcome (resolveAccountRoles w)) as [v|c|]; [| done..].
  destruct (create_service.hasRoles v); [| by rewrite emit_bind].
  rewrite ret_bind.
  destruct (create_service.aws_GetCreator w) as [creator|e];
    [| by rewrite or_exit_Err].
  rewrite or_exit_Ok, bind_val, outcome_after, trace_after, validations_app.
  rewrite bind_outcome, bind_trace, validations_app.
  rewrite (validations_not_validation _
             (operatorRoles_not_validation _ creator)).
  simpl ocm.ClusterName.
  destruct (outcome (operatorRoles _ creator)) as [l|c|]; [| done..].
  rewrite bind_outcome, bind_trace, validations_app.
  destruct (outcome (create_service.validateRoleNames w l)) as [[]|c|] eqn:Hv;
    [| done..].
  rewrite (validateRoleNames_available w l (validateRoleNames_val w l Hv)).
  unfold trace at 1. cbn [fst].
  destruct (create_service.aws_GetRegion w EmptyString) as [region|e];
    [| by rewrite or_exit_Err].
  rewrite or_exit_Ok, bind_val, outcome_after, trace_after, validations_app.
  rewrite emit_bind, outcome_after, trace_after, validations_app.
  rewrite bind_outcome, bind_trace, validations_app.
  rewrite (validations_not_validation _
             (fetchParameters_not_validation w _)).
  destruct (outcome (create_service.fetchParameters w _)) as [parameters|c|];
    [| done..].
  intros [= <-]. simpl.
  rewrite app_nil_r. clear.
  induction (omap validated_name l) as [|n names IH]; [done |].
  change (n :: validations (ValidateRoleNameAvailable <$> names)
          = n :: names).
  by rewrite IH.
Qed.

Lemma validations_run w args request :
  CreateManagedService request ∈ trace (run w args) →
  outcome (buildRequest w args) = Val request
  ∧ validations (trace (run w args))
    = omap validated_name (ocm.AwsOperatorIamRoleList request).
Proof.
  intros Hin%elem_of_created.
  rewrite (created_run DefaultPrefix AccountRoles CredentialRequests
             GetVersionMinor CheckSupportedVersion arn_Parse) in Hin.
  destruct (create_service.ocm_Build w) as [[]|e] eqn:HB;
    [| by apply elem_of_nil in Hin].
  destruct (outcome (buildRequest w args)) as [built|c|] eqn:Hb;
    try by apply elem_of_nil in Hin.
  apply list_elem_of_singleton in Hin as ->. split; [done |].
  rewrite <- (validations_buildRequest w args built Hb).
  unfold create_service.run, create_service.run_body.
  rewrite HB, or_exit_Ok, bind_val, trace_after.
  change (validations ([Build] ++ ?t)) with (validations t).
  pose proof (submitRequest_not_validation w built) as Hs.
  apply validations_not_validation in Hs.
  rewrite (M_eta (buildRequest w args)), Hb, bind_val.
  unfold trace at 3. cbn [fst].
  destruct (create_service.submitRequest w built) as [t [a|c|]];
    unfold trace in Hs; simpl in Hs;
    rewrite after_pair; unfold with_defer, trace; cbn [fst snd];
    rewrite ?validations_app, Hs, ?app_nil_r; try done;
    unfold close_connection;
    by destruct (create_service.ocm_Close w); simpl; rewrite app_nil_r.
Qed.

(** X9. A request that is submitted carries the service name and the
    cluster name of the command line, the account of the caller, the
    region that AWS answered, and the operator role list computed under the
    prefix [<clusterName>-<random label>]; and the role names that were
    validated during the run are those of that list, in its order, each
    one answered as available. *)
Theorem X9_request_provenance w args request :
  CreateManagedService request ∈ trace (run w args) →
  ∃ creator region,
    create_service.aws_GetCreator w = Ok creator
    ∧ create_service.aws_GetRegion w EmptyString = Ok region
    ∧ ocm.ServiceName request = ocm.ServiceName args
    ∧ ocm.ClusterName request = ocm.ClusterName args
    ∧ ocm.AwsAccountID request = aws.Creator_AccountID creator
    ∧ ocm.AwsRegion request = region
    ∧ outcome (operatorRoles
                 (ocm.ClusterName args +:+ "-" +:+
                  create_service.ocm_RandomLabel w 4) creator)
      = Val (ocm.AwsOperatorIamRoleList request)
    ∧ validations (trace (run w args))
      = omap (λ role, strings.SplitN (ocm.RoleARN role) "/" 2 !! 1)
          (ocm.AwsOperatorIamRoleList request)
    ∧ ∀ role, role ∈ ocm.AwsOperatorIamRoleList request →
        ∃ name, strings.SplitN (ocm.RoleARN role) "/" 2 !! 1 = Some name ∧
                create_service.aws_ValidateRoleNameAvailable w name = Ok tt.
Proof.
  intros Hin. destruct (validations_run w args request Hin) as [Hb Hval].
  destruct (buildRequest_val w args request Hb)
    as (v & creator & l & region & parameters
        & _ & Hc & Hl & Hv & Hr & ->).
  exists creator, region. simpl in *.
  repeat (split; [done |]).
  by apply validateRoleNames_val.
Qed.

(** X10. Every operator role of a request that is submitted is that of a
    required operator, with its name and its namespace; its ARN is
    [arn:aws:iam::<account of the request>:role/<name>], where the name has
    between 2 and 64 bytes and starts the string
    [<clusterName>-<label>-<namespace>-<operator name>]; the list has at
    most one role per required operator. *)
Theorem X10_request_operator_roles w args request :
  CreateManagedService request ∈ trace (run w args) →
  length (ocm.AwsOperatorIamRoleList request) ≤ length CredentialRequests
  ∧ ∀ role, role ∈ ocm.AwsOperatorIamRoleList request →
      ∃ operator name rest,
        operator ∈ CredentialRequests
        ∧ ocm.Name role = aws.Operator_Name operator
        ∧ ocm.Namespace role = aws.Operator_Namespace operator
        ∧ ocm.RoleARN role
          = "arn:aws:iam::" +:+ ocm.AwsAccountID request +:+ ":role/" +:+ name
        ∧ 2 ≤ String.length name ≤ 64
        ∧ ocm.ClusterName request +:+ "-" +:+
          create_service.ocm_RandomLabel w 4 +:+ "-" +:+
          aws.Operator_Namespace operator +:+ "-" +:+
          aws.Operator_Name operator
          = name +:+ rest.
Proof.
  intros Hin. destruct (validations_run w args request Hin) as [Hb _].
  destruct (buildRequest_val w args request Hb)
    as (v & creator & l & region & parameters
        & _ & Hc & Hl & Hv & Hr & ->).
  simpl. split.
  - apply (operator_loop_val GetVersionMinor CheckSupportedVersion) in Hl.
    rewrite Hl, app_nil_l. clear.
    induction CredentialRequests as [|op ops IH]; [done |].
    rewrite fmap_cons, concat_cons, length_app. simpl.
    assert (length (planned_roles GetVersionMinor CheckSupportedVersion
                      (create_service.getRolePrefix w (ocm.ClusterName args))
                      creator op) ≤ 1); [| lia].
    unfold planned_roles. case_decide; [done |].
    destruct (CheckSupportedVersion _ _) as [[|]|]; simpl; lia.
  - intros role Hrole.
    destruct (operatorRoles_inv CredentialRequests GetVersionMinor
                CheckSupportedVersion _ _ _ _ Hl Hrole)
      as (operator & Hop & ->).
    set (prefix := create_service.getRolePrefix w (ocm.ClusterName args)).
    exists operator, (operator_role_name prefix operator).
    pose proof (role_name_length prefix operator) as Hlen.
    pose proof (full_role_name_length prefix operator) as Hfull.
    assert (∃ rest, operator_full_name prefix operator
                    = operator_role_name prefix operator +:+ rest)
      as [rest Hrest].
    { unfold operator_role_name. case_decide.
      - exists (strings.slice_from 64 (operator_full_name prefix operator)).
        symmetry. apply slice_to_from. lia.
      - exists EmptyString. by rewrite append_empty_r. }
    exists rest. split; [done |]. split; [done |]. split; [done |].
    split; [apply getOperatorRoleArn_eq |]. split; [lia |].
    rewrite <- Hrest. unfold operator_full_name, prefix,
      create_service.getRolePrefix.
    by rewrite !append_assoc.
Qed.

End request_extras.

(** ** The ways in which [create service] ends *)

Section outcome_extras.

Variable DefaultPrefix : string.
Variable AccountRoles : aws.RoleType → aws.AccountRole.
Variable CredentialRequests : list aws.Operator.
Variable GetVersionMinor : string → string.
Variable CheckSupportedVersion : string → string → result bool.
Variable arn_Parse : string → result arn.ARN.

#[local] Abbreviation minor := (GetVersionMinor create_service.version).
#[local] Abbreviation findInstallerRole :=
  (create_service.findInstallerRole DefaultPrefix AccountRoles GetVersionMinor).
#[local] Abbreviation findDependentRole :=
  (create_service.findDependentRole AccountRoles GetVersionMinor).
#[local] Abbreviation getAccountRolePrefix :=
  (create_service.getAccountRolePrefix arn_Parse).
#[local] Abbreviation resolveAccountRoles :=
  (create_service.resolveAccountRoles DefaultPrefix AccountRoles
     GetVersionMinor arn_Parse).
#[local] Abbreviation operatorRoles :=
  (create_service.operatorRoles CredentialRequests GetVersionMinor
     CheckSupportedVersion).
#[local] Abbreviation buildRequest :=
  (create_service.buildRequest DefaultPrefix AccountRoles CredentialRequests
     GetVersionMinor CheckSupportedVersion arn_Parse).
#[local] Abbreviation run_body :=
  (create_service.run_body DefaultPrefix AccountRoles CredentialRequests
     GetVersionMinor CheckSupportedVersion arn_Parse).
#[local] Abbreviation run :=
  (create_service.run DefaultPrefix AccountRoles CredentialRequests
     GetVersionMinor CheckSupportedVersion arn_Parse).

Implicit Types w : create_service.World.
Implicit Types v : create_service.RoleVars.
Implicit Types args request : ocm.CreateManagedServiceArgs.

Lemma fetchParameters_eq w args :
  create_service.fetchParameters w args
  = after (GetAddOn (ocm.ServiceName args)
           :: match (create_service.ocm_GetAddOn w (ocm.ServiceName args)).2
              with
              | Some e =>
                  [Errorf ("Failed to process service parameters: " +:+ e)]
              | None => []
              end)
      (match cmv1.Parameters
               (create_service.ocm_GetAddOn w (ocm.ServiceName args)).1 with
       | Some addOnParameters =>
           create_service.copyParameters (create_service.Flags w)
             addOnParameters (ocm.Parameters args)
       | None => mret (ocm.Parameters args)
       end).
Proof.
  unfold create_service.fetchParameters.
  destruct (create_service.ocm_GetAddOn w (ocm.ServiceName args))
    as [addOn [e|]]; cbn [fst snd]; by steps.
Qed.

(** X11. The parameter stage looks the add-on up once, by the service
    name, and reports a failed lookup.  With a parameter map that is
    allocated it stores, under the ID of each parameter of the add-on that
    names a registered flag, the value of that flag, and leaves the other
    keys as they were.  With the nil map it panics when some parameter of
    the add-on names a registered flag, and leaves the nil map
    otherwise. *)
Theorem X11_parameter_copy w args (addOn : option cmv1.AddOn)
    (err : option string) :
  create_service.ocm_GetAddOn w (ocm.ServiceName args) = (addOn, err) →
  let params := default [] (cmv1.Parameters addOn) in
  let stage := create_service.fetchParameters w args in
  trace stage
  = GetAddOn (ocm.ServiceName args)
      :: match err with
         | Some e => [Errorf ("Failed to process service parameters: " +:+ e)]
         | None => []
         end
  ∧ match ocm.Parameters args with
    | None =>
        (Exists (λ param,
                   is_Some (create_service.Flags w !! cmv1.ID param)) params →
         outcome stage = Panic)
        ∧ (¬ Exists (λ param,
                       is_Some (create_service.Flags w !! cmv1.ID param))
               params →
           outcome stage = Val None)
    | Some m =>
        ∃ m', outcome stage = Val (Some m') ∧
              ∀ k, m' !! k
                   = if decide (k ∈ cmv1.ID <$> params)
                     then match create_service.Flags w !! k with
                          | Some value => Some value
                          | None => m !! k
                          end
                     else m !! k
    end.
Proof.
  intros H. cbv zeta. rewrite fetchParameters_eq, H. cbn [fst snd].
  rewrite trace_after, outcome_after.
  destruct (cmv1.Parameters addOn) as [params|]; cbn [default].
  - destruct (ocm.Parameters args) as [m|].
    + rewrite copyParameters_allocated. split; [apply app_nil_r |].
      exists (copied (create_service.Flags w) params m).
      split; [done | apply copied_lookup].
    + rewrite copyParameters_nil. split; [apply app_nil_r |].
      unfold outcome. cbn [snd].
      split; intros Hex; [by rewrite decide_True | by rewrite decide_False].
  - split; [apply app_nil_r |]. destruct (ocm.Parameters args) as [m|].
    + exists m. split; [done |]. intros k.
      rewrite decide_False; [done |]. by intros ?%elem_of_nil.
    + split; [by intros ?%Exists_nil | done].
Qed.

Lemma fetchParameters_panic w args :
  outcome (create_service.fetchParameters w args) = Panic →
  ocm.Parameters args = None
  ∧ ∃ addOn err params,
      create_service.ocm_GetAddOn w (ocm.ServiceName args)
      = (Some addOn, err)
      ∧ cmv1.AddOn_parameters addOn = Some params
      ∧ Exists (λ param, is_Some (create_service.Flags w !! cmv1.ID param))
          params.
Proof.
  rewrite fetchParameters_eq, outcome_after.
  destruct (create_service.ocm_GetAddOn w (ocm.ServiceName args))
    as [[[[params|]]|] err] eqn:Hg; cbn [fst snd cmv1.Parameters mbind
                                           option_bind cmv1.AddOn_parameters];
    [| done..].
  destruct (ocm.Parameters args) as [m|].
  - by rewrite copyParameters_allocated.
  - rewrite copyParameters_nil. unfold outcome. cbn [snd].
    case_decide; [| done]. intros _. split; [done |].
    by eexists _, err, params.
Qed.

Lemma findInstallerRole_found w (r : string) :
  outcome (findInstallerRole w) = Val r → r ≠ EmptyString →
  ∃ roleARNs,
    create_service.aws_FindRoleARNs w aws.InstallerAccountRole minor
    = Ok roleARNs
    ∧ r ∈ roleARNs
    ∧ errors (trace (findInstallerRole w)) = []
    ∧ calls (trace (findInstallerRole w))
      = [FindRoleARNs aws.InstallerAccountRole minor].
Proof.
  destruct (create_service.aws_FindRoleARNs w aws.InstallerAccountRole minor)
    as [roleARNs|e] eqn:Hf.
  2: { by rewrite (findInstallerRole_failed _ _ _ _ _ Hf). }
  intros Hr Hne. exists roleARNs. split; [done |].
  destruct roleARNs as [|first [|second rest]].
  - rewrite (findInstallerRole_none _ _ _ _ Hf) in Hr.
    injection Hr as <-. done.
  - rewrite (findInstallerRole_one _ _ _ _ _ Hf) in Hr |- *.
    injection Hr as <-. split; [by left |].
    unfold trace, calls; simpl; by destruct (negb _ || _).
  - rewrite (findInstallerRole_many _ _ _ _ _ _ _ Hf) in Hr |- *.
    pose proof (select_matching_cases
                  (create_service.role_pattern DefaultPrefix
                     (create_service.role_Name AccountRoles
                        aws.InstallerAccountRole))
                  (first :: second :: rest) first) as Hsel.
    set (sel := create_service.select_matching _ _ _) in *.
    assert (sel = r) as <- by (unfold outcome in Hr; simpl in Hr; congruence).
    split; [| done].
    destruct Hsel as [[-> _]|[? _]]; [by left | done].
Qed.

Lemma findInstallerRole_no_panic w : outcome (findInstallerRole w) ≠ Panic.
Proof.
  destruct (create_service.aws_FindRoleARNs w aws.InstallerAccountRole minor)
    as [[|first [|second rest]]|e] eqn:Hf.
  - by rewrite (findInstallerRole_none _ _ _ _ Hf).
  - by rewrite (findInstallerRole_one _ _ _ _ _ Hf).
  - by rewrite (findInstallerRole_many _ _ _ _ _ _ _ Hf).
  - by rewrite (findInstallerRole_failed _ _ _ _ _ Hf).
Qed.

Lemma dependent_loop_no_panic w (rolePrefix : string)
    (l : list aws.RoleType) v0 :
  outcome (for_range l (findDependentRole w rolePrefix) v0) ≠ Panic.
Proof.
  revert v0. induction l as [|x l IH]; intros v0; [done |].
  rewrite for_range_cons.
  destruct (decide (x = aws.InstallerAccountRole)) as [->|Hx].
  { rewrite findDependentRole_installer, bind_val, after_nil. apply IH. }
  destruct (create_service.aws_FindRoleARNs w x minor) as [roleARNs|e]
    eqn:Hfind.
  2: { by rewrite (findDependentRole_failed _ _ _ _ _ _ _ Hx Hfind). }
  rewrite (findDependentRole_answered _ _ _ _ _ _ _ Hx Hfind). cbv zeta.
  rewrite bind_val, outcome_after. apply IH.
Qed.

Lemma resolveAccountRoles_panic w :
  outcome (resolveAccountRoles w) = Panic →
  ∃ roleARNs roleARN parsedARN,
    create_service.aws_FindRoleARNs w aws.InstallerAccountRole minor
    = Ok roleARNs
    ∧ roleARN ∈ roleARNs
    ∧ arn_Parse roleARN = Ok parsedARN
    ∧ strings.Contains (arn.Resource parsedARN) "/" = false.
Proof.
  unfold create_service.resolveAccountRoles. rewrite bind_outcome.
  pose proof (findInstallerRole_no_panic w) as Hnp.
  destruct (outcome (findInstallerRole w)) as [r|c|] eqn:Hi; [| done..].
  destruct (String.eqb_spec r EmptyString) as [->|Hne]; [done |].
  destruct (findInstallerRole_found w r Hi Hne) as (roleARNs & Hf & Hin & _).
  destruct (arn_Parse r) as [parsedARN|e] eqn:Hp.
  2: { by rewrite (getAccountRolePrefix_unparsed _ _ _ _ Hp). }
  destruct (strings.Contains (arn.Resource parsedARN) "/") eqn:Hc.
  2: { intros _. by exists roleARNs, r, parsedARN. }
  pose proof (SplitN_2_length (arn.Resource parsedARN) "/") as Hlen.
  rewrite Hc in Hlen.
  destruct (strings.SplitN (arn.Resource parsedARN) "/" 2)
    as [|before [|roleName [|]]] eqn:Hs; try done.
  rewrite (getAccountRolePrefix_parsed _ _ _ _ _ _ Hp Hs).
  rewrite bind_val, after_nil, emit_bind, outcome_after.
  intros H. by apply dependent_loop_no_panic in H.
Qed.

Lemma operatorRoles_split (prefix : string) (creator : aws.Creator)
    (l : list ocm.OperatorIAMRole) :
  outcome (operatorRoles prefix creator) = Val l →
  ∀ role, role ∈ l →
          length (strings.SplitN (ocm.RoleARN role) "/" 2) = 2.
Proof.
  intros Hl role Hin.
  destruct (operatorRoles_inv _ _ _ _ _ _ _ Hl Hin) as (operator & _ & ->).
  rewrite SplitN_2_length. simpl ocm.RoleARN.
  rewrite getOperatorRoleArn_eq.
  assert (strings.Contains
            ("arn:aws:iam::" +:+ aws.Creator_AccountID creator +:+ ":role/"
             +:+ operator_role_name prefix operator) "/" = true) as ->; [| done].
  apply Contains_spec.
  exists ("arn:aws:iam::" +:+ aws.Creator_AccountID creator +:+ ":role"),
    (operator_role_name prefix operator).
  by rewrite !append_assoc.
Qed.

Lemma operatorRoles_val (prefix : string) (creator : aws.Creator)
    (l : list ocm.OperatorIAMRole) :
  outcome (operatorRoles prefix creator) = Val l →
  trace (operatorRoles prefix creator) = [].
Proof.
  unfold create_service.operatorRoles. generalize (@nil ocm.OperatorIAMRole).
  induction CredentialRequests as [|op ops IH]; intros acc; [done |].
  rewrite for_range_cons.
  destruct (appendOperatorRole_cases GetVersionMinor CheckSupportedVersion
              prefix creator op acc) as [->|(_ & _ & t & ->)]; [| done].
  rewrite bind_val, after_nil. apply IH.
Qed.

Lemma operatorRoles_no_panic (prefix : string) (creator : aws.Creator) :
  outcome (operatorRoles prefix creator) ≠ Panic.
Proof.
  unfold create_service.operatorRoles. generalize (@nil ocm.OperatorIAMRole).
  induction CredentialRequests as [|op ops IH]; intros acc; [done |].
  rewrite for_range_cons.
  destruct (appendOperatorRole_cases GetVersionMinor CheckSupportedVersion
              prefix creator op acc) as [->|(_ & _ & t & ->)]; [| done].
  rewrite bind_val, after_nil. apply IH.
Qed.

Lemma run_outcome w args :
  outcome (run w args)
  = match create_service.ocm_Build w with
    | Ok _ => outcome (run_body w args)
    | Err _ => Exit 1
    end.
Proof.
  unfold create_service.run.
  destruct (create_service.ocm_Build w) as [[]|e]; [| done].
  rewrite or_exit_Ok, bind_val, outcome_after.
  fold (run_body w args). by destruct (run_body w args) as [t [a|c|]].
Qed.

Lemma buildRequest_panic w args :
  outcome (buildRequest w args) = Panic →
  outcome (resolveAccountRoles w) = Panic
  ∨ ∃ args', ocm.ServiceName args' = ocm.ServiceName args
             ∧ ocm.Parameters args' = ocm.Parameters args
             ∧ outcome (create_service.fetchParameters w args') = Panic.
Proof.
  unfold create_service.buildRequest. rewrite bind_outcome.
  destruct (outcome (resolveAccountRoles w)) as [v|c|]; [| done | by left].
  rewrite bind_outcome.
  destruct (create_service.hasRoles v); [| by rewrite emit_bind].
  cbn [outcome mret M_ret snd]. rewrite bind_outcome, or_exit_outcome.
  destruct (create_service.aws_GetCreator w) as [creator|e]; [| done].
  rewrite bind_outcome. simpl ocm.ClusterName.
  pose proof (operatorRoles_no_panic
                (create_service.getRolePrefix w (ocm.ClusterName args))
                creator) as Hop.
  destruct (outcome (operatorRoles _ creator)) as [l|c|] eqn:Hl; [| done..].
  rewrite bind_outcome.
  pose proof (validateRoleNames_no_panic w l (operatorRoles_split _ _ _ Hl))
    as Hvp.
  destruct (outcome (create_service.validateRoleNames w l)) as [[]|c|];
    [| done..].
  rewrite bind_outcome, or_exit_outcome.
  destruct (create_service.aws_GetRegion w EmptyString) as [region|e];
    [| done].
  rewrite emit_bind, outcome_after, bind_outcome.
  destruct (outcome (create_service.fetchParameters w _)) as [parameters|c|]
    eqn:Hf; [done.. |].
  intros _. right. eexists. split; [| split; [| exact Hf]]; done.
Qed.

(** X12. The command panics in two cases only: the installer lookup
    answered with an ARN that parses and whose resource holds no slash,
    so that the role name is taken out of range; or [args.Parameters] is
    the nil map and a parameter of the add-on names a registered flag.
    In both cases the connection had been built and no request is
    submitted. *)
Theorem X12_panic_sources w args :
  outcome (run w args) = Panic →
  create_service.ocm_Build w = Ok tt
  ∧ created (trace (run w args)) = []
  ∧ ((∃ roleARNs roleARN parsedARN,
        create_service.aws_FindRoleARNs w aws.InstallerAccountRole minor
        = Ok roleARNs
        ∧ roleARN ∈ roleARNs
        ∧ arn_Parse roleARN = Ok parsedARN
        ∧ strings.Contains (arn.Resource parsedARN) "/" = false)
     ∨ (ocm.Parameters args = None
        ∧ ∃ addOn err params,
            create_service.ocm_GetAddOn w (ocm.ServiceName args)
            = (Some addOn, err)
            ∧ cmv1.AddOn_parameters addOn = Some params
            ∧ Exists (λ param,
                        is_Some (create_service.Flags w !! cmv1.ID param))
                params)).
Proof.
  rewrite run_outcome, (created_run DefaultPrefix AccountRoles
                          CredentialRequests GetVersionMinor
                          CheckSupportedVersion arn_Parse).
  destruct (create_service.ocm_Build w) as [[]|e]; [| done].
  unfold create_service.run_body. rewrite bind_outcome.
  destruct (outcome (buildRequest w args)) as [request|c|] eqn:Hb;
    [| done |].
  { unfold create_service.submitRequest.
    by destruct (create_service.ocm_CreateManagedService w request). }
  intros _. split; [done |]. split; [done |].
  destruct (buildRequest_panic w args Hb) as [Hr|(args' & Hs & Hp & Hf)].
  - left. by apply resolveAccountRoles_panic.
  - right. apply fetchParameters_panic in Hf. by rewrite <- Hs, <- Hp.
Qed.

Lemma calls_app (t1 t2 : list event) :
  calls (t1 ++ t2) = calls t1 ++ calls t2.
Proof. apply filter_app. Qed.

Lemma calls_validations (names : list string) :
  calls (ValidateRoleNameAvailable <$> names)
  = ValidateRoleNameAvailable <$> names
  ∧ errors (ValidateRoleNameAvailable <$> names) = [].
Proof.
  induction names as [|n names [IHc IHe]]; [done |].
  rewrite fmap_cons. unfold calls in *.
  rewrite filter_cons_True by done. by rewrite IHc.
Qed.

(** A loop over the dependent roles that ends with [hasRoles] still set
    reported no error: it only looked the categories up. *)
Lemma dependent_loop_complete w (rolePrefix : string)
    (l : list aws.RoleType) v0 v :
  outcome (for_range l (findDependentRole w rolePrefix) v0) = Val v →
  create_service.hasRoles v = true →
  errors (trace (for_range l (findDependentRole w rolePrefix) v0)) = []
  ∧ calls (trace (for_range l (findDependentRole w rolePrefix) v0))
    = (λ rt, FindRoleARNs rt minor)
        <$> filter (λ rt, rt ≠ aws.InstallerAccountRole) l.
Proof.
  revert v0. induction l as [|x l IH]; intros v0; [done |].
  rewrite for_range_cons.
  destruct (decide (x = aws.InstallerAccountRole)) as [->|Hx].
  { rewrite findDependentRole_installer, bind_val, after_nil.
    rewrite filter_cons_False by (by intros ?). apply IH. }
  destruct (create_service.aws_FindRoleARNs w x minor) as [roleARNs|e]
    eqn:Hfind.
  2: { by rewrite (findDependentRole_failed _ _ _ _ _ _ _ Hx Hfind). }
  rewrite (findDependentRole_answered _ _ _ _ _ _ _ Hx Hfind). cbv zeta.
  rewrite bind_val, outcome_after, trace_after.
  set (sel := resolved_role AccountRoles GetVersionMinor w rolePrefix x).
  set (v1 := create_service.assign x sel _).
  intros Hout Hh.
  destruct (dependent_loop_inv AccountRoles GetVersionMinor _ _ _ _ _ Hout)
    as (_ & H2 & _).
  specialize (H2 Hh). unfold v1 in H2. rewrite hasRoles_assign in H2.
  destruct (IH v1 Hout Hh) as [IHe IHc].
  rewrite errors_app, calls_app, IHe, IHc, filter_cons_True by done.
  destruct (String.eqb sel EmptyString); [done |].
  by destruct (negb _ || _).
Qed.

Lemma resolveAccountRoles_clean w v :
  outcome (resolveAccountRoles w) = Val v →
  create_service.hasRoles v = true →
  errors (trace (resolveAccountRoles w)) = []
  ∧ calls (trace (resolveAccountRoles w))
    = FindRoleARNs aws.InstallerAccountRole minor
        :: ((λ rt, FindRoleARNs rt minor)
              <$> filter (λ rt, rt ≠ aws.InstallerAccountRole)
                    (create_service.range_AccountRoles w)).
Proof.
  intros Hv Hh.
  destruct (resolveAccountRoles_complete DefaultPrefix AccountRoles
              GetVersionMinor arn_Parse w v Hv Hh)
    as (rolePrefix & Hne & Hi & Hp & _).
  destruct (findInstallerRole_found w _ Hi Hne) as (roleARNs & _ & _ & He & Hc).
  rewrite (resolveAccountRoles_loop DefaultPrefix AccountRoles
             GetVersionMinor arn_Parse w _ rolePrefix Hi Hne Hp) in Hv |- *.
  rewrite outcome_after in Hv. rewrite trace_after.
  destruct (dependent_loop_complete w rolePrefix _ _ v Hv Hh) as [Le Lc].
  by rewrite !errors_app, !calls_app, He, Hc, Le, Lc.
Qed.

(** The stages of a request that is built, one after the other. *)
Lemma buildRequest_stages w args request :
  outcome (buildRequest w args) = Val request →
  ∃ v (region : string),
    outcome (resolveAccountRoles w) = Val v
    ∧ create_service.hasRoles v = true
    ∧ ocm.ClusterName request = ocm.ClusterName args
    ∧ trace (buildRequest w args)
      = trace (resolveAccountRoles w)
          ++ [GetCreator]
          ++ (ValidateRoleNameAvailable
                <$> omap validated_name (ocm.AwsOperatorIamRoleList request))
          ++ [GetRegion EmptyString;
              Infof ("Using AWS region: " +:+ region);
              GetAddOn (ocm.ServiceName args)]
          ++ match (create_service.ocm_GetAddOn w (ocm.ServiceName args)).2
             with
             | Some e =>
                 [Errorf ("Failed to process service parameters: " +:+ e)]
             | None => []
             end.
Proof.
  unfold create_service.buildRequest.
  rewrite bind_outcome, bind_trace.
  destruct (outcome (resolveAccountRoles w)) as [v|c|]; [| done..].
  destruct (create_service.hasRoles v) eqn:Hh; [| by rewrite emit_bind].
  rewrite ret_bind.
  destruct (create_service.aws_GetCreator w) as [creator|e];
    [| by rewrite or_exit_Err].
  rewrite or_exit_Ok, bind_val, outcome_after, trace_after.
  rewrite bind_outcome, bind_trace.
  simpl ocm.ClusterName.
  destruct (outcome (operatorRoles _ creator)) as [l|c|] eqn:Hl; [| done..].
  rewrite (operatorRoles_val _ _ _ Hl), app_nil_l.
  rewrite bind_outcome, bind_trace.
  destruct (outcome (create_service.validateRoleNames w l)) as [[]|c|] eqn:Hv;
    [| done..].
  rewrite (validateRoleNames_available w l (validateRoleNames_val w l Hv)).
  unfold trace at 2. cbn [fst].
  destruct (create_service.aws_GetRegion w EmptyString) as [region|e];
    [| by rewrite or_exit_Err].
  rewrite or_exit_Ok, bind_val, outcome_after, trace_after.
  rewrite emit_bind, outcome_after, trace_after.
  rewrite bind_outcome, bind_trace.
  rewrite fetchParameters_eq, outcome_after, trace_after.
  cbn [ocm.ServiceName create_service.set_operator_args
         create_service.set_role_args].
  set (copy := match cmv1.Parameters _ with Some _ => _ | None => _ end).
  assert (trace copy = []) as Hcopy.
  { unfold copy. destruct (cmv1.Parameters _) as [params|]; [| done].
    destruct (ocm.Parameters _) as [m|].
    - by rewrite copyParameters_allocated.
    - by rewrite copyParameters_nil. }
  rewrite Hcopy.
  destruct (outcome copy) as [parameters|c|]; [| done..].
  intros [= <-]. exists v, region.
  split; [done |]. split; [done |]. split; [done |].
  simpl. by rewrite !app_nil_r.
Qed.

Lemma run_val w args request :
  outcome (run w args) = Val request →
  ∃ service,
    create_service.ocm_Build w = Ok tt
    ∧ outcome (buildRequest w args) = Val request
    ∧ create_service.ocm_CreateManagedService w request = Ok service
    ∧ trace (run w args)
      = Build :: trace (buildRequest w args)
          ++ [CreateManagedService request; Infof_v service;
              Infof (followup_msg (ocm.ClusterName request))]
          ++ close_events (create_service.ocm_Close w).
Proof.
  unfold create_service.run, create_service.run_body.
  destruct (create_service.ocm_Build w) as [[]|e];
    [| by rewrite or_exit_Err].
  rewrite or_exit_Ok, bind_val, outcome_after, trace_after.
  rewrite (M_eta (buildRequest w args)).
  destruct (outcome (buildRequest w args)) as [built|c|]; [| done..].
  rewrite bind_val. unfold create_service.submitRequest.
  destruct (create_service.ocm_CreateManagedService w built) as [service|e]
    eqn:Hc; [| by rewrite or_exit_Err].
  rewrite or_exit_Ok. steps. rewrite with_defer_val, close_connection_trace.
  intros H. unfold outcome in H. cbn [snd] in H. injection H as <-.
  exists service. split; [done |]. split; [done |]. split; [done |].
  unfold trace, close_events. cbn [fst].
  by rewrite <- !(assoc_L (++)).
Qed.

(** X13. A run of [create service] that returns has called the outside
    in this order: the connection, the installer lookup, the lookups of the
    other categories in the order of the range, the caller identity, the
    availability of each operator role name of the request, the region,
    the add-on, the create request and the close.  The value it returns is
    the request that it submitted; its last messages are the service
    and the two follow-up commands for the cluster of the command line;
    and the only errors it can have reported are a failed add-on lookup and
    a failed close. *)
Theorem X13_successful_run w args request :
  outcome (run w args) = Val request →
  ∃ service,
    create_service.ocm_CreateManagedService w request = Ok service
    ∧ calls (trace (run w args))
      = [Build; FindRoleARNs aws.InstallerAccountRole minor]
          ++ ((λ rt, FindRoleARNs rt minor)
                <$> filter (λ rt, rt ≠ aws.InstallerAccountRole)
                      (create_service.range_AccountRoles w))
          ++ [GetCreator]
          ++ (ValidateRoleNameAvailable
                <$> omap (λ role, strings.SplitN (ocm.RoleARN role) "/" 2 !! 1)
                      (ocm.AwsOperatorIamRoleList request))
          ++ [GetRegion EmptyString; GetAddOn (ocm.ServiceName args);
              CreateManagedService request; Close]
    ∧ (∃ t, trace (run w args)
            = t ++ [CreateManagedService request; Infof_v service;
                    Infof (followup_msg (ocm.ClusterName args))]
                ++ close_events (create_service.ocm_Close w))
    ∧ errors (trace (run w args))
      = match (create_service.ocm_GetAddOn w (ocm.ServiceName args)).2 with
        | Some e => ["Failed to process service parameters: " +:+ e]
        | None => []
        end
        ++ match create_service.ocm_Close w with
           | Ok _ => []
           | Err e => ["Failed to close OCM connection: " +:+ e]
           end.
Proof.
  intros Hrun.
  destruct (run_val w args request Hrun) as (service & HB & Hb & Hc & Ht).
  destruct (buildRequest_stages w args request Hb)
    as (v & region & Hv & Hh & Hn & Hbt).
  destruct (resolveAccountRoles_clean w v Hv Hh) as [He Hcalls].
  destruct (calls_validations
              (omap validated_name (ocm.AwsOperatorIamRoleList request)))
    as [Hvc Hve].
  exists service. split; [done |].
  rewrite Ht, Hbt, Hn. split; [| split].
  - change (Build :: ?t) with ([Build] ++ t).
    rewrite !calls_app, Hcalls, Hvc.
    unfold close_events.
    destruct ((create_service.ocm_GetAddOn w (ocm.ServiceName args)).2);
      destruct (create_service.ocm_Close w); by rewrite <- !(assoc_L (++)).
  - by exists (Build :: trace (buildRequest w args)); rewrite Hbt.
  - change (Build :: ?t) with ([Build] ++ t).
    rewrite !errors_app, He, Hve.
    unfold close_events.
    destruct ((create_service.ocm_GetAddOn w (ocm.ServiceName args)).2);
      by destruct (create_service.ocm_Close w).
Qed.

(** X14. When the create request itself fails, the command reports the
    error of the service right after the request and exits with status
    1: it prints neither the service nor the follow-up commands, and it
    does not close the connection. *)
Theorem X14_create_request_fails w args request (e : string) :
  CreateManagedService request ∈ trace (run w args) →
  create_service.ocm_CreateManagedService w request = Err e →
  outcome (run w args) = Exit 1
  ∧ (∃ t, trace (run w args)
          = t ++ [CreateManagedService request;
                  Errorf ("Failed to create managed service: " +:+ e)]
          ∧ ∀ msg, Infof_v msg ∉ t)
  ∧ Close ∉ trace (run w args).
Proof.
  intros Hin%elem_of_created He.
  rewrite (created_run DefaultPrefix AccountRoles CredentialRequests
             GetVersionMinor CheckSupportedVersion arn_Parse) in Hin.
  destruct (create_service.ocm_Build w) as [[]|e'] eqn:HB;
    [| by apply elem_of_nil in Hin].
  destruct (outcome (buildRequest w args)) as [built|c|] eqn:Hb;
    try by apply elem_of_nil in Hin.
  apply list_elem_of_singleton in Hin as ->.
  assert (run w args
          = (Build :: trace (buildRequest w args)
               ++ [CreateManagedService built;
                   Errorf ("Failed to create managed service: " +:+ e)],
             Exit 1)) as Hrun.
  { unfold create_service.run, create_service.run_body.
    rewrite HB, or_exit_Ok, bind_val.
    set (t := trace (buildRequest w args)).
    rewrite (M_eta (buildRequest w args)), Hb. fold t.
    rewrite bind_val. unfold create_service.submitRequest.
    rewrite He, or_exit_Err. steps.
    by rewrite with_defer_exit, after_pair. }
  assert (only (λ ev, match ev with
                      | Infof_v _ | Close => False
                      | _ => True
                      end) (buildRequest w args)) as Honly.
  { unfold create_service.buildRequest, create_service.resolveAccountRoles,
      create_service.findInstallerRole, create_service.getAccountRolePrefix,
      create_service.findDependentRole, create_service.operatorRoles,
      create_service.appendOperatorRole, create_service.validateRoleNames,
      create_service.validateRoleName, create_service.fetchParameters,
      create_service.copyParameters, map_store.
    only_tac. }
  unfold only in Honly. rewrite Forall_forall in Honly.
  rewrite Hrun. split; [done |]. unfold trace at 1 3. cbn [fst]. split.
  - exists (Build :: trace (buildRequest w args)). split; [done |].
    intros msg [Hm|Hm]%elem_of_cons; [done |]. exact (Honly _ Hm).
  - intros [Hm|Hm]%elem_of_cons; [done |].
    apply elem_of_app in Hm as [Hm|Hm]; [exact (Honly _ Hm) |].
    by repeat (apply elem_of_cons in Hm as [?|Hm]; [done |]);
      apply elem_of_nil in Hm.
Qed.

(** X15. The list command never panics.  When the connection cannot be
    built it reports that and asks for nothing; when the list cannot be
    retrieved it reports that; in both cases it exits with status 1,
    having handed nothing to the tab writer, flushed nothing and closed
    nothing.  Once the connection is built it asks for the list once, for
    1000 records, whatever the answer. *)
Theorem X15_list_failures (w : list_service.World) :
  outcome (list_service.run w) ≠ Panic
  ∧ (∀ e, list_service.ocm_Build w = Err e →
          list_service.run w
          = ([Build; Errorf ("Failed to create OCM connection: " +:+ e)],
             Exit 1))
  ∧ (∀ e, list_service.ocm_Build w = Ok tt →
          list_service.ocm_ListManagedServices w 1000 = Err e →
          list_service.run w
          = ([Build; ListManagedServices 1000;
              Errorf ("Failed to retrieve list of managed services: "
                      +:+ e)],
             Exit 1))
  ∧ ((∀ a, outcome (list_service.run w) ≠ Val a) →
     outcome (list_service.run w) = Exit 1
     ∧ written (trace (list_service.run w)) = []
     ∧ (Flush ∉ trace (list_service.run w))
     ∧ (Close ∉ trace (list_service.run w)))
  ∧ omap (λ ev, match ev with
                | ListManagedServices limit => Some limit
                | _ => None
                end) (trace (list_service.run w))
    = match list_service.ocm_Build w with
      | Ok _ => [1000]
      | Err _ => []
      end.
Proof.
  unfold list_service.run, list_service.run_body.
  destruct (list_service.ocm_Build w) as [[]|e].
  2: { rewrite or_exit_Err, bind_exit.
       split; [done |]. split; [by intros ? [= <-] |]. split; [done |].
       split; [| done].
       intros _. split; [done |]. split; [done |].
       split; intros Hm;
         by repeat (apply elem_of_cons in Hm as [?|Hm]; [done |]);
           apply elem_of_nil in Hm. }
  rewrite or_exit_Ok, bind_val.
  destruct (list_service.ocm_ListManagedServices w 1000) as [l|e].
  2: { rewrite or_exit_Err, bind_exit, with_defer_exit, after_pair.
       split; [done |]. split; [done |]. split; [by intros ? _ [= <-] |].
       split; [| done].
       intros _. split; [done |]. split; [done |].
       split; intros Hm;
         by repeat (apply elem_of_cons in Hm as [?|Hm]; [done |]);
           apply elem_of_nil in Hm. }
  rewrite or_exit_Ok. steps. rewrite print_rows. steps.
  unfold emit. steps. rewrite with_defer_val, after_pair.
  unfold outcome, trace. cbn [fst snd].
  split; [done |]. split; [done |]. split; [done |]. split.
  - intros H. by destruct (H tt).
  - cbn [app omap list_omap]. f_equal.
    rewrite !omap_app.
    assert (∀ rows : list msv1.ManagedService,
              omap (λ ev, match ev with
                          | ListManagedServices limit => Some limit
                          | _ => None
                          end)
                ((λ srv, Fprintf (list_service.row srv)) <$> rows) = [])
      as ->.
    { induction rows as [|srv rows IH]; [done |].
      by rewrite fmap_cons. }
    unfold close_connection. by destruct (list_service.ocm_Close w).
Qed.

Lemma buildRequest_parameters w args request :
  outcome (buildRequest w args) = Val request →
  ∃ args', ocm.ServiceName args' = ocm.ServiceName args
           ∧ ocm.Parameters args' = ocm.Parameters args
           ∧ outcome (create_service.fetchParameters w args')
             = Val (ocm.Parameters request).
Proof.
  unfold create_service.buildRequest. rewrite bind_outcome.
  destruct (outcome (resolveAccountRoles w)) as [v|c|]; [| done..].
  rewrite bind_outcome.
  destruct (create_service.hasRoles v); [| by rewrite emit_bind].
  cbn [outcome mret M_ret snd]. rewrite bind_outcome, or_exit_outcome.
  destruct (create_service.aws_GetCreator w) as [creator|e]; [| done].
  rewrite bind_outcome. simpl ocm.ClusterName.
  destruct (outcome (operatorRoles _ creator)) as [l|c|]; [| done..].
  rewrite bind_outcome.
  destruct (outcome (create_service.validateRoleNames w l)) as [[]|c|];
    [| done..].
  rewrite bind_outcome, or_exit_outcome.
  destruct (create_service.aws_GetRegion w EmptyString) as [region|e];
    [| done].
  rewrite emit_bind, outcome_after, bind_outcome.
  destruct (outcome (create_service.fetchParameters w _)) as [parameters|c|]
    eqn:Hf; [| done..].
  intros [= <-]. eexists. split; [| split; [| exact Hf]]; done.
Qed.

(** X16. As the command is invoked, with [args.Parameters] never
    allocated, a request that is submitted carries no parameter at all:
    its parameter map is the nil map, and no parameter of the add-on names
    a registered flag; in particular none is named [service] or
    [clusterName]. *)
Theorem X16_no_parameter_is_sent w request :
  CreateManagedService request
  ∈ trace (create_service.Cmd_Run DefaultPrefix AccountRoles
             CredentialRequests GetVersionMinor CheckSupportedVersion
             arn_Parse w) →
  ocm.Parameters request = None
  ∧ ∀ param,
      param ∈ default [] (cmv1.Parameters
                            (create_service.ocm_GetAddOn w
                               (create_service.flag_service w)).1) →
      create_service.Flags w !! cmv1.ID param = None
      ∧ cmv1.ID param ≠ "service" ∧ cmv1.ID param ≠ "clusterName".
Proof.
  unfold create_service.Cmd_Run. intros Hin%elem_of_created.
  rewrite (created_run DefaultPrefix AccountRoles CredentialRequests
             GetVersionMinor CheckSupportedVersion arn_Parse) in Hin.
  destruct (create_service.ocm_Build w) as [[]|e];
    [| by apply elem_of_nil in Hin].
  destruct (outcome (buildRequest w (create_service.args_at_entry w)))
    as [built|c|] eqn:Hb; try by apply elem_of_nil in Hin.
  apply list_elem_of_singleton in Hin as ->.
  destruct (buildRequest_parameters w _ built Hb) as (args' & Hs & Hp & Hf).
  rewrite fetchParameters_eq, outcome_after, Hs, Hp in Hf.
  cbn [create_service.args_at_entry ocm.ServiceName ocm.Parameters] in Hf.
  assert (∀ k, create_service.Flags w !! k = None →
               k ≠ "service" ∧ k ≠ "clusterName") as Hflag.
  { unfold create_service.Flags. intros k Hk.
    split; intros ->; [by rewrite lookup_insert_eq in Hk |].
    rewrite lookup_insert_ne in Hk by done.
    by rewrite lookup_insert_eq in Hk. }
  destruct (cmv1.Parameters _) as [params|]; cbn [default].
  - rewrite copyParameters_nil in Hf. unfold outcome in Hf. cbn [snd] in Hf.
    case_decide as Hex; [done |]. injection Hf as <-. split; [done |].
    intros param Hparam.
    destruct (create_service.Flags w !! cmv1.ID param) as [value|] eqn:E.
    + destruct Hex. apply Exists_exists. exists param.
      split; [done |]. by rewrite E.
    + split; [done |]. by apply Hflag.
  - unfold outcome in Hf. cbn [snd mret M_ret] in Hf. injection Hf as <-.
    split; [done |]. by intros param ?%elem_of_nil.
Qed.

Lemma findDependentRole_outcome w (rolePrefix : string)
    (roleType : aws.RoleType) v :
  outcome (findDependentRole w rolePrefix roleType v)
  = if decide (roleType = aws.InstallerAccountRole) then Val v
    else match create_service.aws_FindRoleARNs w roleType minor with
         | Err _ => Exit 1
         | Ok _ =>
             let selectedARN :=
               resolved_role AccountRoles GetVersionMinor w rolePrefix
                 roleType in
             Val (create_service.assign roleType selectedARN
                    (if String.eqb selectedARN EmptyString
                     then create_service.set_hasRoles false v else v))
         end.
Proof.
  case_decide as Hrt; [by subst |].
  destruct (create_service.aws_FindRoleARNs w roleType minor) as [roleARNs|e]
    eqn:Hfind.
  - by rewrite (findDependentRole_answered _ _ _ _ _ _ _ Hrt Hfind).
  - by rewrite (findDependentRole_failed _ _ _ _ _ _ _ Hrt Hfind).
Qed.

Lemma dependent_loop_cons w (rolePrefix : string) (x : aws.RoleType)
    (l : list aws.RoleType) v0 :
  outcome (for_range (x :: l) (findDependentRole w rolePrefix) v0)
  = match outcome (findDependentRole w rolePrefix x v0) with
    | Val v1 => outcome (for_range l (findDependentRole w rolePrefix) v1)
    | Exit c => Exit c
    | Panic => Panic
    end.
Proof. by rewrite for_range_cons, bind_outcome. Qed.

(** The order of the range does not change the way the loop ends. *)
Lemma dependent_loop_perm w (rolePrefix : string) (l l' : list aws.RoleType) :
  l ≡ₚ l' →
  ∀ v0, outcome (for_range l (findDependentRole w rolePrefix) v0)
        = outcome (for_range l' (findDependentRole w rolePrefix) v0).
Proof.
  induction 1 as [|x l l' _ IH|x y l|l l' l'' _ IH1 _ IH2]; intros v0.
  - done.
  - rewrite !dependent_loop_cons.
    by destruct (outcome (findDependentRole w rolePrefix x v0)).
  - rewrite (dependent_loop_cons w rolePrefix y),
      (dependent_loop_cons w rolePrefix x), !findDependentRole_outcome.
    destruct (decide (x = y)) as [->|Hxy]; [done |].
    destruct (decide (y = aws.InstallerAccountRole)) as [Hy|Hy];
      destruct (decide (x = aws.InstallerAccountRole)) as [Hx|Hx];
      destruct (create_service.aws_FindRoleARNs w x minor) eqn:Hfx;
      destruct (create_service.aws_FindRoleARNs w y minor) eqn:Hfy;
      repeat first
        [ progress cbv beta iota zeta
        | rewrite dependent_loop_cons
        | rewrite findDependentRole_outcome
        | rewrite Hfx | rewrite Hfy
        | rewrite decide_True by done
        | rewrite decide_False by done ];
      try done.
    f_equal.
    destruct x, y, v0; try done;
      by destruct (String.eqb _ EmptyString), (String.eqb _ EmptyString).
  - by rewrite IH1.
Qed.

Lemma resolveAccountRoles_perm w (order : list aws.RoleType) :
  order ≡ₚ create_service.range_AccountRoles w →
  outcome (resolveAccountRoles (with_range order w))
  = outcome (resolveAccountRoles w).
Proof.
  intros Hp. unfold create_service.resolveAccountRoles.
  change (findInstallerRole (with_range order w))
    with (findInstallerRole w).
  rewrite !bind_outcome.
  destruct (outcome (findInstallerRole w)) as [r|c|]; [| done..].
  destruct (String.eqb r EmptyString); [done |].
  rewrite !bind_outcome.
  destruct (outcome (getAccountRolePrefix r _)) as [[rolePrefix|e]|c|];
    try done.
  rewrite !emit_bind, !outcome_after.
  exact (dependent_loop_perm w rolePrefix _ _ Hp _).
Qed.

(** X17. Go leaves open the order in which a range visits the keys of
    [aws.AccountRoles].  The order changes neither the way the command
    ends (the value it returns, its exit status, a panic) nor the request
    that it submits. *)
Theorem X17_range_order_is_irrelevant w args (order : list aws.RoleType) :
  order ≡ₚ create_service.range_AccountRoles w →
  outcome (run (with_range order w) args) = outcome (run w args)
  ∧ created (trace (run (with_range order w) args))
    = created (trace (run w args)).
Proof.
  intros Hp.
  assert (outcome (buildRequest (with_range order w) args)
          = outcome (buildRequest w args)) as Hb.
  { unfold create_service.buildRequest. rewrite !bind_outcome.
    fold (resolveAccountRoles (with_range order w)).
    fold (resolveAccountRoles w).
    rewrite (resolveAccountRoles_perm w order Hp).
    by destruct (outcome (resolveAccountRoles w)). }
  rewrite !run_outcome,
    !(created_run DefaultPrefix AccountRoles CredentialRequests
        GetVersionMinor CheckSupportedVersion arn_Parse).
  change (create_service.ocm_Build (with_range order w))
    with (create_service.ocm_Build w).
  rewrite Hb. split; [| done].
  destruct (create_service.ocm_Build w); [| done].
  unfold create_service.run_body. rewrite !bind_outcome.
  fold (buildRequest (with_range order w) args). fold (buildRequest w args).
  rewrite Hb. by destruct (outcome (buildRequest w args)).
Qed.

End outcome_extras.

(** ** The hypotheses of the theorems above, on the sample declarations *)


(** The ARN of the root user parses, and its resource holds no slash. *)
Lemma X4_role_prefix_outcomes_witness :
  outcome (create_service.getAccountRolePrefix sample.arn_Parse
             "arn:aws:iam::123456789012:root"
             (sample.AccountRoles aws.InstallerAccountRole))
  = Panic.
Proof.
  apply (proj2 (proj1 (proj2 (X4_role_prefix_outcomes sample.arn_Parse
                                "arn:aws:iam::123456789012:root"
                                (sample.AccountRoles
                                   aws.InstallerAccountRole))))).
  eexists. split; reflexivity.
Defined.

(** The sample account, with an output flag and a reporter that is not a
    terminal. *)
Lemma X5_role_stage_is_quiet_witness :
  Infof (create_service.using_msg
           (sample.role_arn "ManagedOpenShift-Installer-Role") "Installer")
  ∉ trace (create_service.resolveAccountRoles sample.DefaultPrefix
             sample.AccountRoles sample.GetVersionMinor sample.arn_Parse
             (sample.with_output true false sample.world)).
Proof.
  apply (X5_role_stage_is_quiet sample.DefaultPrefix sample.AccountRoles
           sample.GetVersionMinor sample.arn_Parse
           (sample.with_output true false sample.world)); reflexivity.
Defined.

(** The range of the sample account yields no category twice. *)
Lemma X6_lookup_order_witness :
  NoDup (lookups (trace (sample.invoke sample.world))).
Proof.
  apply (proj2 (X6_lookup_order sample.DefaultPrefix sample.AccountRoles
                  sample.CredentialRequests sample.GetVersionMinor
                  sample.CheckSupportedVersion sample.arn_Parse sample.world
                  (create_service.args_at_entry sample.world))).
  apply (bool_decide_unpack _). vm_compute. exact I.
Defined.

(** The sample operators, with a version check that fails: the second
    operator is the first one that asks for a version. *)
Lemma X7_version_check_failure_witness :
  create_service.operatorRoles sample.CredentialRequests
    sample.GetVersionMinor (λ _ _, Err "malformed version") "c1-x7k2"
    {| aws.Creator_AccountID := "123456789012" |}
  = ([Errorf "Error validating operator role 'ebs-cloud-credentials' version malformed version"],
     Exit 1).
Proof.
  apply (X7_version_check_failure sample.CredentialRequests
           sample.GetVersionMinor (λ _ _, Err "malformed version") "c1-x7k2"
           {| aws.Creator_AccountID := "123456789012" |}
           [ {| aws.Operator_Name := "cloud-credentials";
                aws.Operator_Namespace := "openshift-machine-api";
                aws.Operator_MinVersion := EmptyString |} ]
           []
           {| aws.Operator_Name := "ebs-cloud-credentials";
              aws.Operator_Namespace := "openshift-cluster-csi-drivers";
              aws.Operator_MinVersion := "4.10" |}
           "malformed version").
  - reflexivity.
  - intros o Ho%list_elem_of_singleton Hne. subst o. by destruct Hne.
  - discriminate.
  - reflexivity.
Defined.

(** An account in which every role name is taken. *)
Lemma X8_validation_stops_at_first_failure_witness :
  create_service.validateRoleNames
    (sample.with_answers (λ _, Err "role exists")
       (create_service.ocm_CreateManagedService sample.world) sample.world)
    [ {| ocm.Name := "cloud-credentials";
         ocm.Namespace := "openshift-machine-api";
         ocm.RoleARN := "arn:aws:iam::123456789012:role/c1" |};
      {| ocm.Name := "ebs-cloud-credentials";
         ocm.Namespace := "openshift-cluster-csi-drivers";
         ocm.RoleARN := "arn:aws:iam::123456789012:role/c2" |} ]
  = ([ValidateRoleNameAvailable "c1";
      Errorf "Error validating role: role exists"], Exit 1).
Proof.
  apply (X8_validation_stops_at_first_failure
           (sample.with_answers (λ _, Err "role exists")
              (create_service.ocm_CreateManagedService sample.world)
              sample.world)
           []
           [ {| ocm.Name := "ebs-cloud-credentials";
                ocm.Namespace := "openshift-cluster-csi-drivers";
                ocm.RoleARN := "arn:aws:iam::123456789012:role/c2" |} ]
           {| ocm.Name := "cloud-credentials";
              ocm.Namespace := "openshift-machine-api";
              ocm.RoleARN := "arn:aws:iam::123456789012:role/c1" |}
           "c1" "role exists").
  - intros r Hr. by apply elem_of_nil in Hr.
  - reflexivity.
  - reflexivity.
Defined.

(** The sample account submits one request, for the service and the
    cluster of the command line. *)
Lemma X9_request_provenance_witness :
  Forall (λ request,
            ocm.ServiceName request = "s1" ∧ ocm.ClusterName request = "c1")
    (created (trace (sample.invoke sample.world)))
  ∧ length (created (trace (sample.invoke sample.world))) = 1.
Proof.
  split; [| by vm_compute].
  apply Forall_forall. intros request Hin%elem_of_created.
  destruct (X9_request_provenance sample.DefaultPrefix sample.AccountRoles
              sample.CredentialRequests sample.GetVersionMinor
              sample.CheckSupportedVersion sample.arn_Parse sample.world
              (create_service.args_at_entry sample.world) request Hin)
    as (creator & region & _ & _ & Hs & Hc & _).
  split; [exact Hs | exact Hc].
Defined.

(** The request of the sample account has no more operator roles than
    there are required operators. *)
Lemma X10_request_operator_roles_witness :
  Forall (λ request, length (ocm.AwsOperatorIamRoleList request) ≤ 2)
    (created (trace (sample.invoke sample.world)))
  ∧ length (created (trace (sample.invoke sample.world))) = 1.
Proof.
  split; [| by vm_compute].
  apply Forall_forall. intros request Hin%elem_of_created.
  exact (proj1 (X10_request_operator_roles sample.DefaultPrefix
                  sample.AccountRoles sample.CredentialRequests
                  sample.GetVersionMinor sample.CheckSupportedVersion
                  sample.arn_Parse sample.world
                  (create_service.args_at_entry sample.world) request Hin)).
Defined.

(** The add-on of the sample account is found, and has no parameter. *)
Lemma X11_parameter_copy_witness :
  trace (create_service.fetchParameters sample.world
           (create_service.args_at_entry sample.world))
  = [GetAddOn "s1"].
Proof.
  exact (proj1 (X11_parameter_copy sample.world
                  (create_service.args_at_entry sample.world)
                  (Some {| cmv1.AddOn_parameters := None |}) None eq_refl)).
Defined.

(** An add-on with a parameter named after the flag [clusterName]. *)
Lemma X12_panic_sources_witness :
  created
    (trace
       (sample.invoke
          (sample.with_addon
             (Some {| cmv1.AddOn_parameters :=
                        Some [ {| cmv1.ID := "clusterName" |} ] |},
              None)
             sample.world)))
  = [].
Proof.
  set (w := sample.with_addon _ _).
  apply (X12_panic_sources sample.DefaultPrefix sample.AccountRoles
           sample.CredentialRequests sample.GetVersionMinor
           sample.CheckSupportedVersion sample.arn_Parse w
           (create_service.args_at_entry w)).
  by vm_compute.
Defined.

(** The sample account returns, and reports no error. *)
Lemma X13_successful_run_witness :
  errors (trace (sample.invoke sample.world)) = [].
Proof.
  edestruct (X13_successful_run sample.DefaultPrefix sample.AccountRoles
               sample.CredentialRequests sample.GetVersionMinor
               sample.CheckSupportedVersion sample.arn_Parse sample.world
               (create_service.args_at_entry sample.world))
    as (service & _ & _ & _ & He).
  - vm_compute. reflexivity.
  - exact He.
Defined.

(** The sample account, with a service that refuses the request. *)
Lemma X14_create_request_fails_witness :
  Forall (λ request,
            outcome
              (sample.invoke
                 (sample.with_answers
                    (create_service.aws_ValidateRoleNameAvailable sample.world)
                    (λ _, Err "quota exceeded") sample.world))
            = Exit 1)
    (created
       (trace
          (sample.invoke
             (sample.with_answers
                (create_service.aws_ValidateRoleNameAvailable sample.world)
                (λ _, Err "quota exceeded") sample.world))))
  ∧ length
      (created
         (trace
            (sample.invoke
               (sample.with_answers
                  (create_service.aws_ValidateRoleNameAvailable sample.world)
                  (λ _, Err "quota exceeded") sample.world))))
    = 1.
Proof.
  set (w := sample.with_answers _ _ _).
  split; [| by vm_compute].
  apply Forall_forall. intros request Hin%elem_of_created.
  apply (X14_create_request_fails sample.DefaultPrefix sample.AccountRoles
           sample.CredentialRequests sample.GetVersionMinor
           sample.CheckSupportedVersion sample.arn_Parse w
           (create_service.args_at_entry w) request "quota exceeded" Hin).
  reflexivity.
Defined.

(** A connection that cannot be built. *)
Lemma X15_list_failures_witness :
  list_service.run
    {| list_service.ocm_Build := Err "not logged in";
       list_service.ocm_Close := Ok tt;
       list_service.ocm_ListManagedServices := λ _, Ok [] |}
  = ([Build; Errorf "Failed to create OCM connection: not logged in"],
     Exit 1).
Proof.
  apply (proj1 (proj2 (X15_list_failures
                         {| list_service.ocm_Build := Err "not logged in";
                            list_service.ocm_Close := Ok tt;
                            list_service.ocm_ListManagedServices :=
                              λ _, Ok [] |}))).
  reflexivity.
Defined.

(** The request of the sample account carries the nil map. *)
Lemma X16_no_parameter_is_sent_witness :
  Forall (λ request, ocm.Parameters request = None)
    (created (trace (sample.invoke sample.world)))
  ∧ length (created (trace (sample.invoke sample.world))) = 1.
Proof.
  split; [| by vm_compute].
  apply Forall_forall. intros request Hin%elem_of_created.
  exact (proj1 (X16_no_parameter_is_sent sample.DefaultPrefix
                  sample.AccountRoles sample.CredentialRequests
                  sample.GetVersionMinor sample.CheckSupportedVersion
                  sample.arn_Parse sample.world request Hin)).
Defined.

(** The sample account, with the range in the opposite order. *)
Lemma X17_range_order_is_irrelevant_witness :
  outcome
    (sample.invoke
       (with_range
          [aws.WorkerAccountRole; aws.ControlPlaneAccountRole;
           aws.SupportAccountRole; aws.InstallerAccountRole]
          sample.world))
  = outcome (sample.invoke sample.world).
Proof.
  apply (X17_range_order_is_irrelevant sample.DefaultPrefix
           sample.AccountRoles sample.CredentialRequests
           sample.GetVersionMinor sample.CheckSupportedVersion
           sample.arn_Parse sample.world
           (create_service.args_at_entry sample.world)
           [aws.WorkerAccountRole; aws.ControlPlaneAccountRole;
            aws.SupportAccountRole; aws.InstallerAccountRole]).
  exact (reverse_Permutation all_roles).
Defined.
